(** * Price acquisition hook [useBtcPrice]: model and verification

    The repository holds two revisions of the hook:
    - [src/components/LiveBtcPrice/useBtcPrice.ts], the current one
      (module [Current] below);
    - an earlier one (module [Earlier] below), with other constants, another
      treatment of HTTP 429 and the gold item under another id.

    Everything both revisions share textually ([updateTickerItems],
    [getCachedData], [saveToCache], the rate-limit check, the body of
    [fetchBtcPrice]) is written once, inside a Section whose Variables are
    the places where the two texts differ.

    Numbers: prices, percentages and the values of [Math.random()] are
    JavaScript numbers, that is IEEE 754 binary64, modelled by the primitive
    [float]; epoch milliseconds and whole timer delays are integers,
    modelled by [Z]. *)

From Stdlib Require Import ZArith Floats String List Bool Lia.
Import ListNotations.

Set Warnings "-inexact-float".
Local Open Scope string_scope.
Local Open Scope Z_scope.

(** ** JavaScript values *)

(** [ToBoolean] of a number: false on [NaN], [+0] and [-0] only. *)
Definition truthy (x : float) : bool := negb (is_nan x || is_zero x).

(** [x || d] on numbers. *)
Definition js_or (x d : float) : float := if truthy x then x else d.

(** The integer part of a number, as [Math.floor] gives it for a finite
    number and as a timer takes its delay. *)
Definition floorZ (x : float) : Z :=
  match Prim2SF x with
  | S754_finite s m e =>
      let n := cond_Zopp s (Zpos m) in
      if 0 <=? e then n * 2 ^ e else n / 2 ^ (- e)
  | _ => 0
  end.

(** A whole number of milliseconds as a JavaScript number; exact from 0 to
    2^53, which covers every backoff either revision reaches within 35
    doublings of its base. *)
Definition Number_of (z : Z) : float := of_uint63 (Uint63.of_Z z).

(** What [localStorage.getItem] followed by [JSON.parse] can give: no entry
    (or an empty string), a string that does not parse, or a parsed value. *)
Inductive Slot (A : Type) : Type :=
| Absent
| Unparsable
| Parsed (a : A).
Arguments Absent {A}.
Arguments Unparsable {A}.
Arguments Parsed {A} a.

(** ** Data model *)

Record TickerItem := mkItem {
  id : string;
  label : string;
  currentPrice : option float;
  priceChange24h : option float;
  currencySymbol : string
}.

(** [CachedData], the value stored under [CACHE_KEY]. *)
Module Cached.
Record t := mk {
  items : list TickerItem;
  lastUpdated : Z
}.
End Cached.

(** The value stored under [RATE_LIMIT_KEY]. *)
Record RateLimit := mkRateLimit {
  timestamp : Z;
  count : Z
}.

(** One element of the provider's [/coins/markets] array. *)
Module Coin.
Record t := mk {
  id : string;
  current_price : float;
  price_change_percentage_24h : float
}.
End Coin.

(** An axios response: status, the [retry-after] header when present (in
    seconds), and the payload. *)
Record Response := mkResponse {
  status : Z;
  retry_after : option Z;
  data : list Coin.t
}.

(** What can be thrown inside the hook. *)
Inductive Thrown :=
| AxiosError (response_status : option Z) (message : string)
| SyntaxError
| IncompleteData.

(** [error.response?.status === 429] *)
Definition is429 (error : Thrown) : bool :=
  match error with
  | AxiosError (Some s) _ => s =? 429
  | _ => false
  end.

Inductive AxiosOutcome :=
| Resolved (response : Response)
| Rejected (response_status : option Z) (message : string).

Record Reply := mkReply {
  took : Z;
  outcome : AxiosOutcome
}.

(** ** Numbers through JSON *)

(** [JSON.stringify] writes [NaN], [Infinity] and [-Infinity] as [null] and
    [-0] as [0]; every other number is written with the digits that
    [JSON.parse] reads back as the same number. *)
Definition json_number (x : float) : option float :=
  if is_nan x || is_infinity x then None
  else if is_zero x then Some 0%float
  else Some x.

(** A field of type [number | null]. *)
Definition json_field (v : option float) : option float :=
  match v with
  | Some x => json_number x
  | None => None
  end.

(** A ticker item after [JSON.stringify] and [JSON.parse]. *)
Definition json_item (item : TickerItem) : TickerItem :=
  mkItem (id item) (label item) (json_field (currentPrice item))
         (json_field (priceChange24h item)) (currencySymbol item).

(** ** The world outside the hook *)

(** The places of the source that suspend on [setTimeout]. *)
Inductive Site := Admission | Pacing | Cooldown | Backoff.

Inductive Event :=
| Sleep (site : Site) (ms : Z)
| SleepFrac (site : Site) (ms : float)
| Request (ids : string).

(** The clock stands still while synchronous code runs and moves on by the
    requested delay across a [setTimeout], by [took] across a request.
    [net n] is the provider's reply to the [n]-th request, [random n] the
    [n]-th value of [Math.random()]. [trace] logs the suspensions and the
    requests, oldest first. *)
Record World := mkWorld {
  clock : Z;
  rateLimitSlot : Slot RateLimit;
  cacheSlot : Slot Cached.t;
  net : nat -> Reply;
  calls : nat;
  random : nat -> float;
  draws : nat;
  trace : list Event
}.

Definition set_rateLimit (v : RateLimit) (w : World) : World :=
  mkWorld (clock w) (Parsed v) (cacheSlot w) (net w) (calls w)
          (random w) (draws w) (trace w).

Definition set_cache (v : Cached.t) (w : World) : World :=
  mkWorld (clock w) (rateLimitSlot w) (Parsed v) (net w) (calls w)
          (random w) (draws w) (trace w).

Definition elapse (ms : Z) (e : Event) (w : World) : World :=
  mkWorld (clock w + Z.max 0 ms) (rateLimitSlot w) (cacheSlot w) (net w)
          (calls w) (random w) (draws w) (trace w ++ [e]).

(** ** Completions and effects *)

(** How an awaited computation ends: with a value, with an exception, or not
    at all within the modelled horizon. *)
Inductive Completion (A : Type) : Type :=
| Return (a : A)
| Throw (e : Thrown)
| Pending.
Arguments Return {A} a.
Arguments Throw {A} e.
Arguments Pending {A}.

Definition Eff (A : Type) : Type := World -> Completion A * World.

Definition ret {A} (a : A) : Eff A := fun w => (Return a, w).
Definition throw {A} (e : Thrown) : Eff A := fun w => (Throw e, w).
Definition pending {A} : Eff A := fun w => (Pending, w).

Definition on_settle {A B} (m : Eff A) (ok : A -> Eff B) (ko : Thrown -> Eff B)
  : Eff B :=
  fun w =>
    match m w with
    | (Return a, w1) => ok a w1
    | (Throw e, w1) => ko e w1
    | (Pending, w1) => (Pending, w1)
    end.

Definition bind {A B} (m : Eff A) (k : A -> Eff B) : Eff B :=
  on_settle m k throw.

(** [try { m } catch (error) { handler }] *)
Definition try_catch {A} (m : Eff A) (handler : Thrown -> Eff A) : Eff A :=
  on_settle m ret handler.

Notation "x <- m ;; k" := (bind m (fun x => k))
  (at level 61, m at next level, right associativity).
Notation "m ;; k" := (bind m (fun _ => k))
  (at level 61, right associativity).

(** [await new Promise(resolve => setTimeout(resolve, ms))] *)
Definition sleep (site : Site) (ms : Z) : Eff unit :=
  fun w => (Return tt, elapse ms (Sleep site ms) w).

(** The same with a delay that is not a whole number of milliseconds; the
    timer runs for the whole milliseconds of it. *)
Definition sleepFrac (site : Site) (ms : float) : Eff unit :=
  fun w => (Return tt, elapse (floorZ ms) (SleepFrac site ms) w).

(** [Math.random()] *)
Definition Math_random : Eff float :=
  fun w => (Return (random w (draws w)),
            mkWorld (clock w) (rateLimitSlot w) (cacheSlot w) (net w)
                    (calls w) (random w) (S (draws w)) (trace w)).

(** [await axios(...)] for the instruments [ids]. *)
Definition axios (ids : string) : Eff Response :=
  fun w =>
    let reply := net w (calls w) in
    let w1 := elapse (took reply) (Request ids) w in
    let w2 := mkWorld (clock w1) (rateLimitSlot w1) (cacheSlot w1) (net w1)
                      (S (calls w1)) (random w1) (draws w1) (trace w1) in
    match outcome reply with
    | Resolved response => (Return response, w2)
    | Rejected s m => (Throw (AxiosError s m), w2)
    end.

(** [localStorage.setItem(RATE_LIMIT_KEY, JSON.stringify({timestamp, count}))] *)
Definition setRateLimit (timestamp count : Z) : Eff unit :=
  fun w => (Return tt, set_rateLimit (mkRateLimit timestamp count) w).

(** ** Rate-limit check at the head of [fetchWithRetry] *)

Definition RATE_LIMIT_WINDOW : Z := 60 * 1000.

Section RateLimiter.
(** The two revisions differ in the ceiling (5 and 10) and in the buffer
    added to the wait (1000 and 0). *)
Variable ceiling : Z.
Variable buffer : Z.

Definition rateLimitCheck : Eff unit :=
  fun w =>
    let now := clock w in
    match rateLimitSlot w with
    | Absent => setRateLimit now 1 w
    | Unparsable => (Throw SyntaxError, w)
    | Parsed rl =>
        if now - timestamp rl >? RATE_LIMIT_WINDOW then
          setRateLimit now 1 w
        else if count rl >=? ceiling then
          let timeToWait := (timestamp rl + RATE_LIMIT_WINDOW) - now in
          (sleep Admission (timeToWait + buffer) ;;
           fun w1 => setRateLimit (clock w1) 1 w1) w
        else
          setRateLimit (timestamp rl) (count rl + 1) w
    end.
End RateLimiter.

(** ** The state of the hook *)

(** The four [useState] cells and the [isMounted] ref. A cell holds what the
    last call of its setter gave it, whenever that call was made. *)
Record Hook := mkHook {
  tickerItems : list TickerItem;
  isLoading : bool;
  error : option string;
  lastUpdated : option Z;
  isMounted : bool
}.

Definition setTickerItems (f : list TickerItem -> list TickerItem) (h : Hook)
  : Hook :=
  mkHook (f (tickerItems h)) (isLoading h) (error h) (lastUpdated h)
         (isMounted h).

Definition setIsLoading (b : bool) (h : Hook) : Hook :=
  mkHook (tickerItems h) b (error h) (lastUpdated h) (isMounted h).

Definition setError (e : option string) (h : Hook) : Hook :=
  mkHook (tickerItems h) (isLoading h) e (lastUpdated h) (isMounted h).

Definition setLastUpdated (t : option Z) (h : Hook) : Hook :=
  mkHook (tickerItems h) (isLoading h) (error h) t (isMounted h).

(** [{ ...item, ...updatedItem }]: every field of [updatedItem] wins. *)
Definition spread (item updatedItem : TickerItem) : TickerItem :=
  mkItem (id updatedItem) (label updatedItem) (currentPrice updatedItem)
         (priceChange24h updatedItem) (currencySymbol updatedItem).

(** The function handed to [setTickerItems] by [updateTickerItems]. *)
Definition mergeById (newItems prevItems : list TickerItem)
  : list TickerItem :=
  map (fun item =>
         match find (fun newItem => String.eqb (id newItem) (id item)) newItems
         with
         | Some updatedItem => spread item updatedItem
         | None => item
         end) prevItems.

Definition updateTickerItems (newItems : list TickerItem) : Hook -> Hook :=
  setTickerItems (mergeById newItems).

(** The cleanup returned by the effect: [isMounted.current = false] (the
    interval it also clears only starts further refreshes). *)
Definition cleanup (h : Hook) : Hook :=
  mkHook (tickerItems h) (isLoading h) (error h) (lastUpdated h) false.

(** What other tasks may do while a refresh is suspended on its request: the
    effect's cleanup runs, or another instance of the hook (another tab)
    stores a record under [CACHE_KEY]. *)
Inductive Interference :=
| Cleanup
| OtherWriter (c : Cached.t).

Definition interfere (s : Hook * World) (i : Interference) : Hook * World :=
  match i with
  | Cleanup => (cleanup (fst s), snd s)
  | OtherWriter c => (fst s, set_cache c (snd s))
  end.

Definition meanwhile (during : list Interference) (s : Hook * World)
  : Hook * World :=
  fold_left interfere during s.

Definition FETCH_FAILED : string :=
  "Failed to fetch live data. Using cached data if available.".

(** [response.data.reduce((acc, coin) => { acc[coin.id] = coin; return acc }, {})] *)
Definition byId (data : list Coin.t) : string -> option Coin.t :=
  fold_left
    (fun acc coin =>
       fun key => if String.eqb key (Coin.id coin) then Some coin else acc key)
    data (fun _ => None).

Section Refresh.
(** Where the two revisions of [useBtcPrice] differ. *)
Variable CACHE_DURATION : Z.
(** the bound of the fresh-skip test inside [fetchBtcPrice] *)
Variable FRESH_WINDOW : Z.
(** [data['pax-gold'] || data.gold], or [data['pax-gold']] alone *)
Variable goldOf : (string -> option Coin.t) -> option Coin.t.
(** [goldData.current_price], or [goldData.current_price * 31.1] *)
Variable goldPricePerOz : float -> float.
(** the awaited call(s) of [fetchWithRetry] *)
Variable request : Eff Response.

Definition getCachedData (w : World) : option Cached.t :=
  match cacheSlot w with
  | Absent => None
  | Unparsable => None
  | Parsed parsed =>
      if clock w - Cached.lastUpdated parsed <? CACHE_DURATION
      then Some parsed
      else None
  end.

(** [localStorage.setItem(CACHE_KEY, JSON.stringify({items, lastUpdated}))]:
    the store holds the text, so what a later [JSON.parse] gives is the
    record as [JSON.stringify] wrote it. *)
Definition saveToCache (items : list TickerItem) (w : World) : World :=
  set_cache (Cached.mk (map json_item items) (clock w)) w.

(** The array literal [updatedItems]. *)
Definition updatedItems (btcData ethData goldData : Coin.t)
  : list TickerItem :=
  let btcEthPrice :=
    (Coin.current_price btcData / Coin.current_price ethData)%float in
  let btcEthChange24h :=
    js_or ((Coin.price_change_percentage_24h btcData
            - Coin.price_change_percentage_24h ethData)
           / (1 + Coin.price_change_percentage_24h ethData / 100))%float
          0%float in
  [ mkItem "btc-usd" "BTC/USD"
      (Some (Coin.current_price btcData))
      (Some (Coin.price_change_percentage_24h btcData)) "$";
    mkItem "btc-eur" "BTC/EUR"
      (Some (Coin.current_price btcData * 0.9)%float)
      (Some (Coin.price_change_percentage_24h btcData)) "€";
    mkItem "btc-eth" "BTC/ETH"
      (Some btcEthPrice) (Some btcEthChange24h) "Ξ";
    mkItem "gold-usd" "Gold (oz)/USD"
      (Some (goldPricePerOz (Coin.current_price goldData)))
      (Some (Coin.price_change_percentage_24h goldData)) "$" ].

(** From the response to [updatedItems], or the exception for a missing
    instrument. *)
Definition derive (response : Response) : Eff (list TickerItem) :=
  let data := byId (data response) in
  match data "bitcoin", data "ethereum", goldOf data with
  | Some btcData, Some ethData, Some goldData =>
      ret (updatedItems btcData ethData goldData)
  | _, _, _ => throw IncompleteData
  end.

(** The [finally] block. *)
Definition finally (h : Hook) : Hook :=
  if isMounted h then setIsLoading false h else h.

(** The [catch] block. *)
Definition onFailure (s : Hook * World) : Hook :=
  let h := setError (Some FETCH_FAILED) (fst s) in
  match getCachedData (snd s) with
  | Some cachedData =>
      setLastUpdated (Some (Cached.lastUpdated cachedData))
        (updateTickerItems (Cached.items cachedData) h)
  | None => h
  end.

(** The end of the [try] block, after the awaited response. *)
Definition onSuccess (updatedItems : list TickerItem) (s : Hook * World)
  : Hook * World :=
  (setLastUpdated (Some (clock (snd s)))
     (updateTickerItems updatedItems (fst s)),
   saveToCache updatedItems (snd s)).

(** [fetchBtcPrice]. [isLoading_seen] is the value of [isLoading] in the
    closure of the callback (the dependency list of its [useCallback] does
    not name [isLoading], so the callback keeps the value it was created
    with); [during] is what the other tasks do while the refresh is suspended
    on its request. *)
Definition fetchBtcPrice (isLoading_seen : bool) (during : list Interference)
  (s : Hook * World) : Hook * World :=
  let (h, w) := s in
  if negb (isMounted h) then s
  else if isLoading_seen then s
  else
    let cachedData := getCachedData w in
    let now := clock w in
    let h1 :=
      match cachedData with
      | Some c =>
          setIsLoading false
            (setLastUpdated (Some (Cached.lastUpdated c))
               (updateTickerItems (Cached.items c) h))
      | None => h
      end in
    if match cachedData with
       | Some c => now - Cached.lastUpdated c <? FRESH_WINDOW
       | None => false
       end
    then (finally h1, w)
    else
      let h2 := setError None (setIsLoading true h1) in
      let (settled, w1) := (response <- request ;; derive response) w in
      let s3 := meanwhile during (h2, w1) in
      match settled with
      | Return updatedItems =>
          let s4 := onSuccess updatedItems s3 in (finally (fst s4), snd s4)
      | Throw _ => (finally (onFailure s3), snd s3)
      | Pending => s3
      end.

(** A refresh cycle: the time that passes before it, what the closure sees,
    what happens while it is suspended. *)
Record Cycle := mkCycle {
  idle : Z;
  isLoading_seen : bool;
  during : list Interference
}.

Definition pass (ms : Z) (w : World) : World :=
  mkWorld (clock w + ms) (rateLimitSlot w) (cacheSlot w) (net w) (calls w)
          (random w) (draws w) (trace w).

Definition cycle (s : Hook * World) (c : Cycle) : Hook * World :=
  fetchBtcPrice (isLoading_seen c) (during c) (fst s, pass (idle c) (snd s)).

Definition cycles (cs : list Cycle) (s : Hook * World) : Hook * World :=
  fold_left cycle cs s.

End Refresh.

(** ** The current revision: [src/components/LiveBtcPrice/useBtcPrice.ts] *)

Module Current.

Definition CACHE_DURATION : Z := 5 * 60 * 1000.
Definition REFRESH_INTERVAL : Z := 5 * 60 * 1000.
Definition MAX_RETRIES : nat := 1.
Definition BASE_BACKOFF : Z := 3000.

Definition PAX_GOLD : string := "bitcoin,ethereum,pax-gold".
Definition GOLD : string := "bitcoin,ethereum,gold".

(** The [try] block of [fetchWithRetry]. *)
Definition attempt (ids : string) : Eff Response :=
  rateLimitCheck 5 1000 ;;
  sleep Pacing 500 ;;
  axios ids.

(** The head of the [catch] block: on a 429 wait 30 seconds, then reset the
    counter. *)
Definition on429 (error : Thrown) : Eff unit :=
  if is429 error
  then sleep Cooldown 30000 ;; (fun w => setRateLimit (clock w) 0 w)
  else ret tt.

(** Exponential backoff with jitter. *)
Definition backoffWait (backoff : Z) : Eff unit :=
  r <- Math_random ;;
  let jitter := floorZ (r * 1000)%float in
  let delay := backoff + jitter in
  sleep Backoff delay.

(** [retries] counts down from [MAX_RETRIES]; [retries <= 0] is its [O]. *)
Fixpoint fetchWithRetry (ids : string) (retries : nat) (backoff : Z)
  : Eff Response :=
  try_catch (attempt ids)
    (fun error =>
       on429 error ;;
       match retries with
       | O => throw error
       | S retries_1 =>
           backoffWait backoff ;;
           fetchWithRetry ids retries_1 (Z.min (backoff * 2) 30000)
       end).

(** First with pax-gold, then with gold if that fails. *)
Definition request : Eff Response :=
  try_catch (fetchWithRetry PAX_GOLD MAX_RETRIES BASE_BACKOFF)
    (fun _ => fetchWithRetry GOLD MAX_RETRIES BASE_BACKOFF).

Definition goldOf (data : string -> option Coin.t) : option Coin.t :=
  match data "pax-gold" with
  | Some c => Some c
  | None => data "gold"
  end.

Definition goldPricePerOz (current_price : float) : float := current_price.

Definition initialItems : list TickerItem :=
  [ mkItem "btc-usd" "BTC/USD" None None "$";
    mkItem "btc-eur" "BTC/EUR" None None "€";
    mkItem "btc-eth" "BTC/ETH" None None "Ξ";
    mkItem "gold-usd" "Gold (oz)/USD" None None "$" ].

Definition initialHook : Hook := mkHook initialItems true None None true.

Definition getCachedData := getCachedData CACHE_DURATION.

Definition fetchBtcPrice :=
  fetchBtcPrice CACHE_DURATION CACHE_DURATION goldOf goldPricePerOz request.

Definition cycles :=
  cycles CACHE_DURATION CACHE_DURATION goldOf goldPricePerOz request.

End Current.

(** ** The earlier revision *)

Module Earlier.

Definition CACHE_DURATION : Z := 2 * 60 * 1000.
Definition REFRESH_INTERVAL : Z := 2 * 60 * 1000.
Definition FRESH_WINDOW : Z := 60000.
Definition MAX_RETRIES : nat := 2.
Definition BASE_BACKOFF : Z := 2000.

Definition PAX_GOLD : string := "bitcoin,ethereum,pax-gold".

(** [parseInt(response.headers['retry-after'] || '5', 10) * 1000] *)
Definition retryAfter (response : Response) : Z :=
  match retry_after response with
  | Some seconds => seconds
  | None => 5
  end * 1000.

(** Exponential backoff with jitter; the delay is not a whole number. *)
Definition backoffWait (backoff : Z) : Eff unit :=
  r <- Math_random ;;
  let jitter := (r * 1000)%float in
  let delay := (Number_of backoff + jitter)%float in
  sleepFrac Backoff delay.

(** A response of status 429 calls the function again with [retries]
    unchanged, so the recursion is bounded by [fuel], the number of requests
    the model follows; [Pending] is the answer when it runs out. *)
Fixpoint fetchWithRetry (fuel : nat) (ids : string) (retries : nat)
  (backoff : Z) : Eff Response :=
  match fuel with
  | O => pending
  | S fuel_1 =>
      rateLimitCheck 10 0 ;;
      on_settle (axios ids)
        (fun response =>
           if status response =? 429 then
             sleep Cooldown (retryAfter response) ;;
             fetchWithRetry fuel_1 ids retries (backoff * 2)
           else ret response)
        (fun error =>
           match retries with
           | S retries_1 =>
               backoffWait backoff ;;
               fetchWithRetry fuel_1 ids retries_1 (Z.min (backoff * 2) 30000)
           | O => throw error
           end)
  end.

Definition request (fuel : nat) : Eff Response :=
  fetchWithRetry fuel PAX_GOLD MAX_RETRIES BASE_BACKOFF.

Definition goldOf (data : string -> option Coin.t) : option Coin.t :=
  data "pax-gold".

Definition goldPricePerOz (current_price : float) : float :=
  (current_price * 31.1)%float.

Definition initialItems : list TickerItem :=
  [ mkItem "btc-usd" "BTC/USD" None None "$";
    mkItem "btc-eur" "BTC/EUR" None None "€";
    mkItem "btc-eth" "BTC/ETH" None None "Ξ";
    mkItem "btc-gold" "Gold (oz)" None None "oz" ].

Definition initialHook : Hook := mkHook initialItems true None None true.

Definition getCachedData := getCachedData CACHE_DURATION.

Definition fetchBtcPrice (fuel : nat) :=
  fetchBtcPrice CACHE_DURATION FRESH_WINDOW goldOf goldPricePerOz
    (request fuel).

Definition cycles (fuel : nat) :=
  cycles CACHE_DURATION FRESH_WINDOW goldOf goldPricePerOz (request fuel).

End Earlier.

(** ** Stages of a refresh, named for the statements below *)

(** The first item of a given id, as the display layer would look it up. *)
Definition itemOf (key : string) (l : list TickerItem) : option TickerItem :=
  find (fun item => String.eqb (id item) key) l.

(** [shown] is what the display holds once the batch [newItems] has been
    published over [prevItems]: as many items, and in each place the first
    item of the batch with the id of the item that was there, or that item
    itself when the batch has none. *)
Definition publishedOver (newItems prevItems shown : list TickerItem) : Prop :=
  length shown = length prevItems
  /\ forall n item,
       nth_error prevItems n = Some item ->
       nth_error shown n =
       Some (match itemOf (id item) newItems with
             | Some updatedItem => updatedItem
             | None => item
             end).

(** The cached record as published by the head of [fetchBtcPrice]. *)
Definition showCached (c : Cached.t) (h : Hook) : Hook :=
  setIsLoading false
    (setLastUpdated (Some (Cached.lastUpdated c))
       (updateTickerItems (Cached.items c) h)).

(** The state of the hook when the refresh suspends on its request. *)
Definition atAwait (cachedData : option Cached.t) (h : Hook) : Hook :=
  setError None
    (setIsLoading true
       (match cachedData with
        | Some c => showCached c h
        | None => h
        end)).

(** The fresh-skip test. *)
Definition skips (FRESH_WINDOW : Z) (cachedData : option Cached.t) (now : Z)
  : bool :=
  match cachedData with
  | Some c => now - Cached.lastUpdated c <? FRESH_WINDOW
  | None => false
  end.

(** ** Reading the trace *)

Definition backoffOf (e : Event) : list Z :=
  match e with
  | Sleep Backoff ms => [ms]
  | _ => []
  end.

(** The delays of the backoff waits of a trace, oldest first. *)
Definition backoffWaits (tr : list Event) : list Z := flat_map backoffOf tr.

Definition backoffFracOf (e : Event) : list float :=
  match e with
  | SleepFrac Backoff ms => [ms]
  | _ => []
  end.

Definition backoffFracWaits (tr : list Event) : list float :=
  flat_map backoffFracOf tr.

(** The waits as the code computes them: the backoff it was called with plus
    jitter, then the doubled and capped backoff plus jitter, and so on. *)
Fixpoint codeWaits (backoff : Z) (jitters : list Z) : list Z :=
  match jitters with
  | [] => []
  | j :: rest => (backoff + j) :: codeWaits (Z.min (backoff * 2) 30000) rest
  end.

(** The waits as the specification states them: before the [k]-th retry,
    [min (B * 2^(k-1)) C] plus jitter. *)
Fixpoint specWaits (B C : Z) (k : nat) (jitters : list Z) : list Z :=
  match jitters with
  | [] => []
  | j :: rest =>
      (Z.min (B * 2 ^ (Z.of_nat k - 1)) C + j) :: specWaits B C (S k) rest
  end.

(** [Math.random()] gives a number that is at least 0 and below 1. *)
Definition unitInterval (w : World) : Prop :=
  forall n,
    (0 <=? random w n)%float = true /\ (random w n <? 1)%float = true.

(** The jitter terms of the next [k] backoff waits: the draws of
    [Math.random()] from the [n]-th on, each times 1000 in binary64. *)
Fixpoint jittersFrom (random : nat -> float) (n k : nat) : list float :=
  match k with
  | O => []
  | S k_1 => (random n * 1000)%float :: jittersFrom random (S n) k_1
  end.

(** What an effect of the fetcher does not undo: the oracles and the cache
    stay, the clock and the counters do not go back, a readable rate-limit
    entry stays readable, the trace only grows. *)
Record Extends (w w' : World) : Prop := mkExtends {
  ext_random : random w' = random w;
  ext_net : net w' = net w;
  ext_cache : cacheSlot w' = cacheSlot w;
  ext_clock : clock w <= clock w';
  ext_calls : (calls w <= calls w')%nat;
  ext_draws : (draws w <= draws w')%nat;
  ext_parsable : rateLimitSlot w <> Unparsable -> rateLimitSlot w' <> Unparsable;
  ext_trace : exists rest, trace w' = (trace w ++ rest)%list
}.

Definition Steady {A} (m : Eff A) : Prop := forall w, Extends w (snd (m w)).

(** Effects that neither wait for a backoff nor draw a random number. *)
Definition Quiet {A} (m : Eff A) : Prop :=
  forall w,
    backoffWaits (trace (snd (m w))) = backoffWaits (trace w)
    /\ backoffFracWaits (trace (snd (m w))) = backoffFracWaits (trace w).

Definition inJitterRange (j : Z) : Prop := 0 <= j < 1000.

(** What a trace shows of the retry loop: the requests and the backoff
    waits, in the order they happened. *)
Inductive Step :=
| Asked (ids : string)
| Waited (ms : Z)
| WaitedFrac (ms : float).

Definition stepOf (e : Event) : list Step :=
  match e with
  | Request ids => [Asked ids]
  | Sleep Backoff ms => [Waited ms]
  | SleepFrac Backoff ms => [WaitedFrac ms]
  | _ => []
  end.

Definition steps (tr : list Event) : list Step := flat_map stepOf tr.

(** A failed request before each of the waits. *)
Fixpoint retried (ids : string) (waits : list Step) : list Step :=
  match waits with
  | [] => []
  | wait :: rest => Asked ids :: wait :: retried ids rest
  end.

(** Effects that neither ask the provider nor wait for a backoff. *)
Definition Still {A} (m : Eff A) : Prop :=
  forall w, steps (trace (snd (m w))) = steps (trace w).

(** The same two descriptions for the earlier revision, whose jitter is not
    rounded and is added in binary64. *)
Fixpoint codeFracWaits (backoff : Z) (jitters : list float) : list float :=
  match jitters with
  | [] => []
  | j :: rest =>
      (Number_of backoff + j)%float
        :: codeFracWaits (Z.min (backoff * 2) 30000) rest
  end.

Fixpoint specFracWaits (B C : Z) (k : nat) (jitters : list float)
  : list float :=
  match jitters with
  | [] => []
  | j :: rest =>
      (Number_of (Z.min (B * 2 ^ (Z.of_nat k - 1)) C) + j)%float
        :: specFracWaits B C (S k) rest
  end.

Definition inJitterRangeF (j : float) : Prop :=
  (0 <=? j)%float = true /\ (j <? 1000)%float = true.

(** axios rejects every status outside 2xx unless [validateStatus] says
    otherwise, and the options of the hook do not set it: no reply resolves
    with status 429. *)
Definition no429Resolved (w : World) : Prop :=
  forall n response,
    outcome (net w n) = Resolved response -> status response <> 429.

(** ** Properties of the published items *)

(** The computation of the 24h change of the ratio, before [|| 0]. *)
Definition rawChange (btcData ethData : Coin.t) : float :=
  ((Coin.price_change_percentage_24h btcData
    - Coin.price_change_percentage_24h ethData)
   / (1 + Coin.price_change_percentage_24h ethData / 100))%float.

(** The published ratio item: the quotient of the prices, and the computed
    change unless that is [NaN] or a zero, which give [0]. *)
Definition ratioPublished (btcData ethData : Coin.t) (h : Hook) : Prop :=
  exists change,
    itemOf "btc-eth" (tickerItems h) =
    Some (mkItem "btc-eth" "BTC/ETH"
            (Some (Coin.current_price btcData / Coin.current_price ethData)%float)
            (Some change) "Ξ")
    /\ (is_nan (rawChange btcData ethData) = true -> change = 0%float)
    /\ (is_zero (rawChange btcData ethData) = true -> change = 0%float)
    /\ (is_nan (rawChange btcData ethData) = false ->
        is_zero (rawChange btcData ethData) = false ->
        change = rawChange btcData ethData)
    /\ (is_infinity (rawChange btcData ethData) = true ->
        change = rawChange btcData ethData).

(** The EUR item: 0.9 times the USD price, the USD change as it is. *)
Definition eurItem (btcData : Coin.t) : TickerItem :=
  mkItem "btc-eur" "BTC/EUR"
    (Some (Coin.current_price btcData * 0.9)%float)
    (Some (Coin.price_change_percentage_24h btcData)) "€".

(** A number that [JSON.stringify] and [JSON.parse] hand back as it is:
    finite, and not the negative zero. *)
Definition writable (x : float) : Prop :=
  is_nan x = false /\ is_infinity x = false
  /\ (is_zero x = true -> x = 0%float).

Definition fieldWritable (v : option float) : Prop :=
  match v with
  | Some x => writable x
  | None => True
  end.

(** A batch whose numbers are all finite and not the negative zero. *)
Definition allWritable (items : list TickerItem) : Prop :=
  Forall (fun item =>
            fieldWritable (currentPrice item)
            /\ fieldWritable (priceChange24h item)) items.

(** The EUR item is published as derived and stored as JSON writes it. *)
Definition eurPublishedAndCached (btcData : Coin.t) (s : Hook * World)
  : Prop :=
  itemOf "btc-eur" (tickerItems (fst s)) = Some (eurItem btcData)
  /\ exists c,
      cacheSlot (snd s) = Parsed c
      /\ itemOf "btc-eur" (Cached.items c) = Some (json_item (eurItem btcData)).

(** No item of id [key] in a stored record, in the store, in what other
    instances store. *)
Definition lacks (key : string) (c : Cached.t) : Prop :=
  itemOf key (Cached.items c) = None.

Definition cacheLacks (key : string) (w : World) : Prop :=
  forall c, cacheSlot w = Parsed c -> lacks key c.

Definition writersLack (key : string) (during : list Interference) : Prop :=
  forall c, In (OtherWriter c) during -> lacks key c.

(** The gold item as the earlier revision configures it. *)
Definition goldItemEarlier : TickerItem :=
  mkItem "btc-gold" "Gold (oz)" None None "oz".

(** ** Calls of the rate-limit check in a row *)

(** The rate-limit check run once more after each of the [gaps] (in
    milliseconds) has passed. *)
Fixpoint checksAfter (ceiling buffer : Z) (gaps : list Z) (w : World) : World :=
  match gaps with
  | [] => w
  | gap :: rest =>
      checksAfter ceiling buffer rest
        (snd (rateLimitCheck ceiling buffer (pass gap w)))
  end.

Definition total (gaps : list Z) : Z := fold_right Z.add 0 gaps.

(** The instruments asked for by the requests of a trace, oldest first. *)
Definition requestOf (e : Event) : list string :=
  match e with
  | Request ids => [ids]
  | _ => []
  end.

Definition requests (tr : list Event) : list string := flat_map requestOf tr.

(** Effects that issue no request. *)
Definition Silent {A} (m : Eff A) : Prop :=
  forall w,
    calls (snd (m w)) = calls w
    /\ requests (trace (snd (m w))) = requests (trace w).

(** The reply an attempt gets is the one the provider has for the next
    request. *)
Definition settle (reply : Reply) : Completion Response :=
  match outcome reply with
  | Resolved response => Return response
  | Rejected s m => Throw (AxiosError s m)
  end.

(** The next [n] requests are all rejected (a network error, a timeout, a
    status outside 2xx). *)
Definition rejectedFor (n : nat) (w : World) : Prop :=
  forall i, (i < n)%nat ->
    exists s m, outcome (net w (calls w + i)) = Rejected s m.

(** Every request resolves with status 429, which axios lets through only
    under a [validateStatus] that admits it. *)
Definition always429 (w : World) : Prop :=
  forall n,
    exists response,
      outcome (net w n) = Resolved response /\ status response = 429.

(** Whether the response lists an instrument of the given id. *)
Definition carries (key : string) (response : Response) : bool :=
  existsb (fun coin => String.eqb key (Coin.id coin)) (data response).

(** ** The callbacks across renders *)

(** A function value made by a render is known by the number of that render;
    what it reads from the state is what that render saw. [useCallback(fn,
    deps)] hands out the function it stored while the stored dependencies are
    the ones it is given, and stores [fn] otherwise. *)
Definition useCallback (cell : option (nat * list nat)) (fn : nat)
  (deps : list nat) : nat * option (nat * list nat) :=
  match cell with
  | Some (kept, keptDeps) =>
      if list_eq_dec Nat.eq_dec keptDeps deps
      then (kept, cell)
      else (fn, Some (fn, deps))
  | None => (fn, Some (fn, deps))
  end.

(** The three [useCallback] cells of [useBtcPrice]. *)
Record Memo := mkMemo {
  saveToCache_cell : option (nat * list nat);
  updateTickerItems_cell : option (nat * list nat);
  fetchBtcPrice_cell : option (nat * list nat)
}.

(** The [n]-th call of [useBtcPrice], as far as its callbacks go: [saveToCache]
    and [updateTickerItems] with no dependency, [fetchBtcPrice] depending on
    the two. The result is the [fetchBtcPrice] handed to the effect and to the
    component. *)
Definition render (n : nat) (m : Memo) : nat * Memo :=
  let (saveToCache, c1) := useCallback (saveToCache_cell m) n [] in
  let (updateTickerItems, c2) := useCallback (updateTickerItems_cell m) n [] in
  let (fetchBtcPrice, c3) :=
    useCallback (fetchBtcPrice_cell m) n [saveToCache; updateTickerItems] in
  (fetchBtcPrice, mkMemo c1 c2 c3).

(** The renders [0] to [n] in a row, from the mount. *)
Fixpoint renders (n : nat) : nat * Memo :=
  match n with
  | O => render O (mkMemo None None None)
  | S k => render (S k) (snd (renders k))
  end.

(** The state a render sees: [initialHook] at the mount, then whatever the
    setters made of it. *)
Definition stateAt (initialHook : Hook) (later : list Hook) (n : nat) : Hook :=
  nth n (initialHook :: later) initialHook.

(** What [isLoading] is inside the [fetchBtcPrice] that render [n] hands
    out. *)
Definition isLoading_inside (initialHook : Hook) (later : list Hook) (n : nat)
  : bool :=
  isLoading (stateAt initialHook later (fst (renders n))).

(** ** The price calculator *)

Module Calculator.

Inductive Currency := USD | EUR.

Definition Currency_eqb (a b : Currency) : bool :=
  match a, b with
  | USD, USD => true
  | EUR, EUR => true
  | _, _ => false
  end.

Definition eurToUsd : float := 1.09.
Definition usdToEur : float := (1 / eurToUsd)%float.

Definition convertCurrency (amount : float) (fromCurrency toCurrency : Currency)
  : float :=
  if Currency_eqb fromCurrency toCurrency then amount
  else if Currency_eqb fromCurrency USD && Currency_eqb toCurrency EUR
  then (amount * usdToEur)%float
  else if Currency_eqb fromCurrency EUR && Currency_eqb toCurrency USD
  then (amount * eurToUsd)%float
  else amount.

(** [Math.min] of two numbers. *)
Definition Math_min (a b : float) : float :=
  if is_nan a || is_nan b then nan
  else if (a <? b)%float then a
  else if (b <? a)%float then b
  else if is_zero a && get_sign a then a
  else b.

Record Result := mkResult {
  p1Sel : float;
  p2Sel : float;
  btc1 : float;
  btc2 : float;
  investmentDiff : float;
  priceDiff : float;
  percentDiff : float;
  betterDeal : Z
}.

(** [calculations], from the three numbers [parseFloat] gave for the input
    fields ([NaN] for a field that does not start with a number). *)
Definition calculations (p1 p2 investment : float) (currency : Currency)
  : option Result :=
  if negb (truthy p1) || negb (truthy p2) || negb (truthy investment)
  then None
  else
    let p1Sel :=
      if Currency_eqb currency USD then p1 else convertCurrency p1 EUR USD in
    let p2Sel :=
      if Currency_eqb currency USD then p2 else convertCurrency p2 EUR USD in
    let btc1 := (investment / p1Sel)%float in
    let btc2 := (investment / p2Sel)%float in
    let investmentValue1 := (btc1 * p2Sel)%float in
    let investmentValue2 := (btc2 * p2Sel)%float in
    let investmentDiff := (investmentValue1 - investmentValue2)%float in
    let priceDiff := abs (p1Sel - p2Sel)%float in
    let percentDiff :=
      ((abs (p1Sel - p2Sel) / Math_min p1Sel p2Sel) * 100)%float in
    Some (mkResult p1Sel p2Sel btc1 btc2 investmentDiff priceDiff percentDiff
            (if (0 <? investmentDiff)%float then 1 else 2)).

End Calculator.

(** ** Concrete inputs *)

Module Scenario.

Definition bitcoin : Coin.t := Coin.mk "bitcoin" 98000 1.2.
Definition ethereum : Coin.t := Coin.mk "ethereum" 19 0.5.
Definition paxGold : Coin.t := Coin.mk "pax-gold" 2650 0.1.

(** The provider answers with the three instruments. *)
Definition quotes : Reply :=
  mkReply 120 (Resolved (mkResponse 200 None [bitcoin; ethereum; paxGold])).

(** The request times out. *)
Definition offline : Reply :=
  mkReply 15000 (Rejected None "timeout of 15000ms exceeded").

(** The provider throttles. *)
Definition throttled : Reply :=
  mkReply 80 (Rejected (Some 429) "Request failed with status code 429").

Definition t0 : Z := 1700000000000.

Definition world (net : nat -> Reply) (rateLimit : Slot RateLimit)
  (cache : Slot Cached.t) : World :=
  mkWorld t0 rateLimit cache net 0 (fun _ => 0.5%float) 0 [].

(** A mounted hook whose callback sees [isLoading = false]. *)
Definition mounted (items : list TickerItem) : Hook :=
  mkHook items false None None true.

(** What a successful refresh of either revision stores for [quotes], up to
    the gold price. *)
Definition storedItems : list TickerItem :=
  updatedItems Current.goldPricePerOz bitcoin ethereum paxGold.

(** The counter at the ceiling of the current revision, 20 seconds into its
    window; the same for the earlier revision. *)
Definition full : RateLimit := mkRateLimit (t0 - 20000) 5.
Definition fullEarlier : RateLimit := mkRateLimit (t0 - 20000) 10.


(** The first request is throttled, every later one times out. *)
Definition throttledOnce (n : nat) : Reply :=
  match n with
  | O => throttled
  | S _ => offline
  end.

(** A reply that resolves with status 429 and asks for 7 seconds; only a
    non-default [validateStatus] lets axios resolve with it. *)
Definition resolved429 : Reply :=
  mkReply 80 (Resolved (mkResponse 429 (Some 7) [])).

Definition resolved429Once (n : nat) : Reply :=
  match n with
  | O => resolved429
  | S _ => quotes
  end.


(** Ether lost exactly 100 percent. *)
Definition ethereumWiped : Coin.t := Coin.mk "ethereum" 19 (-100).
Definition quotesWiped : Reply :=
  mkReply 120
    (Resolved (mkResponse 200 None [bitcoin; ethereumWiped; paxGold])).

Definition fresh : World := world (fun _ => quotes) Absent Absent.


(** A record stored [age] milliseconds before [t0]. *)
Definition storedAt (age : Z) : Cached.t := Cached.mk storedItems (t0 - age).

Definition withCache (age : Z) (net : nat -> Reply) : World :=
  world net Absent (Parsed (storedAt age)).

(** The first request times out, the provider answers from then on. *)
Definition offlineOnce (n : nat) : Reply :=
  match n with
  | O => offline
  | S _ => quotes
  end.

(** The provider knows gold under the id [gold] only: requests fail until
    the third one, which it answers. *)
Definition gold : Coin.t := Coin.mk "gold" 2640 0.2.

Definition goldQuotes : Reply :=
  mkReply 120 (Resolved (mkResponse 200 None [bitcoin; ethereum; gold])).

Definition paxGoldDown (n : nat) : Reply :=
  match n with
  | O => offline
  | S O => offline
  | S (S _) => goldQuotes
  end.

(** A reply without ether. *)
Definition noEther : Reply :=
  mkReply 120 (Resolved (mkResponse 200 None [bitcoin; paxGold])).

(** A response that lists bitcoin twice and gold under both ids. *)
Definition bitcoinLater : Coin.t := Coin.mk "bitcoin" 98500 1.3.

Definition repeated : Response :=
  mkResponse 200 None [bitcoin; gold; ethereum; paxGold; bitcoinLater].

(** The provider quotes bitcoin at [1e999], which [JSON.parse] reads as
    [Infinity]. *)
Definition bitcoinOverflow : Coin.t := Coin.mk "bitcoin" infinity 1.2.

Definition quotesOverflow : Reply :=
  mkReply 120
    (Resolved (mkResponse 200 None [bitcoinOverflow; ethereum; paxGold])).

(** The largest number below 1, [1 - 2^-53], which [Math.random()] may
    return. *)
Definition nearOne : float := 0x1.fffffffffffffp-1%float.

(** The provider is offline and every draw is [nearOne]. *)
Definition offlineNearOne : World :=
  mkWorld t0 Absent Absent (fun _ => offline) 0 (fun _ => nearOne) 0 [].

End Scenario.

(** * Verification *)

Ltac hook_simpl :=
  cbn [fst snd tickerItems isLoading error lastUpdated isMounted
       setIsLoading setLastUpdated setError updateTickerItems setTickerItems
       cleanup].

Ltac no_wait :=
  exists []; simpl; rewrite app_nil_r;
  split; [auto | split; [auto | split; [lia | intros ? ?; discriminate]]].

(** ** Merging by id *)

Lemma spread_updated (item updatedItem : TickerItem) :
  spread item updatedItem = updatedItem.
Proof. destruct updatedItem; reflexivity. Qed.

Lemma find_by_id (newItems : list TickerItem) (item u : TickerItem) :
  find (fun newItem => String.eqb (id newItem) (id item)) newItems = Some u ->
  In u newItems /\ id u = id item.
Proof.
  intros H. apply find_some in H. destruct H as [Hin Heq].
  split; [exact Hin | now apply String.eqb_eq].
Qed.

Lemma find_by_id_none (newItems : list TickerItem) (item : TickerItem) :
  (forall u, In u newItems -> id u <> id item) ->
  find (fun newItem => String.eqb (id newItem) (id item)) newItems = None.
Proof.
  intros H.
  destruct (find _ newItems) as [u|] eqn:E; [|reflexivity].
  apply find_by_id in E. destruct E as [Hin Heq]. now elim (H u Hin).
Qed.

Lemma mergeById_ids (newItems prevItems : list TickerItem) :
  map id (mergeById newItems prevItems) = map id prevItems.
Proof.
  unfold mergeById. rewrite map_map. apply map_ext. intros item.
  destruct (find _ newItems) as [u|] eqn:E; [|reflexivity].
  apply find_by_id in E. now destruct E.
Qed.

Lemma mergeById_nth (newItems prevItems : list TickerItem) (n : nat) :
  nth_error (mergeById newItems prevItems) n =
  option_map
    (fun item =>
       match find (fun newItem => String.eqb (id newItem) (id item)) newItems
       with
       | Some updatedItem => updatedItem
       | None => item
       end)
    (nth_error prevItems n).
Proof.
  unfold mergeById. rewrite nth_error_map.
  destruct (nth_error prevItems n) as [item|]; [|reflexivity]. simpl.
  destruct (find _ newItems); [now rewrite spread_updated | reflexivity].
Qed.

Lemma mergeById_keeps (newItems prevItems : list TickerItem) n item :
  nth_error prevItems n = Some item ->
  (forall u, In u newItems -> id u <> id item) ->
  nth_error (mergeById newItems prevItems) n = Some item.
Proof.
  intros Hn Habsent. rewrite mergeById_nth, Hn. simpl.
  now rewrite (find_by_id_none _ _ Habsent).
Qed.

Lemma mergeById_changes (newItems prevItems : list TickerItem) n item r :
  nth_error prevItems n = Some item ->
  nth_error (mergeById newItems prevItems) n = Some r ->
  r = item \/ (In r newItems /\ id r = id item).
Proof.
  intros Hn. rewrite mergeById_nth, Hn. simpl.
  destruct (find _ newItems) as [u|] eqn:E; intros [= <-].
  - right. now apply find_by_id.
  - now left.
Qed.

Lemma itemOf_merge_hit (key : string) (newItems prevItems : list TickerItem) u :
  itemOf key newItems = Some u ->
  In key (map id prevItems) ->
  itemOf key (mergeById newItems prevItems) = Some u.
Proof.
  unfold itemOf. intros Hu. induction prevItems as [|item rest IH]; simpl.
  - intros [].
  - intros Hin.
    destruct (String.eqb (id item) key) eqn:Eitem.
    + apply String.eqb_eq in Eitem. rewrite Eitem, Hu, spread_updated.
      apply find_some in Hu. destruct Hu as [_ Hk]. now rewrite Hk.
    + assert (Hrest : In key (map id rest)).
      { destruct Hin as [Hin|Hin]; [|exact Hin].
        rewrite Hin, String.eqb_refl in Eitem. discriminate. }
      destruct (find (fun newItem => String.eqb (id newItem) (id item)) newItems)
        as [v|] eqn:Ev.
      * apply find_by_id in Ev. destruct Ev as [_ Ev].
        rewrite spread_updated, Ev, Eitem. now apply IH.
      * rewrite Eitem. now apply IH.
Qed.

Lemma itemOf_merge_miss (key : string) (newItems prevItems : list TickerItem) :
  itemOf key newItems = None ->
  itemOf key (mergeById newItems prevItems) = itemOf key prevItems.
Proof.
  unfold itemOf. intros Hnone.
  induction prevItems as [|item rest IH]; simpl; [reflexivity|].
  destruct (String.eqb (id item) key) eqn:Eitem.
  - apply String.eqb_eq in Eitem. rewrite Eitem, Hnone, Eitem.
    now rewrite String.eqb_refl.
  - destruct (find (fun newItem => String.eqb (id newItem) (id item)) newItems)
        as [v|] eqn:Ev.
    + apply find_by_id in Ev. destruct Ev as [_ Ev].
      rewrite spread_updated, Ev, Eitem. exact IH.
    + rewrite Eitem. exact IH.
Qed.

Lemma find_unique_id (l : list TickerItem) :
  NoDup (map id l) ->
  forall n u,
    nth_error l n = Some u ->
    find (fun x => String.eqb (id x) (id u)) l = Some u.
Proof.
  induction l as [|a rest IH]; intros Hnd n u Hn.
  - destruct n; discriminate.
  - simpl in Hnd. apply NoDup_cons_iff in Hnd. destruct Hnd as [Hnotin Hnd].
    destruct n as [|n]; simpl in Hn.
    + injection Hn as <-. simpl. now rewrite String.eqb_refl.
    + simpl. destruct (String.eqb (id a) (id u)) eqn:Ea.
      * apply String.eqb_eq in Ea. elim Hnotin. rewrite Ea.
        apply in_map. eapply nth_error_In. exact Hn.
      * now apply (IH Hnd n).
Qed.

(** A batch with the ids of the published items, each once, replaces them. *)
Lemma mergeById_same_ids newItems prevItems :
  map id prevItems = map id newItems ->
  NoDup (map id newItems) ->
  mergeById newItems prevItems = newItems.
Proof.
  intros Hids Hnd. apply nth_error_ext. intros n.
  rewrite mergeById_nth.
  pose proof (f_equal (fun l => nth_error l n) Hids) as Hn. simpl in Hn.
  rewrite !nth_error_map in Hn.
  destruct (nth_error prevItems n) as [item|],
           (nth_error newItems n) as [u|] eqn:Hu; simpl in *;
    try discriminate; try reflexivity.
  injection Hn as Hid. rewrite Hid.
  now rewrite (find_unique_id newItems Hnd n u Hu).
Qed.

(** What [updateTickerItems] publishes, without reference to how it is
    computed. *)
Lemma mergeById_published newItems prevItems :
  publishedOver newItems prevItems (mergeById newItems prevItems).
Proof.
  split.
  - unfold mergeById. apply length_map.
  - intros n item Hn. now rewrite mergeById_nth, Hn.
Qed.

(** Writing a list as JSON keeps the ids. *)
Lemma itemOf_json (key : string) (l : list TickerItem) :
  itemOf key (map json_item l) = option_map json_item (itemOf key l).
Proof.
  unfold itemOf. induction l as [|item rest IH]; [reflexivity|].
  cbn [map find]. change (id (json_item item)) with (id item).
  now destruct (String.eqb (id item) key).
Qed.

Lemma json_item_ids (l : list TickerItem) : map id (map json_item l) = map id l.
Proof. rewrite map_map. reflexivity. Qed.

Lemma json_number_writable x : writable x -> json_number x = Some x.
Proof.
  intros (Hnan & Hinf & Hzero). unfold json_number. rewrite Hnan, Hinf.
  cbn [orb]. destruct (is_zero x) eqn:Ez; [|reflexivity].
  now rewrite (Hzero eq_refl).
Qed.

Lemma json_field_writable v : fieldWritable v -> json_field v = v.
Proof. destruct v as [x|]; [apply json_number_writable | reflexivity]. Qed.

Lemma json_number_null x :
  is_nan x = true \/ is_infinity x = true -> json_number x = None.
Proof.
  unfold json_number. intros [H|H]; rewrite H; [reflexivity|].
  now rewrite orb_true_r.
Qed.

(** A batch of finite numbers is read back as it was written. *)
Lemma json_items_writable items :
  allWritable items -> map json_item items = items.
Proof.
  induction 1 as [|item rest [Hp Hc] _ IH]; [reflexivity|].
  cbn [map]. rewrite IH. f_equal. destruct item as [i l p c sym].
  unfold json_item. cbn [id label currentPrice priceChange24h currencySymbol] in *.
  now rewrite (json_field_writable _ Hp), (json_field_writable _ Hc).
Qed.

(** ** What the other tasks leave alone *)

Lemma meanwhile_hook (during : list Interference) (s : Hook * World) :
  tickerItems (fst (meanwhile during s)) = tickerItems (fst s)
  /\ isLoading (fst (meanwhile during s)) = isLoading (fst s)
  /\ error (fst (meanwhile during s)) = error (fst s)
  /\ lastUpdated (fst (meanwhile during s)) = lastUpdated (fst s).
Proof.
  unfold meanwhile. revert s.
  induction during as [|i rest IH]; intros s; simpl; [tauto|].
  destruct (IH (interfere s i)) as (H1 & H2 & H3 & H4).
  rewrite H1, H2, H3, H4. destruct i; simpl; tauto.
Qed.

Lemma meanwhile_world (during : list Interference) (s : Hook * World) :
  clock (snd (meanwhile during s)) = clock (snd s)
  /\ calls (snd (meanwhile during s)) = calls (snd s)
  /\ trace (snd (meanwhile during s)) = trace (snd s)
  /\ rateLimitSlot (snd (meanwhile during s)) = rateLimitSlot (snd s).
Proof.
  unfold meanwhile. revert s.
  induction during as [|i rest IH]; intros s; simpl; [tauto|].
  destruct (IH (interfere s i)) as (H1 & H2 & H3 & H4).
  rewrite H1, H2, H3, H4. destruct i; simpl; tauto.
Qed.

Lemma meanwhile_unmounted (during : list Interference) (s : Hook * World) :
  isMounted (fst s) = false -> isMounted (fst (meanwhile during s)) = false.
Proof.
  unfold meanwhile. revert s.
  induction during as [|i rest IH]; intros s Hs; simpl; [exact Hs|].
  apply IH. destruct i; simpl; [reflexivity | exact Hs].
Qed.

Lemma meanwhile_cleanup (during : list Interference) (s : Hook * World) :
  In Cleanup during -> isMounted (fst (meanwhile during s)) = false.
Proof.
  unfold meanwhile. revert s.
  induction during as [|i rest IH]; intros s Hin; simpl; [destruct Hin|].
  destruct Hin as [->|Hin]; [|now apply IH].
  now apply (meanwhile_unmounted rest).
Qed.

(** ** The refresh, stage by stage *)

Section RefreshFacts.
Variable CACHE_DURATION : Z.
Variable FRESH_WINDOW : Z.
Variable goldOf : (string -> option Coin.t) -> option Coin.t.
Variable goldPricePerOz : float -> float.
Variable request : Eff Response.

Abbreviation cached := (getCachedData CACHE_DURATION).
Abbreviation refresh :=
  (fetchBtcPrice CACHE_DURATION FRESH_WINDOW goldOf goldPricePerOz request).
Abbreviation derived := (derive goldOf goldPricePerOz).
Abbreviation failure := (onFailure CACHE_DURATION).
Abbreviation run :=
  (cycles CACHE_DURATION FRESH_WINDOW goldOf goldPricePerOz request).
Abbreviation skips := (skips FRESH_WINDOW).

Lemma fetchBtcPrice_unmounted seen during h w :
  isMounted h = false -> refresh seen during (h, w) = (h, w).
Proof.
  intros Hm. unfold fetchBtcPrice.
  now rewrite Hm.
Qed.

Lemma fetchBtcPrice_loading during h w :
  refresh true during (h, w) = (h, w).
Proof.
  unfold fetchBtcPrice.
  now destruct (isMounted h).
Qed.

Lemma fetchBtcPrice_skips during h w c :
  isMounted h = true ->
  cached w = Some c ->
  clock w - Cached.lastUpdated c < FRESH_WINDOW ->
  refresh false during (h, w) = (showCached c h, w).
Proof.
  intros Hm Hc Hfresh. unfold fetchBtcPrice.
  rewrite Hm, Hc. simpl.
  apply Z.ltb_lt in Hfresh. rewrite Hfresh.
  unfold finally. simpl. now rewrite Hm.
Qed.

Lemma fetchBtcPrice_proceeds during h w :
  isMounted h = true ->
  skips (cached w) (clock w) = false ->
  refresh false during (h, w) =
  let (settled, w1) := (response <- request ;; derived response) w in
  let s3 := meanwhile during (atAwait (cached w) h, w1) in
  match settled with
  | Return updatedItems =>
      let s4 := onSuccess updatedItems s3 in (finally (fst s4), snd s4)
  | Throw _ => (finally (failure s3), snd s3)
  | Pending => s3
  end.
Proof.
  intros Hm Hskip. unfold fetchBtcPrice.
  rewrite Hm. simpl. unfold skips in Hskip.
  destruct (cached w) as [c|]; [rewrite Hskip|]; reflexivity.
Qed.

(** [derive] touches nothing. *)
Lemma derive_pure response w :
  derived response w = (fst (derived response w), w).
Proof.
  unfold derive.
  destruct (byId (data response) "bitcoin"), (byId (data response) "ethereum"),
    (goldOf (byId (data response))); reflexivity.
Qed.

Lemma finally_keeps h :
  tickerItems (finally h) = tickerItems h
  /\ error (finally h) = error h
  /\ lastUpdated (finally h) = lastUpdated h
  /\ isMounted (finally h) = isMounted h.
Proof. unfold finally. destruct (isMounted h) eqn:E; simpl; auto. Qed.

Lemma finally_items h : tickerItems (finally h) = tickerItems h.
Proof. apply finally_keeps. Qed.

Lemma failure_ids s :
  map id (tickerItems (failure s)) = map id (tickerItems (fst s)).
Proof.
  unfold onFailure. destruct (cached (snd s)); hook_simpl;
    [apply mergeById_ids | reflexivity].
Qed.

Lemma atAwait_ids cachedData h :
  map id (tickerItems (atAwait cachedData h)) = map id (tickerItems h).
Proof.
  unfold atAwait, showCached. destruct cachedData; hook_simpl;
    [apply mergeById_ids | reflexivity].
Qed.

Lemma fetchBtcPrice_ids seen during s :
  map id (tickerItems (fst (refresh seen during s))) =
  map id (tickerItems (fst s)).
Proof.
  destruct s as [h w].
  destruct (isMounted h) eqn:Hm;
    [|now rewrite fetchBtcPrice_unmounted].
  destruct seen; [now rewrite fetchBtcPrice_loading|].
  destruct (skips (cached w) (clock w)) eqn:Hskip.
  - unfold skips in Hskip. destruct (cached w) as [c|] eqn:Hc;
      [|discriminate].
    apply Z.ltb_lt in Hskip.
    rewrite (fetchBtcPrice_skips during h w c Hm Hc Hskip).
    unfold showCached. hook_simpl. apply mergeById_ids.
  - rewrite (fetchBtcPrice_proceeds during h w Hm Hskip).
    destruct ((response <- request ;; derived response) w) as [settled w1].
    cbv zeta.
    destruct (meanwhile_hook during (atAwait (cached w) h, w1))
      as (Hitems & _).
    destruct settled as [updatedItems|e|]; cbn [fst snd].
    + rewrite finally_items. unfold onSuccess. hook_simpl.
      rewrite mergeById_ids, Hitems. apply atAwait_ids.
    + rewrite finally_items, failure_ids, Hitems. apply atAwait_ids.
    + rewrite Hitems. apply atAwait_ids.
Qed.

Lemma cycles_ids cs s :
  map id (tickerItems (fst (run cs s))) = map id (tickerItems (fst s)).
Proof.
  unfold cycles. revert s.
  induction cs as [|c rest IH]; intros s; simpl; [reflexivity|].
  rewrite IH. unfold cycle. now rewrite fetchBtcPrice_ids.
Qed.

End RefreshFacts.

(** ** The set of published ids *)

(** C6: over any sequence of refresh cycles, whatever their outcome, the ids
    of the published items stay those of the configured items, in both
    revisions; a merge changes only items whose id occurs in the batch, keeps
    the others as they are, and neither adds nor removes an id. *)
Theorem published_ids_constant :
  (forall cs h w,
     map id (tickerItems (fst (Current.cycles cs (h, w)))) =
     map id (tickerItems h))
  /\ (forall cs w,
        map id (tickerItems (fst (Current.cycles cs (Current.initialHook, w))))
        = ["btc-usd"; "btc-eur"; "btc-eth"; "gold-usd"])
  /\ (forall fuel cs h w,
        map id (tickerItems (fst (Earlier.cycles fuel cs (h, w)))) =
        map id (tickerItems h))
  /\ (forall fuel cs w,
        map id
          (tickerItems (fst (Earlier.cycles fuel cs (Earlier.initialHook, w))))
        = ["btc-usd"; "btc-eur"; "btc-eth"; "btc-gold"])
  /\ (forall newItems prevItems,
        map id (mergeById newItems prevItems) = map id prevItems
        /\ forall n item,
            nth_error prevItems n = Some item ->
            ((forall u, In u newItems -> id u <> id item) ->
             nth_error (mergeById newItems prevItems) n = Some item)
            /\ (forall r,
                  nth_error (mergeById newItems prevItems) n = Some r ->
                  r = item \/ (In r newItems /\ id r = id item))).
Proof.
  split; [|split; [|split; [|split]]].
  - intros cs h w. apply (cycles_ids _ _ _ _ _ cs (h, w)).
  - intros cs w. unfold Current.cycles.
    now rewrite (cycles_ids _ _ _ _ _ cs (Current.initialHook, w)).
  - intros fuel cs h w. apply (cycles_ids _ _ _ _ _ cs (h, w)).
  - intros fuel cs w. unfold Earlier.cycles.
    now rewrite (cycles_ids _ _ _ _ _ cs (Earlier.initialHook, w)).
  - intros newItems prevItems. split; [apply mergeById_ids|].
    intros n item Hn. split.
    + now apply mergeById_keeps.
    + intros r. now apply mergeById_changes.
Qed.

(** The gold item of the earlier revision survives a merge of a fetched
    batch, which has no item of its id. *)
Lemma published_ids_constant_witness :
  nth_error Earlier.initialItems 3 =
  Some (mkItem "btc-gold" "Gold (oz)" None None "oz")
  /\ nth_error (mergeById Scenario.storedItems Earlier.initialItems) 3 =
     Some (mkItem "btc-gold" "Gold (oz)" None None "oz").
Proof.
  split; [reflexivity|].
  apply (proj2 (proj2 (proj2 (proj2 published_ids_constant)))
           Scenario.storedItems Earlier.initialItems).
  - reflexivity.
  - intros u Hin. simpl in Hin.
    repeat (destruct Hin as [<-|Hin]; [discriminate|]). destruct Hin.
Defined.

(** ** The effects of the fetcher only move forward *)

Create HintDb steady.

Lemma Extends_refl w : Extends w w.
Proof.
  constructor; try reflexivity; try lia; auto.
  exists []. now rewrite app_nil_r.
Qed.

Lemma Extends_trans w1 w2 w3 : Extends w1 w2 -> Extends w2 w3 -> Extends w1 w3.
Proof.
  intros [R1 N1 C1 K1 A1 D1 P1 [r1 T1]] [R2 N2 C2 K2 A2 D2 P2 [r2 T2]].
  constructor; try congruence; try lia; auto.
  exists (r1 ++ r2)%list. now rewrite T2, T1, app_assoc.
Qed.

Lemma Extends_elapse ms e w : Extends w (elapse ms e w).
Proof.
  constructor; simpl; try reflexivity; try lia; auto. now exists [e].
Qed.

Lemma Extends_set_rateLimit v w : Extends w (set_rateLimit v w).
Proof.
  constructor; simpl; try reflexivity; try lia; try discriminate.
  exists []. now rewrite app_nil_r.
Qed.

Lemma Steady_ret {A} (a : A) : Steady (ret a).
Proof. intros w. apply Extends_refl. Qed.

Lemma Steady_throw {A} e : Steady (@throw A e).
Proof. intros w. apply Extends_refl. Qed.

Lemma Steady_pending {A} : Steady (@pending A).
Proof. intros w. apply Extends_refl. Qed.

Lemma Steady_on_settle {A B} (m : Eff A) (ok : A -> Eff B) ko :
  Steady m -> (forall a, Steady (ok a)) -> (forall e, Steady (ko e)) ->
  Steady (on_settle m ok ko).
Proof.
  intros Hm Hok Hko w. unfold on_settle.
  specialize (Hm w). destruct (m w) as [[a|e|] w1]; simpl in Hm.
  - exact (Extends_trans _ _ _ Hm (Hok a w1)).
  - exact (Extends_trans _ _ _ Hm (Hko e w1)).
  - exact Hm.
Qed.

Lemma Steady_bind {A B} (m : Eff A) (k : A -> Eff B) :
  Steady m -> (forall a, Steady (k a)) -> Steady (bind m k).
Proof.
  intros Hm Hk. apply Steady_on_settle; auto using @Steady_throw.
Qed.

Lemma Steady_try_catch {A} (m : Eff A) handler :
  Steady m -> (forall e, Steady (handler e)) -> Steady (try_catch m handler).
Proof.
  intros Hm Hh. apply Steady_on_settle; auto using @Steady_ret.
Qed.

Lemma Steady_sleep site ms : Steady (sleep site ms).
Proof. intros w. apply Extends_elapse. Qed.

Lemma Steady_sleepFrac site ms : Steady (sleepFrac site ms).
Proof. intros w. apply Extends_elapse. Qed.

Lemma Steady_random : Steady Math_random.
Proof.
  intros w. constructor; simpl; try reflexivity; try lia; auto.
  exists []. now rewrite app_nil_r.
Qed.

Lemma Steady_axios ids : Steady (axios ids).
Proof.
  intros w. unfold axios.
  destruct (outcome (net w (calls w))); constructor; simpl;
    try reflexivity; try lia; auto; now exists [Request ids].
Qed.

Lemma Steady_setRateLimit t c : Steady (setRateLimit t c).
Proof. intros w. apply Extends_set_rateLimit. Qed.

Lemma Steady_setRateLimit_now c :
  Steady (fun w => setRateLimit (clock w) c w).
Proof. intros w. apply Extends_set_rateLimit. Qed.

#[local] Hint Resolve Steady_ret Steady_throw Steady_pending Steady_sleep
  Steady_sleepFrac Steady_random Steady_axios Steady_setRateLimit
  Steady_setRateLimit_now : steady.
#[local] Hint Extern 2 (Steady (bind _ _)) =>
  apply Steady_bind; [|intros ?] : steady.
#[local] Hint Extern 2 (Steady (try_catch _ _)) =>
  apply Steady_try_catch; [|intros ?] : steady.
#[local] Hint Extern 2 (Steady (on_settle _ _ _)) =>
  apply Steady_on_settle; [|intros ?|intros ?] : steady.

Lemma Steady_rateLimitCheck ceiling buffer :
  Steady (rateLimitCheck ceiling buffer).
Proof.
  intros w. unfold rateLimitCheck.
  destruct (rateLimitSlot w) as [| |rl].
  - apply Steady_setRateLimit.
  - apply Extends_refl.
  - destruct (clock w - timestamp rl >? RATE_LIMIT_WINDOW);
      [apply Steady_setRateLimit|].
    destruct (count rl >=? ceiling); [|apply Steady_setRateLimit].
    assert (H : Steady (sleep Admission
                          (timestamp rl + RATE_LIMIT_WINDOW - clock w + buffer) ;;
                        (fun w1 => setRateLimit (clock w1) 1 w1)))
      by auto with steady.
    apply H.
Qed.
#[local] Hint Resolve Steady_rateLimitCheck : steady.

Lemma Steady_attempt ids : Steady (Current.attempt ids).
Proof. unfold Current.attempt. auto with steady. Qed.

Lemma Steady_on429 error : Steady (Current.on429 error).
Proof. unfold Current.on429. destruct (is429 error); auto with steady. Qed.

Lemma Steady_backoffWait backoff : Steady (Current.backoffWait backoff).
Proof. unfold Current.backoffWait. auto with steady. Qed.
#[local] Hint Resolve Steady_attempt Steady_on429 Steady_backoffWait : steady.

Lemma Steady_fetchWithRetry ids retries :
  forall backoff, Steady (Current.fetchWithRetry ids retries backoff).
Proof.
  induction retries as [|n IH]; intros backoff; simpl; auto with steady.
Qed.
#[local] Hint Resolve Steady_fetchWithRetry : steady.

Lemma Steady_request : Steady Current.request.
Proof. unfold Current.request. auto with steady. Qed.

Lemma Steady_backoffWait_earlier backoff :
  Steady (Earlier.backoffWait backoff).
Proof. unfold Earlier.backoffWait. auto with steady. Qed.
#[local] Hint Resolve Steady_backoffWait_earlier : steady.

Lemma Steady_fetchWithRetry_earlier fuel ids :
  forall retries backoff,
    Steady (Earlier.fetchWithRetry fuel ids retries backoff).
Proof.
  induction fuel as [|n IH]; intros retries backoff; simpl;
    [auto with steady|].
  apply Steady_bind; [auto with steady|intros _].
  apply Steady_on_settle; [auto with steady| |].
  - intros response. destruct (status response =? 429); auto with steady.
  - intros error. destruct retries; auto with steady.
Qed.

Lemma on_settle_extends {A B} (m : Eff A) (ok : A -> Eff B) ko w :
  (forall a, Steady (ok a)) -> (forall e, Steady (ko e)) ->
  Extends (snd (m w)) (snd (on_settle m ok ko w)).
Proof.
  intros Hok Hko. unfold on_settle.
  destruct (m w) as [[a|e|] w1]; simpl.
  - apply Hok.
  - apply Hko.
  - apply Extends_refl.
Qed.

(** ** The rate-limit check *)

Section RateLimiterFacts.
Variable ceiling : Z.
Variable buffer : Z.
Hypothesis buffer_nonneg : 0 <= buffer.

(** At the ceiling inside an open window: one wait, then a fresh window. *)
Lemma rateLimitCheck_at_ceiling w rl :
  rateLimitSlot w = Parsed rl ->
  ceiling <= count rl ->
  clock w - timestamp rl <= RATE_LIMIT_WINDOW ->
  let timeToWait := timestamp rl + RATE_LIMIT_WINDOW - clock w in
  let w1 := elapse (timeToWait + buffer)
                   (Sleep Admission (timeToWait + buffer)) w in
  rateLimitCheck ceiling buffer w =
  (Return tt, set_rateLimit (mkRateLimit (clock w1) 1) w1)
  /\ clock w1 = clock w + (timeToWait + buffer).
Proof.
  intros Hslot Hcount Hopen timeToWait w1. unfold rateLimitCheck.
  rewrite Hslot.
  destruct (Z.gtb_spec (clock w - timestamp rl) RATE_LIMIT_WINDOW) as [Hgt|_];
    [lia|].
  destruct (Z.geb_spec (count rl) ceiling) as [_|Hlt]; [|lia].
  split; [reflexivity|].
  unfold w1, elapse. simpl. subst timeToWait. lia.
Qed.

End RateLimiterFacts.

(** C8: with the counter at the ceiling (5, or 10 in the earlier revision)
    inside an open window, the next call of the fetcher first suspends for at
    least the rest of the window, then stores a fresh window of count 1, and
    only then issues its request. *)
Theorem admission_waits_out_window :
  (forall ids retries backoff w rl,
      rateLimitSlot w = Parsed rl ->
      5 <= count rl ->
      clock w - timestamp rl <= RATE_LIMIT_WINDOW ->
      exists d w1 rest,
        timestamp rl + RATE_LIMIT_WINDOW - clock w <= d
        /\ rateLimitCheck 5 1000 w = (Return tt, w1)
        /\ clock w1 = clock w + d
        /\ rateLimitSlot w1 = Parsed (mkRateLimit (clock w1) 1)
        /\ trace (snd (Current.fetchWithRetry ids retries backoff w)) =
           (trace w ++ Sleep Admission d :: Sleep Pacing 500 :: Request ids
              :: rest)%list)
  /\ (forall fuel ids retries backoff w rl,
        rateLimitSlot w = Parsed rl ->
        10 <= count rl ->
        clock w - timestamp rl <= RATE_LIMIT_WINDOW ->
        exists d w1 rest,
          timestamp rl + RATE_LIMIT_WINDOW - clock w <= d
          /\ rateLimitCheck 10 0 w = (Return tt, w1)
          /\ clock w1 = clock w + d
          /\ rateLimitSlot w1 = Parsed (mkRateLimit (clock w1) 1)
          /\ trace (snd (Earlier.fetchWithRetry (S fuel) ids retries backoff w))
             = (trace w ++ Sleep Admission d :: Request ids :: rest)%list).
Proof.
  split.
  - intros ids retries backoff w rl Hslot Hcount Hopen.
    destruct (rateLimitCheck_at_ceiling 5 1000 ltac:(lia) w rl Hslot Hcount Hopen)
      as [Hrun Hclock].
    set (d := timestamp rl + RATE_LIMIT_WINDOW - clock w + 1000) in *.
    set (w0 := elapse d (Sleep Admission d) w) in *.
    set (w1 := set_rateLimit (mkRateLimit (clock w0) 1) w0) in *.
    assert (Hext : Extends (snd (Current.attempt ids w))
                     (snd (Current.fetchWithRetry ids retries backoff w))).
    { destruct retries; simpl; apply on_settle_extends;
        intros; auto with steady. }
    destruct Hext as [_ _ _ _ _ _ _ [rest Hrest]].
    exists d, w1, rest. repeat split; try (subst d; lia); auto.
    rewrite Hrest. unfold Current.attempt, bind, on_settle at 1.
    rewrite Hrun. unfold on_settle, sleep, axios.
    destruct (outcome _); simpl; rewrite <- !app_assoc; reflexivity.
  - intros fuel ids retries backoff w rl Hslot Hcount Hopen.
    destruct (rateLimitCheck_at_ceiling 10 0 ltac:(lia) w rl Hslot Hcount Hopen)
      as [Hrun Hclock].
    set (d := timestamp rl + RATE_LIMIT_WINDOW - clock w + 0) in *.
    set (w0 := elapse d (Sleep Admission d) w) in *.
    set (w1 := set_rateLimit (mkRateLimit (clock w0) 1) w0) in *.
    exists d, w1.
    assert (Hext : exists rest,
               trace (snd (Earlier.fetchWithRetry (S fuel) ids retries backoff w))
               = (trace (snd (axios ids w1)) ++ rest)%list).
    { simpl. unfold bind at 1, on_settle at 1. rewrite Hrun.
      eapply ext_trace, on_settle_extends.
      - intros response. destruct (status response =? 429);
          auto using Steady_fetchWithRetry_earlier with steady.
      - intros error. destruct retries;
          auto using Steady_fetchWithRetry_earlier with steady. }
    destruct Hext as [rest Hrest]. exists rest.
    repeat split; try (subst d; lia); auto.
    rewrite Hrest. unfold axios.
    destruct (outcome _); simpl; rewrite <- !app_assoc; reflexivity.
Qed.

Lemma admission_waits_out_window_witness :
  let w := Scenario.world (fun _ => Scenario.quotes)
             (Parsed Scenario.full) Absent in
  5 <= count Scenario.full
  /\ clock w - timestamp Scenario.full <= RATE_LIMIT_WINDOW
  /\ exists d w1 rest,
      timestamp Scenario.full + RATE_LIMIT_WINDOW - clock w <= d
      /\ rateLimitCheck 5 1000 w = (Return tt, w1)
      /\ clock w1 = clock w + d
      /\ rateLimitSlot w1 = Parsed (mkRateLimit (clock w1) 1)
      /\ trace (snd (Current.fetchWithRetry Current.PAX_GOLD 1 3000 w)) =
         (trace w ++ Sleep Admission d :: Sleep Pacing 500
            :: Request Current.PAX_GOLD :: rest)%list.
Proof.
  intros w.
  assert (Hcount : 5 <= count Scenario.full) by (vm_compute; discriminate).
  assert (Hopen : clock w - timestamp Scenario.full <= RATE_LIMIT_WINDOW)
    by (vm_compute; discriminate).
  split; [exact Hcount|]. split; [exact Hopen|].
  exact (proj1 admission_waits_out_window Current.PAX_GOLD 1%nat 3000 w
           Scenario.full eq_refl Hcount Hopen).
Defined.

(** ** Backoff waits in the trace *)

Lemma backoffWaits_app a b :
  backoffWaits (a ++ b) = (backoffWaits a ++ backoffWaits b)%list.
Proof. apply flat_map_app. Qed.

Lemma backoffFracWaits_app a b :
  backoffFracWaits (a ++ b) = (backoffFracWaits a ++ backoffFracWaits b)%list.
Proof. apply flat_map_app. Qed.

Lemma Quiet_ret {A} (a : A) : Quiet (ret a).
Proof. intros w. now split. Qed.

Lemma Quiet_throw {A} e : Quiet (@throw A e).
Proof. intros w. now split. Qed.

Lemma Quiet_on_settle {A B} (m : Eff A) (ok : A -> Eff B) ko :
  Quiet m -> (forall a, Quiet (ok a)) -> (forall e, Quiet (ko e)) ->
  Quiet (on_settle m ok ko).
Proof.
  intros Hm Hok Hko w. unfold on_settle.
  specialize (Hm w). destruct (m w) as [[a|e|] w1]; simpl in Hm.
  - destruct (Hok a w1) as [H1 H2]. destruct Hm as [H3 H4]. split; congruence.
  - destruct (Hko e w1) as [H1 H2]. destruct Hm as [H3 H4]. split; congruence.
  - exact Hm.
Qed.

Lemma Quiet_bind {A B} (m : Eff A) (k : A -> Eff B) :
  Quiet m -> (forall a, Quiet (k a)) -> Quiet (bind m k).
Proof. intros Hm Hk. apply Quiet_on_settle; auto using @Quiet_throw. Qed.

Lemma Quiet_sleep site ms : site <> Backoff -> Quiet (sleep site ms).
Proof.
  intros Hsite w. simpl.
  rewrite backoffWaits_app, backoffFracWaits_app. simpl.
  destruct site; try contradiction; now rewrite !app_nil_r.
Qed.

Lemma Quiet_axios ids : Quiet (axios ids).
Proof.
  intros w. unfold axios. destruct (outcome _); simpl;
    rewrite backoffWaits_app, backoffFracWaits_app; simpl;
    now rewrite !app_nil_r.
Qed.

Lemma Quiet_setRateLimit t c : Quiet (setRateLimit t c).
Proof. intros w. now split. Qed.

Lemma Quiet_setRateLimit_now c : Quiet (fun w => setRateLimit (clock w) c w).
Proof. intros w. now split. Qed.

Lemma Quiet_rateLimitCheck ceiling buffer :
  Quiet (rateLimitCheck ceiling buffer).
Proof.
  intros w. unfold rateLimitCheck.
  destruct (rateLimitSlot w) as [| |rl]; [now split | now split |].
  destruct (clock w - timestamp rl >? RATE_LIMIT_WINDOW); [now split|].
  destruct (count rl >=? ceiling); [|now split].
  apply (Quiet_bind (sleep Admission _)
           (fun _ w1 => setRateLimit (clock w1) 1 w1)).
  - now apply Quiet_sleep.
  - intros _. apply Quiet_setRateLimit_now.
Qed.

Lemma Quiet_attempt ids : Quiet (Current.attempt ids).
Proof.
  unfold Current.attempt.
  apply Quiet_bind; [apply Quiet_rateLimitCheck | intros _].
  apply Quiet_bind; [now apply Quiet_sleep | intros _; apply Quiet_axios].
Qed.

Lemma Quiet_on429 error : Quiet (Current.on429 error).
Proof.
  unfold Current.on429. destruct (is429 error); [|apply Quiet_ret].
  apply Quiet_bind; [now apply Quiet_sleep | intros _].
  apply Quiet_setRateLimit_now.
Qed.

Lemma on429_returns error w : fst (Current.on429 error w) = Return tt.
Proof. unfold Current.on429. now destruct (is429 error). Qed.

(** One step of [fetchWithRetry]. *)
Lemma fetchWithRetry_step ids retries backoff w :
  Current.fetchWithRetry ids retries backoff w =
  match Current.attempt ids w with
  | (Return response, w1) => (Return response, w1)
  | (Throw error, w1) =>
      let w2 := snd (Current.on429 error w1) in
      match retries with
      | O => (Throw error, w2)
      | S retries_1 =>
          Current.fetchWithRetry ids retries_1 (Z.min (backoff * 2) 30000)
            (snd (Current.backoffWait backoff w2))
      end
  | (Pending, w1) => (Pending, w1)
  end.
Proof.
  destruct retries; simpl; unfold try_catch, on_settle at 1;
    destruct (Current.attempt ids w) as [[response|error|] w1];
    try reflexivity;
    unfold bind, on_settle at 1;
    pose proof (on429_returns error w1) as H429;
    destruct (Current.on429 error w1) as [c w2]; simpl in H429; subst c;
    reflexivity.
Qed.

Lemma unitInterval_extends w w' :
  Extends w w' -> unitInterval w -> unitInterval w'.
Proof. intros Hext Hunit n. rewrite (ext_random _ _ Hext). apply Hunit. Qed.

(** The doubled and capped backoff is the closed form of the
    specification. *)
Lemma codeWaits_specWaits B jitters :
  forall k, (1 <= k)%nat ->
    codeWaits (Z.min (B * 2 ^ (Z.of_nat k - 1)) 30000) jitters =
    specWaits B 30000 k jitters.
Proof.
  induction jitters as [|j rest IH]; intros k Hk; simpl; [reflexivity|].
  f_equal. rewrite <- (IH (S k)) by lia. f_equal.
  replace (Z.of_nat (S k) - 1) with (Z.succ (Z.of_nat k - 1)) by lia.
  rewrite Z.pow_succ_r by lia.
  set (p := 2 ^ (Z.of_nat k - 1)).
  replace (B * (2 * p)) with (2 * (B * p)) by ring.
  lia.
Qed.

Lemma codeWaits_from_base B jitters :
  B <= 30000 -> codeWaits B jitters = specWaits B 30000 1 jitters.
Proof.
  intros HB. rewrite <- codeWaits_specWaits by lia.
  f_equal. simpl. lia.
Qed.

(** *** The earlier revision *)

Lemma codeFracWaits_specFracWaits B jitters :
  forall k, (1 <= k)%nat ->
    codeFracWaits (Z.min (B * 2 ^ (Z.of_nat k - 1)) 30000) jitters =
    specFracWaits B 30000 k jitters.
Proof.
  induction jitters as [|j rest IH]; intros k Hk; simpl; [reflexivity|].
  f_equal. rewrite <- (IH (S k)) by lia. f_equal.
  replace (Z.of_nat (S k) - 1) with (Z.succ (Z.of_nat k - 1)) by lia.
  rewrite Z.pow_succ_r by lia.
  set (p := 2 ^ (Z.of_nat k - 1)).
  replace (B * (2 * p)) with (2 * (B * p)) by ring.
  lia.
Qed.

Lemma codeFracWaits_from_base B jitters :
  B <= 30000 -> codeFracWaits B jitters = specFracWaits B 30000 1 jitters.
Proof.
  intros HB. rewrite <- codeFracWaits_specFracWaits by lia.
  f_equal. simpl. lia.
Qed.

Lemma rateLimitCheck_returns ceiling buffer w :
  rateLimitSlot w <> Unparsable ->
  fst (rateLimitCheck ceiling buffer w) = Return tt.
Proof.
  intros Hslot. unfold rateLimitCheck.
  destruct (rateLimitSlot w) as [| |rl]; [reflexivity | contradiction |].
  destruct (clock w - timestamp rl >? RATE_LIMIT_WINDOW); [reflexivity|].
  destruct (count rl >=? ceiling); reflexivity.
Qed.

Lemma backoffWait_earlier_returns backoff w :
  fst (Earlier.backoffWait backoff w) = Return tt.
Proof. reflexivity. Qed.

(** The [try] of the earlier revision: the rate-limit check stands before it,
    the request inside. *)
Lemma fetchWithRetry_earlier_step fuel ids retries backoff w :
  rateLimitSlot w <> Unparsable ->
  no429Resolved w ->
  Earlier.fetchWithRetry (S fuel) ids retries backoff w =
  let w0 := snd (rateLimitCheck 10 0 w) in
  match axios ids w0 with
  | (Return response, w1) => (Return response, w1)
  | (Throw error, w1) =>
      match retries with
      | S retries_1 =>
          Earlier.fetchWithRetry fuel ids retries_1 (Z.min (backoff * 2) 30000)
            (snd (Earlier.backoffWait backoff w1))
      | O => (Throw error, w1)
      end
  | (Pending, w1) => (Pending, w1)
  end.
Proof.
  intros Hslot Hno. simpl. unfold bind at 1, on_settle at 1.
  pose proof (rateLimitCheck_returns 10 0 w Hslot) as Hret.
  pose proof (Steady_rateLimitCheck 10 0 w) as Hext.
  destruct (rateLimitCheck 10 0 w) as [c w0]. simpl in Hret, Hext. subst c.
  cbv zeta. simpl snd. unfold on_settle at 1.
  assert (Hno0 : no429Resolved w0).
  { intros n r. rewrite (ext_net _ _ Hext). apply Hno. }
  unfold axios.
  destruct (outcome (net w0 (calls w0))) as [response|s m] eqn:Hout.
  - apply Hno0 in Hout. apply Z.eqb_neq in Hout. now rewrite Hout.
  - destruct retries; reflexivity.
Qed.

Lemma no429Resolved_extends w w' :
  Extends w w' -> no429Resolved w -> no429Resolved w'.
Proof. intros Hext Hno n r. rewrite (ext_net _ _ Hext). apply Hno. Qed.

Lemma axios_settles ids w : fst (axios ids w) <> Pending.
Proof. unfold axios. destruct (outcome _); discriminate. Qed.

Lemma on429_other error w : is429 error = false -> Current.on429 error w = (Return tt, w).
Proof. intros H. unfold Current.on429. now rewrite H. Qed.

Lemma unitInterval_half net rateLimit cache :
  unitInterval (Scenario.world net rateLimit cache).
Proof. intros n. split; vm_compute; reflexivity. Qed.

(** ** HTTP 429 *)

(** The world after the 429 branch of the current revision. *)
Lemma on429_throttled error w :
  is429 error = true ->
  let w1 := elapse 30000 (Sleep Cooldown 30000) w in
  Current.on429 error w =
  (Return tt, set_rateLimit (mkRateLimit (clock w1) 0) w1).
Proof. intros H. unfold Current.on429. now rewrite H. Qed.

(** C3 as stated fails on the current revision: with no retry left a single
    429 makes the fetch fail with that error, and with one retry left the 429
    uses it up, so that the time-out that follows ends the fetch after two
    requests. *)
Lemma throttling_consumes_retry :
  fst (Current.fetchWithRetry Current.PAX_GOLD 0 Current.BASE_BACKOFF
         (Scenario.world (fun _ => Scenario.throttled) Absent Absent))
  = Throw (AxiosError (Some 429) "Request failed with status code 429")
  /\ (let result :=
        Current.fetchWithRetry Current.PAX_GOLD 1 Current.BASE_BACKOFF
          (Scenario.world Scenario.throttledOnce Absent Absent) in
      fst result = Throw (AxiosError None "timeout of 15000ms exceeded")
      /\ calls (snd result) = 2%nat).
Proof. split; [|split]; reflexivity. Qed.

(** C3, amended: in the current revision an attempt that fails with a 429
    waits 30 seconds, then stores a counter of count 0 stamped with the time
    after the wait, and goes on as after any failure: without retries left the
    fetch fails with that error, with retries left it waits backoff plus
    jitter and calls itself with one retry less and the doubled, capped
    backoff. In the earlier revision a reply resolved with status 429 waits
    the [retry-after] seconds (5 by default) and calls the function again with
    the same retries and the doubled backoff, the counter being touched by the
    rate-limit checks only. *)
Theorem throttling_handling :
  (forall ids backoff w error w1,
      Current.attempt ids w = (Throw error, w1) ->
      is429 error = true ->
      let w2 := snd (Current.on429 error w1) in
      trace w2 = (trace w1 ++ [Sleep Cooldown 30000])%list
      /\ clock w2 = clock w1 + 30000
      /\ rateLimitSlot w2 = Parsed (mkRateLimit (clock w2) 0)
      /\ Current.fetchWithRetry ids 0 backoff w = (Throw error, w2)
      /\ forall retries_1,
          Current.fetchWithRetry ids (S retries_1) backoff w =
          Current.fetchWithRetry ids retries_1 (Z.min (backoff * 2) 30000)
            (snd (Current.backoffWait backoff w2)))
  /\ (forall fuel ids retries backoff w w0 response w1,
        rateLimitCheck 10 0 w = (Return tt, w0) ->
        axios ids w0 = (Return response, w1) ->
        status response = 429 ->
        let w2 := snd (sleep Cooldown (Earlier.retryAfter response) w1) in
        trace w2 =
        (trace w1 ++ [Sleep Cooldown (Earlier.retryAfter response)])%list
        /\ rateLimitSlot w2 = rateLimitSlot w0
        /\ Earlier.fetchWithRetry (S fuel) ids retries backoff w =
           Earlier.fetchWithRetry fuel ids retries (backoff * 2) w2).
Proof.
  split.
  - intros ids backoff w error w1 Hattempt H429 w2.
    assert (Hw2 : w2 = set_rateLimit
                         (mkRateLimit (clock w1 + Z.max 0 30000) 0)
                         (elapse 30000 (Sleep Cooldown 30000) w1)).
    { unfold w2. now rewrite (on429_throttled error w1 H429). }
    split; [now rewrite Hw2 | split; [now rewrite Hw2 |]].
    split; [now rewrite Hw2 |].
    split; [|intros retries_1]; rewrite fetchWithRetry_step, Hattempt;
      reflexivity.
  - intros fuel ids retries backoff w w0 response w1 Hcheck Haxios Hstatus w2.
    split; [reflexivity|]. split.
    + unfold w2. simpl.
      pose proof (f_equal snd Haxios) as Hsnd. unfold axios in Hsnd.
      destruct (outcome _); simpl in Hsnd; now subst w1.
    + simpl. unfold bind at 1, on_settle at 1. rewrite Hcheck.
      unfold on_settle at 1. rewrite Haxios.
      apply Z.eqb_eq in Hstatus. rewrite Hstatus. reflexivity.
Qed.

Lemma throttling_handling_witness :
  let w := Scenario.world (fun _ => Scenario.throttled) Absent Absent in
  let error := AxiosError (Some 429) "Request failed with status code 429" in
  let w1 := snd (Current.attempt Current.PAX_GOLD w) in
  let w2 := snd (Current.on429 error w1) in
  trace w2 = (trace w1 ++ [Sleep Cooldown 30000])%list
  /\ clock w2 = clock w1 + 30000
  /\ rateLimitSlot w2 = Parsed (mkRateLimit (clock w2) 0)
  /\ Current.fetchWithRetry Current.PAX_GOLD 0 3000 w = (Throw error, w2)
  /\ forall retries_1,
      Current.fetchWithRetry Current.PAX_GOLD (S retries_1) 3000 w =
      Current.fetchWithRetry Current.PAX_GOLD retries_1 (Z.min (3000 * 2) 30000)
        (snd (Current.backoffWait 3000 w2)).
Proof.
  intros w error w1.
  apply (proj1 throttling_handling Current.PAX_GOLD 3000 w error w1);
    reflexivity.
Defined.

(** ** The two ways a refresh that reaches the network can end *)

Section RefreshOutcomes.
Variable CACHE_DURATION : Z.
Variable FRESH_WINDOW : Z.
Variable goldOf : (string -> option Coin.t) -> option Coin.t.
Variable goldPricePerOz : float -> float.
Variable request : Eff Response.

Abbreviation cached := (getCachedData CACHE_DURATION).
Abbreviation refresh :=
  (fetchBtcPrice CACHE_DURATION FRESH_WINDOW goldOf goldPricePerOz request).
Abbreviation derived := (derive goldOf goldPricePerOz).
Abbreviation failure := (onFailure CACHE_DURATION).
Abbreviation skips := (skips FRESH_WINDOW).

Lemma derive_complete response btcData ethData goldData w :
  byId (data response) "bitcoin" = Some btcData ->
  byId (data response) "ethereum" = Some ethData ->
  goldOf (byId (data response)) = Some goldData ->
  derived response w =
  (Return (updatedItems goldPricePerOz btcData ethData goldData), w).
Proof. intros Hb He Hg. unfold derive. now rewrite Hb, He, Hg. Qed.

Lemma fetchBtcPrice_success during h w response w1 btcData ethData goldData :
  isMounted h = true ->
  skips (cached w) (clock w) = false ->
  request w = (Return response, w1) ->
  byId (data response) "bitcoin" = Some btcData ->
  byId (data response) "ethereum" = Some ethData ->
  goldOf (byId (data response)) = Some goldData ->
  let items := updatedItems goldPricePerOz btcData ethData goldData in
  let s3 := meanwhile during (atAwait (cached w) h, w1) in
  refresh false during (h, w) =
  (finally
     (setLastUpdated (Some (clock w1)) (updateTickerItems items (fst s3))),
   saveToCache items (snd s3)).
Proof.
  intros Hm Hskip Hreq Hb He Hg items s3.
  rewrite (fetchBtcPrice_proceeds _ _ _ _ _ during h w Hm Hskip).
  unfold bind, on_settle. rewrite Hreq.
  rewrite (derive_complete response btcData ethData goldData w1 Hb He Hg).
  cbv zeta. unfold onSuccess. fold s3. cbn [fst snd].
  destruct (meanwhile_world during (atAwait (cached w) h, w1)) as (Hclock & _).
  fold s3 in Hclock. now rewrite Hclock.
Qed.

Lemma fetchBtcPrice_failure during h w e w1 :
  isMounted h = true ->
  skips (cached w) (clock w) = false ->
  (response <- request ;; derived response) w = (Throw e, w1) ->
  let s3 := meanwhile during (atAwait (cached w) h, w1) in
  refresh false during (h, w) = (finally (failure s3), snd s3).
Proof.
  intros Hm Hskip Hreq s3.
  rewrite (fetchBtcPrice_proceeds _ _ _ _ _ during h w Hm Hskip).
  now rewrite Hreq.
Qed.

(** After a success every fetched item whose id is configured is the
    published item of that id, and the batch is the cached record. *)
Lemma success_publishes during h w response w1 btcData ethData goldData :
  isMounted h = true ->
  skips (cached w) (clock w) = false ->
  request w = (Return response, w1) ->
  byId (data response) "bitcoin" = Some btcData ->
  byId (data response) "ethereum" = Some ethData ->
  goldOf (byId (data response)) = Some goldData ->
  let items := updatedItems goldPricePerOz btcData ethData goldData in
  let result := refresh false during (h, w) in
  (forall key u,
      itemOf key items = Some u ->
      In key (map id (tickerItems h)) ->
      itemOf key (tickerItems (fst result)) = Some u)
  /\ (forall key,
        itemOf key items = None ->
        itemOf key (tickerItems (fst result)) =
        itemOf key (tickerItems (atAwait (cached w) h)))
  /\ lastUpdated (fst result) = Some (clock w1)
  /\ error (fst result) = None
  /\ cacheSlot (snd result) =
     Parsed (Cached.mk (map json_item items) (clock w1)).
Proof.
  intros Hm Hskip Hreq Hb He Hg items result. unfold result.
  rewrite (fetchBtcPrice_success during h w response w1 btcData ethData
             goldData Hm Hskip Hreq Hb He Hg).
  fold items. cbn [fst snd].
  set (s3 := meanwhile during (atAwait (cached w) h, w1)).
  destruct (meanwhile_hook during (atAwait (cached w) h, w1))
    as (Hitems & _ & Herror & _).
  destruct (meanwhile_world during (atAwait (cached w) h, w1)) as (Hclock & _).
  fold s3 in Hitems, Herror, Hclock. cbn [fst snd] in Hitems, Herror, Hclock.
  destruct (finally_keeps
              (setLastUpdated (Some (clock w1))
                 (updateTickerItems items (fst s3))))
    as (Hfi & Hfe & Hfl & _).
  rewrite Hfi, Hfe, Hfl. hook_simpl. rewrite Hitems.
  split; [|split; [|split; [|split]]].
  - intros key u Hu Hin. apply itemOf_merge_hit; [exact Hu|].
    now rewrite atAwait_ids.
  - intros key Hnone. now apply itemOf_merge_miss.
  - reflexivity.
  - rewrite Herror. unfold atAwait. reflexivity.
  - unfold saveToCache. simpl. now rewrite Hclock.
Qed.

End RefreshOutcomes.

(** ** Derived items *)

(** An infinity is truthy. *)
Lemma infinity_truthy x : is_infinity x = true -> truthy x = true.
Proof.
  unfold truthy, is_infinity, is_nan, is_zero.
  rewrite !FloatAxioms.eqb_spec, abs_spec.
  change (Prim2SF infinity) with (S754_infinity false).
  change (Prim2SF zero) with (S754_zero false).
  destruct (Prim2SF x) as [s|s| |s m e]; try destruct s; cbn;
    try discriminate; auto.
Qed.

Lemma js_or_cases x :
  (is_nan x = true -> js_or x 0 = 0%float)
  /\ (is_zero x = true -> js_or x 0 = 0%float)
  /\ (is_nan x = false -> is_zero x = false -> js_or x 0 = x)
  /\ (is_infinity x = true -> js_or x 0 = x).
Proof.
  unfold js_or. repeat split.
  - intros H. unfold truthy. now rewrite H.
  - intros H. unfold truthy. rewrite H. now rewrite orb_true_r.
  - intros H1 H2. unfold truthy. now rewrite H1, H2.
  - intros H. now rewrite (infinity_truthy x H).
Qed.

Section DerivedItems.
Variable CACHE_DURATION : Z.
Variable FRESH_WINDOW : Z.
Variable goldOf : (string -> option Coin.t) -> option Coin.t.
Variable goldPricePerOz : float -> float.
Variable request : Eff Response.

Abbreviation refresh :=
  (fetchBtcPrice CACHE_DURATION FRESH_WINDOW goldOf goldPricePerOz request).

Lemma ratio_after_success during h w response w1 btcData ethData goldData :
  isMounted h = true ->
  skips FRESH_WINDOW (getCachedData CACHE_DURATION w) (clock w) = false ->
  request w = (Return response, w1) ->
  byId (data response) "bitcoin" = Some btcData ->
  byId (data response) "ethereum" = Some ethData ->
  goldOf (byId (data response)) = Some goldData ->
  In "btc-eth" (map id (tickerItems h)) ->
  ratioPublished btcData ethData (fst (refresh false during (h, w))).
Proof.
  intros Hm Hskip Hreq Hb He Hg Hin.
  destruct (success_publishes CACHE_DURATION FRESH_WINDOW goldOf goldPricePerOz
              request during h w response w1 btcData ethData goldData
              Hm Hskip Hreq Hb He Hg) as (Hhit & _).
  exists (js_or (rawChange btcData ethData) 0).
  split; [exact (Hhit "btc-eth" _ eq_refl Hin) | apply js_or_cases].
Qed.

Lemma eur_after_success during h w response w1 btcData ethData goldData :
  isMounted h = true ->
  skips FRESH_WINDOW (getCachedData CACHE_DURATION w) (clock w) = false ->
  request w = (Return response, w1) ->
  byId (data response) "bitcoin" = Some btcData ->
  byId (data response) "ethereum" = Some ethData ->
  goldOf (byId (data response)) = Some goldData ->
  In "btc-eur" (map id (tickerItems h)) ->
  eurPublishedAndCached btcData (refresh false during (h, w)).
Proof.
  intros Hm Hskip Hreq Hb He Hg Hin.
  destruct (success_publishes CACHE_DURATION FRESH_WINDOW goldOf goldPricePerOz
              request during h w response w1 btcData ethData goldData
              Hm Hskip Hreq Hb He Hg) as (Hhit & _ & _ & _ & Hcache).
  split; [exact (Hhit "btc-eur" _ eq_refl Hin)|].
  eexists. split; [exact Hcache | reflexivity].
Qed.

End DerivedItems.

(** C4 as stated fails: when ether has lost exactly 100 percent and bitcoin
    gained 1.2, the computation gives an infinity, which is not finite, and
    the published change is that infinity, not 0. *)
Lemma infinite_change_published :
  let w := Scenario.world (fun _ => Scenario.quotesWiped) Absent Absent in
  let h := Scenario.mounted Current.initialItems in
  is_infinity (rawChange Scenario.bitcoin Scenario.ethereumWiped) = true
  /\ itemOf "btc-eth" (tickerItems (fst (Current.fetchBtcPrice false [] (h, w))))
     = Some (mkItem "btc-eth" "BTC/ETH" (Some (98000 / 19)%float)
               (Some infinity) "Ξ")
  /\ (infinity =? 0)%float = false.
Proof. intros w h. split; [|split]; vm_compute; reflexivity. Qed.

(** C4, amended: after a successful response the published ratio item has
    price [pB / pC] and change [(cB - cC) / (1 + cC / 100)], the change being
    replaced by 0 when the computation gives [NaN] or a zero; an infinite
    result is published as it is. For 98000, +1.2, 19, +0.5 the item is
    [98000 / 19] with [(1.2 - 0.5) / (1 + 0.5 / 100)]. *)
Theorem cross_ratio_published :
  (forall during h w response w1 btcData ethData goldData,
      isMounted h = true ->
      skips Current.CACHE_DURATION (Current.getCachedData w) (clock w) = false ->
      Current.request w = (Return response, w1) ->
      byId (data response) "bitcoin" = Some btcData ->
      byId (data response) "ethereum" = Some ethData ->
      Current.goldOf (byId (data response)) = Some goldData ->
      In "btc-eth" (map id (tickerItems h)) ->
      ratioPublished btcData ethData
        (fst (Current.fetchBtcPrice false during (h, w))))
  /\ (forall fuel during h w response w1 btcData ethData goldData,
        isMounted h = true ->
        skips Earlier.FRESH_WINDOW (Earlier.getCachedData w) (clock w) = false ->
        Earlier.request fuel w = (Return response, w1) ->
        byId (data response) "bitcoin" = Some btcData ->
        byId (data response) "ethereum" = Some ethData ->
        Earlier.goldOf (byId (data response)) = Some goldData ->
        In "btc-eth" (map id (tickerItems h)) ->
        ratioPublished btcData ethData
          (fst (Earlier.fetchBtcPrice fuel false during (h, w))))
  /\ itemOf "btc-eth"
       (tickerItems
          (fst (Current.fetchBtcPrice false []
                  (Scenario.mounted Current.initialItems, Scenario.fresh))))
     = Some (mkItem "btc-eth" "BTC/ETH" (Some (98000 / 19)%float)
               (Some ((1.2 - 0.5) / (1 + 0.5 / 100))%float) "Ξ").
Proof.
  split; [|split].
  - intros during h w response w1 btcData ethData goldData.
    apply ratio_after_success.
  - intros fuel during h w response w1 btcData ethData goldData.
    apply ratio_after_success.
  - reflexivity.
Qed.

Lemma cross_ratio_published_witness :
  ratioPublished Scenario.bitcoin Scenario.ethereum
    (fst (Current.fetchBtcPrice false []
            (Scenario.mounted Current.initialItems, Scenario.fresh))).
Proof.
  apply (proj1 cross_ratio_published [] (Scenario.mounted Current.initialItems)
           Scenario.fresh
           (mkResponse 200 None
              [Scenario.bitcoin; Scenario.ethereum; Scenario.paxGold])
           (snd (Current.request Scenario.fresh))
           Scenario.bitcoin Scenario.ethereum Scenario.paxGold).
  - reflexivity.
  - reflexivity.
  - reflexivity.
  - reflexivity.
  - reflexivity.
  - reflexivity.
  - simpl. tauto.
Defined.

(** C9 as stated fails for the cached item: the provider quotes bitcoin at
    [1e999]; the EUR item is published with the price [Infinity], which is
    0.9 times the fetched price, and stored with the price [null]. *)
Lemma eur_cached_as_null :
  let w := Scenario.world (fun _ => Scenario.quotesOverflow) Absent Absent in
  let result :=
    Current.fetchBtcPrice false [] (Scenario.mounted Current.initialItems, w) in
  itemOf "btc-eur" (tickerItems (fst result)) =
  Some (mkItem "btc-eur" "BTC/EUR" (Some (infinity * 0.9)%float)
          (Some 1.2%float) "€")
  /\ (infinity * 0.9 =? infinity)%float = true
  /\ exists c,
      cacheSlot (snd result) = Parsed c
      /\ itemOf "btc-eur" (Cached.items c) =
         Some (mkItem "btc-eur" "BTC/EUR" None (Some 1.2%float) "€").
Proof.
  intros w result. split; [reflexivity|split; [reflexivity|]].
  eexists. split; reflexivity.
Qed.

(** C9: after a successful fetch the published item of id btc-eur has 0.9
    times the fetched bitcoin price in USD, a constant of the code, and the
    bitcoin 24h change as fetched; the stored item of that id has the same
    two numbers as [JSON.stringify] writes them, that is unchanged when they
    are finite and not the negative zero, and [null] for [NaN] or an
    infinity; in both revisions. *)
Theorem eur_is_usd_times_constant :
  (forall during h w response w1 btcData ethData goldData,
      isMounted h = true ->
      skips Current.CACHE_DURATION (Current.getCachedData w) (clock w) = false ->
      Current.request w = (Return response, w1) ->
      byId (data response) "bitcoin" = Some btcData ->
      byId (data response) "ethereum" = Some ethData ->
      Current.goldOf (byId (data response)) = Some goldData ->
      In "btc-eur" (map id (tickerItems h)) ->
      eurPublishedAndCached btcData
        (Current.fetchBtcPrice false during (h, w)))
  /\ (forall fuel during h w response w1 btcData ethData goldData,
        isMounted h = true ->
        skips Earlier.FRESH_WINDOW (Earlier.getCachedData w) (clock w) = false ->
        Earlier.request fuel w = (Return response, w1) ->
        byId (data response) "bitcoin" = Some btcData ->
        byId (data response) "ethereum" = Some ethData ->
        Earlier.goldOf (byId (data response)) = Some goldData ->
        In "btc-eur" (map id (tickerItems h)) ->
        eurPublishedAndCached btcData
          (Earlier.fetchBtcPrice fuel false during (h, w)))
  /\ (forall btcData,
        writable (Coin.current_price btcData * 0.9)%float ->
        writable (Coin.price_change_percentage_24h btcData) ->
        json_item (eurItem btcData) = eurItem btcData)
  /\ (forall btcData,
        is_nan (Coin.current_price btcData * 0.9)%float = true
        \/ is_infinity (Coin.current_price btcData * 0.9)%float = true ->
        currentPrice (json_item (eurItem btcData)) = None).
Proof.
  split; [|split; [|split]].
  - intros during h w response w1 btcData ethData goldData.
    apply eur_after_success.
  - intros fuel during h w response w1 btcData ethData goldData.
    apply eur_after_success.
  - intros btcData Hprice Hchange. unfold json_item, eurItem.
    cbn [id label currentPrice priceChange24h currencySymbol json_field].
    now rewrite (json_number_writable _ Hprice),
      (json_number_writable _ Hchange).
  - intros btcData Hbad. unfold json_item, eurItem.
    cbn [currentPrice json_field]. unfold json_number.
    destruct Hbad as [H|H]; rewrite H; [reflexivity|].
    now rewrite orb_true_r.
Qed.

Lemma eur_is_usd_times_constant_witness :
  eurPublishedAndCached Scenario.bitcoin
    (Current.fetchBtcPrice false []
       (Scenario.mounted Current.initialItems, Scenario.fresh)).
Proof.
  apply (proj1 eur_is_usd_times_constant [] (Scenario.mounted Current.initialItems)
           Scenario.fresh
           (mkResponse 200 None
              [Scenario.bitcoin; Scenario.ethereum; Scenario.paxGold])
           (snd (Current.request Scenario.fresh))
           Scenario.bitcoin Scenario.ethereum Scenario.paxGold).
  - reflexivity.
  - reflexivity.
  - reflexivity.
  - reflexivity.
  - reflexivity.
  - reflexivity.
  - simpl. tauto.
Defined.

(** ** The freshness boundary *)

Section Freshness.
Variable CACHE_DURATION : Z.
Variable FRESH_WINDOW : Z.
Variable goldOf : (string -> option Coin.t) -> option Coin.t.
Variable goldPricePerOz : float -> float.
Variable request : Eff Response.
Hypothesis window_within_duration : FRESH_WINDOW <= CACHE_DURATION.

Abbreviation cached := (getCachedData CACHE_DURATION).
Abbreviation refresh :=
  (fetchBtcPrice CACHE_DURATION FRESH_WINDOW goldOf goldPricePerOz request).



(** A refresh that reaches the network leaves the request counter where its
    request left it. *)
Lemma proceeding_calls during h w :
  isMounted h = true ->
  skips FRESH_WINDOW (cached w) (clock w) = false ->
  calls (snd (refresh false during (h, w))) = calls (snd (request w)).
Proof.
  intros Hm Hskip.
  rewrite (fetchBtcPrice_proceeds _ _ _ _ _ during h w Hm Hskip).
  unfold bind, on_settle.
  destruct (request w) as [[response|e|] w1]; cbn [snd].
  - rewrite (derive_pure goldOf goldPricePerOz response w1).
    destruct (meanwhile_world during
                (atAwait (cached w) h, w1)) as (_ & Hcalls & _).
    destruct (fst (derive goldOf goldPricePerOz response w1));
      cbn [fst snd]; exact Hcalls.
  - unfold throw.
    destruct (meanwhile_world during
                (atAwait (cached w) h, w1)) as (_ & Hcalls & _).
    exact Hcalls.
  - destruct (meanwhile_world during
                (atAwait (cached w) h, w1)) as (_ & Hcalls & _).
    exact Hcalls.
Qed.

End Freshness.




(** What the head of [fetchBtcPrice] publishes of a record. *)
Lemma showCached_shows c h :
  publishedOver (Cached.items c) (tickerItems h) (tickerItems (showCached c h))
  /\ (map id (tickerItems h) = map id (Cached.items c) ->
      NoDup (map id (Cached.items c)) ->
      tickerItems (showCached c h) = Cached.items c)
  /\ lastUpdated (showCached c h) = Some (Cached.lastUpdated c)
  /\ isLoading (showCached c h) = false
  /\ error (showCached c h) = error h
  /\ isMounted (showCached c h) = isMounted h.
Proof.
  unfold showCached. hook_simpl. split; [apply mergeById_published|].
  split; [apply mergeById_same_ids|]. now repeat split.
Qed.




(** ** An id that no batch carries *)

Lemma meanwhile_cacheLacks key during s :
  cacheLacks key (snd s) ->
  writersLack key during ->
  cacheLacks key (snd (meanwhile during s)).
Proof.
  unfold meanwhile. revert s.
  induction during as [|i rest IH]; intros s Hs Hw; simpl; [exact Hs|].
  apply IH.
  - destruct i as [|c]; simpl; [exact Hs|].
    intros c' [= <-]. apply Hw. now left.
  - intros c Hin. apply Hw. now right.
Qed.

Section UntouchedId.
Variable CACHE_DURATION : Z.
Variable FRESH_WINDOW : Z.
Variable goldOf : (string -> option Coin.t) -> option Coin.t.
Variable goldPricePerOz : float -> float.
Variable request : Eff Response.
Variable key : string.
Hypothesis request_steady : Steady request.
Hypothesis key_not_fetched :
  forall btcData ethData goldData,
    itemOf key (updatedItems goldPricePerOz btcData ethData goldData) = None.

Abbreviation cached := (getCachedData CACHE_DURATION).
Abbreviation refresh :=
  (fetchBtcPrice CACHE_DURATION FRESH_WINDOW goldOf goldPricePerOz request).
Abbreviation run :=
  (cycles CACHE_DURATION FRESH_WINDOW goldOf goldPricePerOz request).

Lemma cached_lacks w c :
  cacheLacks key w -> cached w = Some c -> lacks key c.
Proof.
  intros Hw. unfold getCachedData.
  destruct (cacheSlot w) as [| |parsed] eqn:Hslot; try discriminate.
  destruct (_ <? _); [|discriminate].
  intros [= <-]. now apply Hw.
Qed.

Lemma derive_lacks response w items :
  fst (derive goldOf goldPricePerOz response w) = Return items ->
  itemOf key items = None.
Proof.
  unfold derive.
  destruct (byId (data response) "bitcoin"), (byId (data response) "ethereum"),
    (goldOf (byId (data response))); simpl; try discriminate.
  intros [= <-]. apply key_not_fetched.
Qed.

Lemma atAwait_item w h :
  cacheLacks key w ->
  itemOf key (tickerItems (atAwait (cached w) h)) = itemOf key (tickerItems h).
Proof.
  intros Hw. unfold atAwait, showCached.
  destruct (cached w) as [c|] eqn:Hc; hook_simpl; [|reflexivity].
  apply itemOf_merge_miss. exact (cached_lacks w c Hw Hc).
Qed.

Lemma fetchBtcPrice_untouched seen during h w :
  cacheLacks key w ->
  writersLack key during ->
  itemOf key (tickerItems (fst (refresh seen during (h, w)))) =
  itemOf key (tickerItems h)
  /\ cacheLacks key (snd (refresh seen during (h, w))).
Proof.
  intros Hw Hduring.
  destruct (isMounted h) eqn:Hm;
    [|now rewrite fetchBtcPrice_unmounted].
  destruct seen; [now rewrite fetchBtcPrice_loading|].
  destruct (skips FRESH_WINDOW (cached w) (clock w)) eqn:Hskip.
  - unfold skips in Hskip. destruct (cached w) as [c|] eqn:Hc;
      [|discriminate].
    apply Z.ltb_lt in Hskip.
    rewrite (fetchBtcPrice_skips _ _ _ _ _ during h w c Hm Hc Hskip).
    split; [|exact Hw].
    unfold showCached. hook_simpl.
    apply itemOf_merge_miss. exact (cached_lacks w c Hw Hc).
  - rewrite (fetchBtcPrice_proceeds _ _ _ _ _ during h w Hm Hskip).
    unfold bind, on_settle.
    pose proof (request_steady w) as Hext.
    destruct (request w) as [[response|e|] w1]; cbn [snd] in Hext.
    + rewrite (derive_pure goldOf goldPricePerOz response w1).
      pose proof (derive_lacks response w1) as Hitems.
      set (s3 := meanwhile during (atAwait (cached w) h, w1)).
      assert (Hc3 : cacheLacks key (snd s3)).
      { apply meanwhile_cacheLacks; [|exact Hduring].
        intros c Hc. apply Hw. now rewrite <- (ext_cache _ _ Hext). }
      destruct (meanwhile_hook during (atAwait (cached w) h, w1))
        as (H3 & _). fold s3 in H3. cbn [fst] in H3.
      destruct (fst (derive goldOf goldPricePerOz response w1))
        as [items|e|]; cbn [fst snd].
      * split.
        -- rewrite finally_items. unfold onSuccess. hook_simpl.
           rewrite itemOf_merge_miss by now apply Hitems.
           rewrite H3. now apply atAwait_item.
        -- unfold onSuccess, saveToCache. cbn [snd].
           intros c [= <-]. unfold lacks. simpl.
           assert (Hnone : itemOf key items = None) by now apply Hitems.
           now rewrite itemOf_json, Hnone.
      * split; [|exact Hc3].
        rewrite finally_items. unfold onFailure.
        destruct (cached (snd s3)) as [c|] eqn:Hc; hook_simpl.
        -- rewrite itemOf_merge_miss by exact (cached_lacks _ c Hc3 Hc).
           rewrite H3. now apply atAwait_item.
        -- rewrite H3. now apply atAwait_item.
      * split; [|exact Hc3]. rewrite H3. now apply atAwait_item.
    + unfold throw. cbv beta iota zeta.
      set (s3 := meanwhile during (atAwait (cached w) h, w1)).
      assert (Hc3 : cacheLacks key (snd s3)).
      { apply meanwhile_cacheLacks; [|exact Hduring].
        intros c Hc. apply Hw. now rewrite <- (ext_cache _ _ Hext). }
      destruct (meanwhile_hook during (atAwait (cached w) h, w1))
        as (H3 & _). fold s3 in H3. cbn [fst] in H3.
      cbn [fst snd]. split; [|exact Hc3].
      rewrite finally_items. unfold onFailure.
      destruct (cached (snd s3)) as [c|] eqn:Hc; hook_simpl.
      * rewrite itemOf_merge_miss by exact (cached_lacks _ c Hc3 Hc).
        rewrite H3. now apply atAwait_item.
      * rewrite H3. now apply atAwait_item.
    + cbn [fst snd]. set (s3 := meanwhile during (atAwait (cached w) h, w1)).
      destruct (meanwhile_hook during (atAwait (cached w) h, w1))
        as (H3 & _). fold s3 in H3. cbn [fst] in H3.
      split; [rewrite H3; now apply atAwait_item|].
      apply meanwhile_cacheLacks; [|exact Hduring].
      intros c Hc. apply Hw. now rewrite <- (ext_cache _ _ Hext).
Qed.

Lemma cycles_untouched cs :
  forall h w,
    cacheLacks key w ->
    Forall (fun c => writersLack key (during c)) cs ->
    itemOf key (tickerItems (fst (run cs (h, w)))) = itemOf key (tickerItems h)
    /\ cacheLacks key (snd (run cs (h, w))).
Proof.
  unfold cycles.
  induction cs as [|c rest IH]; intros h w Hw Hall; simpl; [now split|].
  inversion Hall as [|? ? Hc Hrest]; subst.
  change (cycle CACHE_DURATION FRESH_WINDOW goldOf goldPricePerOz request
            (h, w) c)
    with (refresh (isLoading_seen c) (during c) (h, pass (idle c) w)).
  destruct (fetchBtcPrice_untouched (isLoading_seen c) (during c) h
              (pass (idle c) w) Hw Hc) as [Hitem Hcache].
  destruct (refresh (isLoading_seen c) (during c) (h, pass (idle c) w))
    as [h' w'].
  cbn [fst snd] in Hitem, Hcache.
  destruct (IH h' w' Hcache Hrest) as [Hitem' Hcache'].
  split; [now rewrite Hitem' | exact Hcache'].
Qed.

End UntouchedId.

(** C10: the earlier revision configures the gold item under the id btc-gold
    and fetches the gold quote under the id gold-usd. As long as no stored
    record has an item of id btc-gold (no revision writes one), the published
    item of id btc-gold keeps its null price and null change over any
    sequence of refresh cycles, and in particular after a refresh that
    succeeded and cached its batch. *)
Theorem gold_never_updated :
  itemOf "btc-gold" Earlier.initialItems = Some goldItemEarlier
  /\ (forall btcData ethData goldData,
        map id (updatedItems Earlier.goldPricePerOz btcData ethData goldData)
        = ["btc-usd"; "btc-eur"; "btc-eth"; "gold-usd"])
  /\ (forall fuel cs h w,
        itemOf "btc-gold" (tickerItems h) = Some goldItemEarlier ->
        cacheLacks "btc-gold" w ->
        Forall (fun c => writersLack "btc-gold" (during c)) cs ->
        itemOf "btc-gold" (tickerItems (fst (Earlier.cycles fuel cs (h, w))))
        = Some goldItemEarlier)
  /\ (forall fuel during h w response w1 btcData ethData goldData,
        isMounted h = true ->
        skips Earlier.FRESH_WINDOW (Earlier.getCachedData w) (clock w) = false ->
        Earlier.request fuel w = (Return response, w1) ->
        byId (data response) "bitcoin" = Some btcData ->
        byId (data response) "ethereum" = Some ethData ->
        Earlier.goldOf (byId (data response)) = Some goldData ->
        itemOf "btc-gold" (tickerItems h) = Some goldItemEarlier ->
        cacheLacks "btc-gold" w ->
        let result := Earlier.fetchBtcPrice fuel false during (h, w) in
        itemOf "btc-gold" (tickerItems (fst result)) = Some goldItemEarlier
        /\ cacheSlot (snd result) =
           Parsed (Cached.mk
                     (map json_item
                        (updatedItems Earlier.goldPricePerOz btcData ethData
                           goldData))
                     (clock w1))).
Proof.
  split; [reflexivity|]. split; [reflexivity|]. split.
  - intros fuel cs h w Hitem Hcache Hwriters.
    rewrite <- Hitem. unfold Earlier.cycles.
    assert (Hsteady : Steady (Earlier.request fuel))
      by apply Steady_fetchWithRetry_earlier.
    apply (cycles_untouched Earlier.CACHE_DURATION Earlier.FRESH_WINDOW
             Earlier.goldOf Earlier.goldPricePerOz (Earlier.request fuel)
             "btc-gold" Hsteady (fun _ _ _ => eq_refl) cs h w Hcache Hwriters).
  - intros fuel during h w response w1 btcData ethData goldData
           Hm Hskip Hreq Hb He Hg Hitem Hcache result.
    destruct (success_publishes Earlier.CACHE_DURATION Earlier.FRESH_WINDOW
                Earlier.goldOf Earlier.goldPricePerOz (Earlier.request fuel)
                during h w response w1 btcData ethData goldData
                Hm Hskip Hreq Hb He Hg) as (_ & Hmiss & _ & _ & Hsaved).
    split; [|exact Hsaved].
    unfold result, Earlier.fetchBtcPrice.
    rewrite (Hmiss "btc-gold" eq_refl).
    unfold atAwait, showCached.
    destruct (getCachedData Earlier.CACHE_DURATION w) as [c|] eqn:Hc;
      hook_simpl; [|exact Hitem].
    rewrite itemOf_merge_miss; [exact Hitem|].
    unfold getCachedData in Hc.
    destruct (cacheSlot w) as [| |parsed] eqn:Hslot; try discriminate.
    destruct (_ <? _); [|discriminate].
    injection Hc as <-. now apply Hcache.
Qed.

Lemma gold_never_updated_witness :
  itemOf "btc-gold"
    (tickerItems
       (fst (Earlier.cycles 3 [mkCycle 0 false []; mkCycle 120000 false []]
               (Scenario.mounted Earlier.initialItems, Scenario.fresh))))
  = Some goldItemEarlier
  /\ itemOf "btc-usd"
       (tickerItems
          (fst (Earlier.cycles 3 [mkCycle 0 false []; mkCycle 120000 false []]
                  (Scenario.mounted Earlier.initialItems, Scenario.fresh))))
     = Some (mkItem "btc-usd" "BTC/USD" (Some 98000%float) (Some 1.2%float) "$").
Proof.
  split; [|reflexivity].
  apply (proj1 (proj2 (proj2 gold_never_updated))).
  - reflexivity.
  - intros c Hc. discriminate Hc.
  - repeat constructor; intros c [].
Defined.

(** ** A refresh that fails *)

Lemma meanwhile_cache during s :
  (forall c, ~ In (OtherWriter c) during) ->
  cacheSlot (snd (meanwhile during s)) = cacheSlot (snd s).
Proof.
  unfold meanwhile. revert s.
  induction during as [|i rest IH]; intros s Hnone; simpl; [reflexivity|].
  rewrite IH by (intros c Hin; apply (Hnone c); now right).
  destruct i as [|c]; simpl; [reflexivity|].
  elim (Hnone c). now left.
Qed.

(** In the current revision the refresh goes on to its request only when
    [getCachedData] gave nothing. *)
Lemma current_proceeds_uncached w :
  skips Current.CACHE_DURATION (Current.getCachedData w) (clock w) = false <->
  Current.getCachedData w = None.
Proof.
  unfold skips, Current.getCachedData, getCachedData.
  destruct (cacheSlot w) as [| |parsed]; try tauto.
  destruct (clock w - Cached.lastUpdated parsed <? Current.CACHE_DURATION)
    eqn:Hage; [rewrite Hage|]; split; try discriminate; reflexivity.
Qed.

(** Time does not make a record fresh. *)
Lemma getCachedData_stays_none w w' :
  Extends w w' ->
  Current.getCachedData w = None -> Current.getCachedData w' = None.
Proof.
  intros Hext. unfold Current.getCachedData, getCachedData.
  rewrite (ext_cache _ _ Hext).
  destruct (cacheSlot w) as [| |parsed]; try reflexivity.
  pose proof (ext_clock _ _ Hext).
  destruct (Z.ltb_spec (clock w - Cached.lastUpdated parsed)
              Current.CACHE_DURATION); [discriminate|].
  destruct (Z.ltb_spec (clock w' - Cached.lastUpdated parsed)
              Current.CACHE_DURATION); [lia | reflexivity].
Qed.

Lemma derived_request_steady goldOf goldPricePerOz (request : Eff Response) :
  Steady request ->
  Steady (response <- request ;; derive goldOf goldPricePerOz response).
Proof.
  intros Hreq. apply Steady_bind; [exact Hreq|].
  intros response w. rewrite derive_pure. apply Extends_refl.
Qed.

(** C1 fails on the code, by the age test of [getCachedData]: the store
    holds the record of an earlier successful fetch, ten minutes old; a newly
    mounted hook refreshes, the provider does not answer; the error message
    is published, the record is not, and the published prices are all
    null. *)
Theorem stale_cache_not_republished :
  let w := Scenario.withCache 600000 (fun _ => Scenario.offline) in
  let h := Scenario.mounted Current.initialItems in
  let result := Current.fetchBtcPrice false [] (h, w) in
  cacheSlot (snd result) = Parsed (Scenario.storedAt 600000)
  /\ map currentPrice (Cached.items (Scenario.storedAt 600000)) =
     [Some 98000%float; Some 88200%float; Some (98000 / 19)%float;
      Some 2650%float]
  /\ error (fst result) = Some FETCH_FAILED
  /\ map currentPrice (tickerItems (fst result)) = [None; None; None; None]
  /\ lastUpdated (fst result) = None.
Proof. intros w h result. repeat (split; [reflexivity|]). reflexivity. Qed.

Lemma onFailure_cases CACHE_DURATION (s : Hook * World) :
  error (onFailure CACHE_DURATION s) = Some FETCH_FAILED
  /\ match getCachedData CACHE_DURATION (snd s) with
     | Some c =>
         tickerItems (onFailure CACHE_DURATION s) =
         mergeById (Cached.items c) (tickerItems (fst s))
         /\ lastUpdated (onFailure CACHE_DURATION s) =
            Some (Cached.lastUpdated c)
     | None =>
         tickerItems (onFailure CACHE_DURATION s) = tickerItems (fst s)
         /\ lastUpdated (onFailure CACHE_DURATION s) = lastUpdated (fst s)
     end.
Proof.
  unfold onFailure.
  destruct (getCachedData CACHE_DURATION (snd s)); hook_simpl; auto.
Qed.

Lemma getCachedData_cases CACHE_DURATION w :
  match getCachedData CACHE_DURATION w with
  | Some c =>
      cacheSlot w = Parsed c /\ clock w - Cached.lastUpdated c < CACHE_DURATION
  | None =>
      cacheSlot w = Absent \/ cacheSlot w = Unparsable
      \/ exists c, cacheSlot w = Parsed c
                   /\ CACHE_DURATION <= clock w - Cached.lastUpdated c
  end.
Proof.
  unfold getCachedData. destruct (cacheSlot w) as [| |parsed]; auto.
  destruct (Z.ltb_spec (clock w - Cached.lastUpdated parsed) CACHE_DURATION).
  - now split.
  - right. right. now exists parsed.
Qed.

(** X22: what the [catch] block does in general: a refresh of the current
    revision that ends in a fetch failure publishes the error message; it
    publishes the stored record (its items merged by id, its timestamp) only
    if at that moment the store holds a readable record younger than
    [CACHE_DURATION]; with no record, an unreadable one or an older one the
    published items and timestamp stay what they were before the refresh.
    As the request is reached only when [getCachedData] gave nothing, they
    always stay unless another instance stored a record meanwhile. *)
Theorem failure_fallback :
  forall during h w e w1,
    isMounted h = true ->
    Current.getCachedData w = None ->
    (response <- Current.request ;;
     derive Current.goldOf Current.goldPricePerOz response) w = (Throw e, w1) ->
    let result := Current.fetchBtcPrice false during (h, w) in
    let store := cacheSlot (snd result) in
    error (fst result) = Some FETCH_FAILED
    /\ (forall c,
          store = Parsed c ->
          clock w1 - Cached.lastUpdated c < Current.CACHE_DURATION ->
          tickerItems (fst result) =
          mergeById (Cached.items c) (tickerItems h)
          /\ lastUpdated (fst result) = Some (Cached.lastUpdated c))
    /\ (store = Absent \/ store = Unparsable
        \/ (exists c, store = Parsed c
                      /\ Current.CACHE_DURATION <=
                         clock w1 - Cached.lastUpdated c) ->
        tickerItems (fst result) = tickerItems h
        /\ lastUpdated (fst result) = lastUpdated h)
    /\ ((forall c, ~ In (OtherWriter c) during) ->
        tickerItems (fst result) = tickerItems h
        /\ lastUpdated (fst result) = lastUpdated h).
Proof.
  intros during h w e w1 Hm Hnone Hfail result store.
  assert (Hskip : skips Current.CACHE_DURATION (Current.getCachedData w)
                    (clock w) = false)
    by now apply current_proceeds_uncached.
  unfold store, result, Current.fetchBtcPrice.
  rewrite (fetchBtcPrice_failure _ _ _ _ _ during h w e w1 Hm Hskip Hfail).
  fold (Current.getCachedData w). rewrite Hnone.
  set (s3 := meanwhile during (atAwait None h, w1)).
  destruct (meanwhile_hook during (atAwait None h, w1))
    as (Hitems & _ & _ & Hlast).
  destruct (meanwhile_world during (atAwait None h, w1)) as (Hclock & _).
  fold s3 in Hitems, Hlast, Hclock. cbn [fst snd] in Hitems, Hlast, Hclock.
  change (tickerItems (atAwait None h)) with (tickerItems h) in Hitems.
  change (lastUpdated (atAwait None h)) with (lastUpdated h) in Hlast.
  destruct (finally_keeps (onFailure Current.CACHE_DURATION s3))
    as (Hfi & Hfe & Hfl & _).
  cbn [fst snd]. rewrite Hfi, Hfe, Hfl.
  destruct (onFailure_cases Current.CACHE_DURATION s3) as [Herr Hcases].
  pose proof (getCachedData_cases Current.CACHE_DURATION (snd s3)) as Hread.
  rewrite Hclock in Hread.
  split; [exact Herr|].
  destruct (getCachedData Current.CACHE_DURATION (snd s3)) as [c|] eqn:Hc.
  - destruct Hread as [Hslot Hage]. destruct Hcases as [Hci Hcl].
    rewrite Hitems in Hci. split; [|split].
    + intros c' Hslot' _. rewrite Hslot in Hslot'. injection Hslot' as <-.
      now split.
    + intros [Habs|[Hunp|(c' & Hslot' & Hage')]]; try congruence.
      rewrite Hslot in Hslot'. injection Hslot' as <-. lia.
    + intros Hquiet. exfalso.
      assert (Hext : Extends w w1).
      { pose proof (derived_request_steady Current.goldOf
                      Current.goldPricePerOz Current.request
                      Steady_request w) as H.
        now rewrite Hfail in H. }
      pose proof (getCachedData_stays_none w w1 Hext Hnone) as Hw1.
      unfold Current.getCachedData, getCachedData in Hw1.
      unfold s3 in Hslot.
      rewrite (meanwhile_cache during (atAwait None h, w1) Hquiet) in Hslot.
      cbn [snd] in Hslot. rewrite Hslot in Hw1.
      destruct (Z.ltb_spec (clock w1 - Cached.lastUpdated c)
                  Current.CACHE_DURATION); [discriminate | lia].
  - destruct Hcases as [Hci Hcl]. rewrite Hitems in Hci. rewrite Hlast in Hcl.
    split; [|split; [intros _; now split | intros _; now split]].
    intros c Hslot Hage.
    destruct Hread as [Habs|[Hunp|(c' & Hslot' & Hage')]]; try congruence.
    rewrite Hslot in Hslot'. injection Hslot' as <-. lia.
Qed.

Lemma failure_fallback_witness :
  let w := Scenario.withCache 600000 (fun _ => Scenario.offline) in
  let h := Scenario.mounted Current.initialItems in
  let result := Current.fetchBtcPrice false [] (h, w) in
  error (fst result) = Some FETCH_FAILED
  /\ tickerItems (fst result) = tickerItems h
  /\ lastUpdated (fst result) = lastUpdated h.
Proof.
  intros w h result.
  assert (Hm : isMounted h = true) by reflexivity.
  assert (Hnone : Current.getCachedData w = None) by (vm_compute; reflexivity).
  assert (Hfail :
            (response <- Current.request ;;
             derive Current.goldOf Current.goldPricePerOz response) w =
            (Throw (AxiosError None "timeout of 15000ms exceeded"),
             snd (Current.request w))) by (vm_compute; reflexivity).
  destruct (failure_fallback [] h w _ _ Hm Hnone Hfail)
    as (Herr & _ & _ & Hquiet).
  split; [exact Herr|]. apply Hquiet. intros c [].
Defined.

(** The fallback at work: the provider does not answer, and while the
    refresh is waiting another instance stores a record. *)
Example other_writer_republished :
  let w := Scenario.world (fun _ => Scenario.offline) Absent Absent in
  let h := Scenario.mounted Current.initialItems in
  let record := Cached.mk Scenario.storedItems (Scenario.t0 + 30000) in
  let result := Current.fetchBtcPrice false [OtherWriter record] (h, w) in
  error (fst result) = Some FETCH_FAILED
  /\ tickerItems (fst result) = Scenario.storedItems
  /\ lastUpdated (fst result) = Some (Scenario.t0 + 30000).
Proof.
  intros w h record result. split; [|split]; vm_compute; reflexivity.
Qed.

(** A record found in the store after the request was there before it or
    was stored by another instance meanwhile. *)
Lemma meanwhile_cache_source during s c :
  cacheSlot (snd (meanwhile during s)) = Parsed c ->
  cacheSlot (snd s) = Parsed c \/ In (OtherWriter c) during.
Proof.
  unfold meanwhile. revert s.
  induction during as [|i rest IH]; intros s Hc; simpl in *; [now left|].
  destruct (IH (interfere s i) Hc) as [Hs|Hin]; [|now right; right].
  destruct i as [|c']; simpl in Hs; [now left|].
  injection Hs as ->. right. now left.
Qed.

(** C1: a refresh of the current revision that gets past its guards makes a
    request, and so can end in a fetch failure, only when [getCachedData]
    gave nothing: with a readable record younger than [CACHE_DURATION] in the
    store it returns with the world and the error as they were. When it does
    end in a fetch failure it publishes the error message and, if the hook
    is still mounted, ends with loading off. It publishes a stored record only if at
    that moment the store holds a readable record younger than
    [CACHE_DURATION]: then each place of the display gets the first item of
    the record with the id of the item that was there (the record's items
    themselves when they have the ids of the display, each once) and the
    timestamp is the record's; such a record was stored by another instance
    during the request. With no record, an unreadable one or one that is
    [CACHE_DURATION] old or older, the published items and timestamp stay
    what they were before the refresh. A record that was in the store when
    the refresh began was [CACHE_DURATION] old or older already, so unless
    another instance writes meanwhile it is still the stored record at the
    end and is not published. *)
Theorem failure_republishes_young_record_only :
  (forall during h w c,
      isMounted h = true ->
      Current.getCachedData w = Some c ->
      let result := Current.fetchBtcPrice false during (h, w) in
      snd result = w /\ error (fst result) = error h)
  /\ (forall during h w e w1,
        isMounted h = true ->
        Current.getCachedData w = None ->
        (response <- Current.request ;;
         derive Current.goldOf Current.goldPricePerOz response) w =
        (Throw e, w1) ->
        let result := Current.fetchBtcPrice false during (h, w) in
        let store := cacheSlot (snd result) in
        error (fst result) = Some FETCH_FAILED
        /\ (isMounted (fst result) = true -> isLoading (fst result) = false)
        /\ (forall c,
              store = Parsed c ->
              clock w1 - Cached.lastUpdated c < Current.CACHE_DURATION ->
              publishedOver (Cached.items c) (tickerItems h)
                (tickerItems (fst result))
              /\ (map id (tickerItems h) = map id (Cached.items c) ->
                  NoDup (map id (Cached.items c)) ->
                  tickerItems (fst result) = Cached.items c)
              /\ lastUpdated (fst result) = Some (Cached.lastUpdated c)
              /\ In (OtherWriter c) during)
        /\ (store = Absent \/ store = Unparsable
            \/ (exists c, store = Parsed c
                          /\ Current.CACHE_DURATION <=
                             clock w1 - Cached.lastUpdated c) ->
            tickerItems (fst result) = tickerItems h
            /\ lastUpdated (fst result) = lastUpdated h)
        /\ (forall c,
              cacheSlot w = Parsed c ->
              Current.CACHE_DURATION <= clock w - Cached.lastUpdated c
              /\ ((forall c', ~ In (OtherWriter c') during) ->
                  store = Parsed c
                  /\ tickerItems (fst result) = tickerItems h
                  /\ lastUpdated (fst result) = lastUpdated h))).
Proof.
  split.
  { intros during h w c Hm Hc result. subst result.
    pose proof (getCachedData_cases Current.CACHE_DURATION w) as Hread.
    fold (Current.getCachedData w) in Hread. rewrite Hc in Hread.
    destruct Hread as [_ Hage]. unfold Current.fetchBtcPrice.
    rewrite (fetchBtcPrice_skips _ _ _ _ _ during h w c Hm Hc Hage).
    cbn [fst snd]. split; [reflexivity|].
    now destruct (showCached_shows c h) as (_ & _ & _ & _ & Herr & _). }
  intros during h w e w1 Hm Hnone Hfail result store.
  assert (Hskip : skips Current.CACHE_DURATION (Current.getCachedData w)
                    (clock w) = false)
    by now apply current_proceeds_uncached.
  assert (Hext : Extends w w1).
  { pose proof (derived_request_steady Current.goldOf
                  Current.goldPricePerOz Current.request
                  Steady_request w) as H.
    now rewrite Hfail in H. }
  assert (Hold : forall c, cacheSlot w = Parsed c ->
                           Current.CACHE_DURATION <=
                           clock w - Cached.lastUpdated c).
  { intros c Hc. unfold Current.getCachedData, getCachedData in Hnone.
    rewrite Hc in Hnone.
    destruct (Z.ltb_spec (clock w - Cached.lastUpdated c)
                Current.CACHE_DURATION); [discriminate | assumption]. }
  unfold store, result, Current.fetchBtcPrice.
  rewrite (fetchBtcPrice_failure _ _ _ _ _ during h w e w1 Hm Hskip Hfail).
  fold (Current.getCachedData w). rewrite Hnone.
  set (s3 := meanwhile during (atAwait None h, w1)).
  destruct (meanwhile_hook during (atAwait None h, w1))
    as (Hitems & _ & _ & Hlast).
  destruct (meanwhile_world during (atAwait None h, w1)) as (Hclock & _).
  fold s3 in Hitems, Hlast, Hclock. cbn [fst snd] in Hitems, Hlast, Hclock.
  change (tickerItems (atAwait None h)) with (tickerItems h) in Hitems.
  change (lastUpdated (atAwait None h)) with (lastUpdated h) in Hlast.
  destruct (finally_keeps (onFailure Current.CACHE_DURATION s3))
    as (Hfi & Hfe & Hfl & Hfm).
  assert (Hload : isMounted (finally (onFailure Current.CACHE_DURATION s3)) =
                  true ->
                  isLoading (finally (onFailure Current.CACHE_DURATION s3)) =
                  false).
  { unfold finally.
    destruct (isMounted (onFailure Current.CACHE_DURATION s3)) eqn:Hmounted;
      [reflexivity | intros H; rewrite Hmounted in H; discriminate H]. }
  cbn [fst snd]. rewrite Hfi, Hfe, Hfl.
  destruct (onFailure_cases Current.CACHE_DURATION s3) as [Herr Hcases].
  pose proof (getCachedData_cases Current.CACHE_DURATION (snd s3)) as Hread.
  rewrite Hclock in Hread.
  assert (Hquiet : (forall c', ~ In (OtherWriter c') during) ->
                   cacheSlot (snd s3) = cacheSlot w).
  { intros Hnobody. unfold s3.
    rewrite (meanwhile_cache during (atAwait None h, w1) Hnobody).
    cbn [snd]. apply (ext_cache _ _ Hext). }
  split; [exact Herr|]. split; [exact Hload|].
  destruct (getCachedData Current.CACHE_DURATION (snd s3)) as [c|] eqn:Hc.
  - destruct Hread as [Hslot Hage]. destruct Hcases as [Hci Hcl].
    rewrite Hitems in Hci.
    assert (Hother : In (OtherWriter c) during).
    { destruct (meanwhile_cache_source during (atAwait None h, w1) c Hslot)
        as [Hw1|Hin]; [|exact Hin].
      cbn [snd] in Hw1. rewrite (ext_cache _ _ Hext) in Hw1.
      pose proof (Hold c Hw1). pose proof (ext_clock _ _ Hext). lia. }
    split; [|split].
    + intros c' Hslot' _. rewrite Hslot in Hslot'. injection Hslot' as <-.
      rewrite Hci. split; [apply mergeById_published|].
      split; [apply mergeById_same_ids|]. now split.
    + intros [Habs|[Hunp|(c' & Hslot' & Hage')]]; try congruence.
      rewrite Hslot in Hslot'. injection Hslot' as <-. lia.
    + intros c0 Hc0. split; [now apply Hold|].
      intros Hnobody. elim (Hnobody c Hother).
  - destruct Hcases as [Hci Hcl]. rewrite Hitems in Hci. rewrite Hlast in Hcl.
    split; [|split; [intros _; now split|]].
    + intros c Hslot Hage.
      destruct Hread as [Habs|[Hunp|(c' & Hslot' & Hage')]]; try congruence.
      rewrite Hslot in Hslot'. injection Hslot' as <-. lia.
    + intros c0 Hc0. split; [now apply Hold|].
      intros Hnobody. rewrite (Hquiet Hnobody). now repeat split.
Qed.

Lemma failure_republishes_young_record_only_witness :
  let w := Scenario.withCache 600000 (fun _ => Scenario.offline) in
  let h := Scenario.mounted Current.initialItems in
  let result := Current.fetchBtcPrice false [] (h, w) in
  error (fst result) = Some FETCH_FAILED
  /\ isLoading (fst result) = false
  /\ cacheSlot (snd result) = Parsed (Scenario.storedAt 600000)
  /\ tickerItems (fst result) = tickerItems h
  /\ lastUpdated (fst result) = lastUpdated h.
Proof.
  intros w h result.
  assert (Hm : isMounted h = true) by reflexivity.
  assert (Hnone : Current.getCachedData w = None) by (vm_compute; reflexivity).
  assert (Hfail :
            (response <- Current.request ;;
             derive Current.goldOf Current.goldPricePerOz response) w =
            (Throw (AxiosError None "timeout of 15000ms exceeded"),
             snd (Current.request w))) by (vm_compute; reflexivity).
  destruct (proj2 failure_republishes_young_record_only [] h w _ _ Hm Hnone
              Hfail) as (Herr & Hload & _ & _ & Hstored).
  destruct (Hstored (Scenario.storedAt 600000) eq_refl) as (_ & Hkept).
  split; [exact Herr|]. split; [apply Hload; reflexivity|].
  apply Hkept. intros c [].
Defined.

(** ** Completion after the cleanup *)

(** X23: what the guard of the [finally] block achieves: once the cleanup
    has run, the completion leaves the loading flag as the refresh set it
    before suspending. *)
Lemma unmounted_completion_keeps_loading during h w :
  isMounted h = true ->
  Current.getCachedData w = None ->
  In Cleanup during ->
  isLoading (fst (Current.fetchBtcPrice false during (h, w))) = true.
Proof.
  intros Hm Hnone Hcleanup.
  assert (Hskip : skips Current.CACHE_DURATION (Current.getCachedData w)
                    (clock w) = false)
    by now apply current_proceeds_uncached.
  unfold Current.fetchBtcPrice.
  rewrite (fetchBtcPrice_proceeds _ _ _ _ _ during h w Hm Hskip).
  fold (Current.getCachedData w). rewrite Hnone.
  destruct ((response <- Current.request ;;
             derive Current.goldOf Current.goldPricePerOz response) w)
    as [settled w1].
  cbv zeta.
  set (s3 := meanwhile during (atAwait None h, w1)).
  pose proof (meanwhile_cleanup during (atAwait None h, w1) Hcleanup) as Hun.
  destruct (meanwhile_hook during (atAwait None h, w1)) as (_ & Hload & _).
  fold s3 in Hun, Hload. cbn [fst snd] in Hload.
  destruct settled as [items|e|]; cbn [fst snd].
  - unfold finally, onSuccess. hook_simpl. rewrite Hun. hook_simpl.
    exact Hload.
  - unfold finally.
    assert (Hsame : isMounted (onFailure Current.CACHE_DURATION s3) = false
                    /\ isLoading (onFailure Current.CACHE_DURATION s3) =
                       isLoading (fst s3)).
    { unfold onFailure.
      destruct (getCachedData Current.CACHE_DURATION (snd s3)); hook_simpl;
        now split. }
    destruct Hsame as [Hsm Hsl]. rewrite Hsm, Hsl. exact Hload.
  - exact Hload.
Qed.

(** The setter calls of a completion after the cleanup: the cleanup runs
    while the request is in flight; when the response arrives
    [updateTickerItems] and [setLastUpdated] are called all the same (and the
    batch is stored), and when the request fails [setError] is; only
    [setIsLoading] is not called. The record below holds what the calls were
    given; what React makes of a setter call for a component that is no
    longer mounted is not modelled here. *)
Example late_completion_calls_setters :
  let h := Scenario.mounted Current.initialItems in
  let answered :=
    Current.fetchBtcPrice false [Cleanup] (h, Scenario.fresh) in
  let failed :=
    Current.fetchBtcPrice false [Cleanup]
      (h, Scenario.world (fun _ => Scenario.offline) Absent Absent) in
  isMounted (fst answered) = false
  /\ isLoading (fst answered) = true
  /\ map currentPrice (tickerItems h) = [None; None; None; None]
  /\ tickerItems (fst answered) = Scenario.storedItems
  /\ lastUpdated h = None
  /\ lastUpdated (fst answered) = Some (Scenario.t0 + 620)
  /\ cacheSlot (snd answered) =
     Parsed (Cached.mk Scenario.storedItems (Scenario.t0 + 620))
  /\ isMounted (fst failed) = false
  /\ isLoading (fst failed) = true
  /\ error h = None
  /\ error (fst failed) = Some FETCH_FAILED.
Proof.
  intros h answered failed.
  repeat (split; [vm_compute; reflexivity|]). vm_compute; reflexivity.
Qed.

(** * Further properties of the code *)

(** ** The cache slot *)

(** X1: a record written by [saveToCache] is read back by [getCachedData]
    with the time of the write and the items as JSON writes them, for as
    long as less than [CACHE_DURATION] milliseconds have passed; from then on
    it is not read any more, though it stays in the store. The items read
    back are the items written when their numbers are finite and not the
    negative zero; a price or change that is [NaN] or infinite is read back
    as [null]. *)
Theorem cache_round_trip CACHE_DURATION items w elapsed :
  0 <= elapsed ->
  (elapsed < CACHE_DURATION ->
   getCachedData CACHE_DURATION (pass elapsed (saveToCache items w)) =
   Some (Cached.mk (map json_item items) (clock w)))
  /\ (CACHE_DURATION <= elapsed ->
      getCachedData CACHE_DURATION (pass elapsed (saveToCache items w)) = None
      /\ cacheSlot (pass elapsed (saveToCache items w)) =
         Parsed (Cached.mk (map json_item items) (clock w)))
  /\ (allWritable items -> map json_item items = items)
  /\ (forall item x,
        In item items -> currentPrice item = Some x ->
        is_nan x = true \/ is_infinity x = true ->
        exists stored,
          In stored (map json_item items)
          /\ id stored = id item /\ currentPrice stored = None).
Proof.
  intros Hpos. split; [|split; [|split]].
  - unfold getCachedData, saveToCache, pass. simpl.
    destruct (Z.ltb_spec (clock w + elapsed - clock w) CACHE_DURATION);
      intros; [reflexivity | lia].
  - unfold getCachedData, saveToCache, pass. simpl.
    destruct (Z.ltb_spec (clock w + elapsed - clock w) CACHE_DURATION);
      intros; [lia | now split].
  - apply json_items_writable.
  - intros item x Hin Hprice Hbad. exists (json_item item).
    split; [now apply in_map | split; [reflexivity|]].
    unfold json_item. cbn [currentPrice]. rewrite Hprice.
    now apply json_number_null.
Qed.

Lemma cache_round_trip_witness :
  getCachedData Current.CACHE_DURATION
    (pass 299999 (saveToCache Scenario.storedItems Scenario.fresh)) =
  Some (Cached.mk (map json_item Scenario.storedItems) Scenario.t0).
Proof.
  apply (proj1 (cache_round_trip Current.CACHE_DURATION Scenario.storedItems
                  Scenario.fresh 299999 ltac:(discriminate))).
  reflexivity.
Defined.

(** ** Merging twice *)

Lemma mergeById_twice newItems prevItems :
  mergeById newItems (mergeById newItems prevItems) =
  mergeById newItems prevItems.
Proof.
  unfold mergeById. rewrite map_map. apply map_ext. intros item.
  destruct (find (fun newItem => String.eqb (id newItem) (id item)) newItems)
    as [u|] eqn:E.
  - rewrite spread_updated.
    destruct (find_by_id _ _ _ E) as [_ Hid].
    rewrite Hid, E. apply spread_updated.
  - now rewrite E.
Qed.

(** X2: merging the same batch a second time changes nothing, and merging an
    empty batch changes nothing. *)
Theorem mergeById_idempotent newItems prevItems :
  mergeById newItems (mergeById newItems prevItems) =
  mergeById newItems prevItems
  /\ mergeById [] prevItems = prevItems.
Proof.
  split; [apply mergeById_twice|].
  unfold mergeById. simpl. apply map_id.
Qed.

(** ** The fetcher of the current revision always settles *)

Lemma rateLimitCheck_outcome ceiling buffer w :
  fst (rateLimitCheck ceiling buffer w) = Return tt
  \/ (rateLimitSlot w = Unparsable
      /\ rateLimitCheck ceiling buffer w = (Throw SyntaxError, w)).
Proof.
  unfold rateLimitCheck.
  destruct (rateLimitSlot w) as [| |rl]; [now left | now right |].
  destruct (clock w - timestamp rl >? RATE_LIMIT_WINDOW); [now left|].
  destruct (count rl >=? ceiling); now left.
Qed.

Lemma attempt_settles ids w : fst (Current.attempt ids w) <> Pending.
Proof.
  unfold Current.attempt, bind, on_settle at 1.
  destruct (rateLimitCheck_outcome 5 1000 w) as [Hret|[_ Hthrow]].
  - destruct (rateLimitCheck 5 1000 w) as [c w0]. simpl in Hret. subst c.
    unfold on_settle, sleep, axios. destruct (outcome _); discriminate.
  - rewrite Hthrow. discriminate.
Qed.

Lemma fetchWithRetry_settles ids retries :
  forall backoff w,
    fst (Current.fetchWithRetry ids retries backoff w) <> Pending.
Proof.
  induction retries as [|n IH]; intros backoff w;
    rewrite fetchWithRetry_step;
    pose proof (attempt_settles ids w) as Hattempt;
    destruct (Current.attempt ids w) as [[response|error|] w1];
    simpl in Hattempt; try discriminate; try contradiction.
  apply IH.
Qed.

Lemma request_settles w : fst (Current.request w) <> Pending.
Proof.
  unfold Current.request, try_catch, on_settle.
  pose proof (fetchWithRetry_settles Current.PAX_GOLD Current.MAX_RETRIES
                Current.BASE_BACKOFF w) as H1.
  destruct (Current.fetchWithRetry Current.PAX_GOLD Current.MAX_RETRIES
              Current.BASE_BACKOFF w) as [[response|error|] w1];
    simpl in H1; try discriminate; try contradiction.
  apply fetchWithRetry_settles.
Qed.

Lemma meanwhile_mounted during s :
  ~ In Cleanup during ->
  isMounted (fst (meanwhile during s)) = isMounted (fst s).
Proof.
  unfold meanwhile. revert s.
  induction during as [|i rest IH]; intros s Hnone; simpl; [reflexivity|].
  rewrite IH by (intros Hin; apply Hnone; now right).
  destruct i; simpl; [|reflexivity]. elim Hnone. now left.
Qed.

Lemma configured_ids_nodup :
  NoDup ["btc-usd"; "btc-eur"; "btc-eth"; "gold-usd"].
Proof.
  repeat constructor; simpl; intuition discriminate.
Qed.

(** ** What is displayed and what is stored *)

(** The batch derived from the quotes of the scenario is all finite. *)
Lemma storedItems_writable : allWritable Scenario.storedItems.
Proof.
  repeat constructor; cbn [currentPrice priceChange24h fieldWritable];
    try (intros H; vm_compute in H; discriminate H);
    vm_compute; reflexivity.
Qed.

(** X3: in the current revision, after a successful refresh of a hook that
    holds the configured ids, the published items are exactly the batch, the
    stored record holds those items as JSON writes them, and the published
    timestamp is the timestamp of the record. When every number of the batch
    is finite and not the negative zero the stored items are the published
    ones. *)
Theorem display_is_cache during h w response w1 btcData ethData goldData :
  isMounted h = true ->
  Current.getCachedData w = None ->
  Current.request w = (Return response, w1) ->
  byId (data response) "bitcoin" = Some btcData ->
  byId (data response) "ethereum" = Some ethData ->
  Current.goldOf (byId (data response)) = Some goldData ->
  map id (tickerItems h) = map id Current.initialItems ->
  let result := Current.fetchBtcPrice false during (h, w) in
  tickerItems (fst result) =
  updatedItems Current.goldPricePerOz btcData ethData goldData
  /\ cacheSlot (snd result) =
     Parsed (Cached.mk (map json_item (tickerItems (fst result))) (clock w1))
  /\ lastUpdated (fst result) = Some (clock w1)
  /\ (allWritable (tickerItems (fst result)) ->
      cacheSlot (snd result) =
      Parsed (Cached.mk (tickerItems (fst result)) (clock w1))).
Proof.
  intros Hm Hnone Hreq Hb He Hg Hids result.
  assert (Hskip : skips Current.CACHE_DURATION (Current.getCachedData w)
                    (clock w) = false)
    by now apply current_proceeds_uncached.
  assert (Hmain :
            tickerItems (fst result) =
            updatedItems Current.goldPricePerOz btcData ethData goldData
            /\ cacheSlot (snd result) =
               Parsed (Cached.mk (map json_item (tickerItems (fst result)))
                         (clock w1))
            /\ lastUpdated (fst result) = Some (clock w1)).
  { unfold result, Current.fetchBtcPrice.
    rewrite (fetchBtcPrice_success _ _ _ _ _ during h w response w1 btcData
               ethData goldData Hm Hskip Hreq Hb He Hg).
    fold (Current.getCachedData w). rewrite Hnone.
    set (items := updatedItems Current.goldPricePerOz btcData ethData goldData).
    set (s3 := meanwhile during (atAwait None h, w1)).
    destruct (meanwhile_hook during (atAwait None h, w1)) as (Hitems & _).
    destruct (meanwhile_world during (atAwait None h, w1)) as (Hclock & _).
    fold s3 in Hitems, Hclock. cbn [fst snd] in Hitems, Hclock.
    change (tickerItems (atAwait None h)) with (tickerItems h) in Hitems.
    cbn [fst snd].
    destruct (finally_keeps
                (setLastUpdated (Some (clock w1))
                   (updateTickerItems items (fst s3))))
      as (Hfi & _ & Hfl & _).
    rewrite Hfi, Hfl. hook_simpl. rewrite Hitems.
    assert (Hmerge : mergeById items (tickerItems h) = items).
    { apply mergeById_same_ids; [exact Hids | apply configured_ids_nodup]. }
    rewrite Hmerge. split; [reflexivity|]. split; [|reflexivity].
    unfold saveToCache. simpl. now rewrite Hclock. }
  destruct Hmain as (H1 & H2 & H3).
  split; [exact H1|split; [exact H2|split; [exact H3|]]].
  intros Hfinite. rewrite H2. now rewrite (json_items_writable _ Hfinite).
Qed.

Lemma display_is_cache_witness :
  let result :=
    Current.fetchBtcPrice false []
      (Scenario.mounted Current.initialItems, Scenario.fresh) in
  tickerItems (fst result) = Scenario.storedItems
  /\ cacheSlot (snd result) =
     Parsed (Cached.mk (tickerItems (fst result))
               (clock (snd (Current.request Scenario.fresh))))
  /\ lastUpdated (fst result) =
     Some (clock (snd (Current.request Scenario.fresh))).
Proof.
  assert (Hreq : Current.request Scenario.fresh =
                 (Return (mkResponse 200 None
                            [Scenario.bitcoin; Scenario.ethereum;
                             Scenario.paxGold]),
                  snd (Current.request Scenario.fresh)))
    by (vm_compute; reflexivity).
  destruct (display_is_cache [] (Scenario.mounted Current.initialItems)
              Scenario.fresh _ _ Scenario.bitcoin Scenario.ethereum
              Scenario.paxGold eq_refl eq_refl Hreq eq_refl eq_refl eq_refl
              eq_refl) as (Hitems & _ & Hstamp & Hstored).
  split; [exact Hitems|split; [|exact Hstamp]].
  apply Hstored. rewrite Hitems. exact storedItems_writable.
Defined.

(** ** Refreshes in sequence *)

Section RefreshSequences.
Variable CACHE_DURATION : Z.
Variable FRESH_WINDOW : Z.
Variable goldOf : (string -> option Coin.t) -> option Coin.t.
Variable goldPricePerOz : float -> float.
Variable request : Eff Response.
Hypothesis window_within_duration : FRESH_WINDOW <= CACHE_DURATION.
Hypothesis request_steady : Steady request.

Abbreviation cached := (getCachedData CACHE_DURATION).
Abbreviation refresh :=
  (fetchBtcPrice CACHE_DURATION FRESH_WINDOW goldOf goldPricePerOz request).
Abbreviation run :=
  (cycles CACHE_DURATION FRESH_WINDOW goldOf goldPricePerOz request).

(** A refresh that follows a successful one inside the window finds the
    state as it would set it. *)
Lemma refresh_again_same during during' h w response w1 btcData ethData
  goldData idle :
  isMounted h = true ->
  skips FRESH_WINDOW (cached w) (clock w) = false ->
  request w = (Return response, w1) ->
  byId (data response) "bitcoin" = Some btcData ->
  byId (data response) "ethereum" = Some ethData ->
  goldOf (byId (data response)) = Some goldData ->
  allWritable (updatedItems goldPricePerOz btcData ethData goldData) ->
  ~ In Cleanup during ->
  0 <= idle < FRESH_WINDOW ->
  let first := refresh false during (h, w) in
  refresh false during' (fst first, pass idle (snd first)) =
  (fst first, pass idle (snd first)).
Proof.
  intros Hm Hskip Hreq Hb He Hg Hfinite Hmounted Hidle first. unfold first.
  rewrite (fetchBtcPrice_success _ _ _ _ _ during h w response w1 btcData
             ethData goldData Hm Hskip Hreq Hb He Hg).
  unfold saveToCache. rewrite (json_items_writable _ Hfinite).
  set (items := updatedItems goldPricePerOz btcData ethData goldData).
  set (s3 := meanwhile during (atAwait (cached w) h, w1)).
  pose proof (meanwhile_mounted during (atAwait (cached w) h, w1) Hmounted)
    as Hm3.
  fold s3 in Hm3. cbn [fst snd] in Hm3.
  assert (Hat : isMounted (atAwait (cached w) h) = true).
  { unfold atAwait, showCached. destruct (cached w); exact Hm. }
  rewrite Hat in Hm3.
  destruct (meanwhile_world during (atAwait (cached w) h, w1)) as (Hclock & _).
  fold s3 in Hclock. cbn [fst snd] in Hclock.
  cbn [fst snd].
  set (h1 := finally (setLastUpdated (Some (clock w1))
                        (updateTickerItems items (fst s3)))).
  assert (Hh1 : h1 = mkHook (mergeById items (tickerItems (fst s3))) false
                       (error (fst s3)) (Some (clock w1)) true).
  { unfold h1, finally. hook_simpl. rewrite Hm3.
    unfold setIsLoading, setLastUpdated, updateTickerItems, setTickerItems.
    cbn [tickerItems isLoading error lastUpdated isMounted].
    now rewrite Hm3. }
  rewrite (fetchBtcPrice_skips _ _ _ _ _ during' h1
             (pass idle (set_cache (Cached.mk items (clock (snd s3))) (snd s3)))
             (Cached.mk items (clock w1))).
  - f_equal. rewrite Hh1.
    unfold showCached, setIsLoading, setLastUpdated, updateTickerItems,
      setTickerItems.
    cbn [tickerItems isLoading error lastUpdated isMounted
         Cached.items Cached.lastUpdated].
    now rewrite (mergeById_twice items (tickerItems (fst s3))).
  - now rewrite Hh1.
  - unfold getCachedData, pass. simpl. rewrite Hclock.
    destruct (Z.ltb_spec (clock w1 + idle - clock w1) CACHE_DURATION);
      [reflexivity | lia].
  - unfold pass. simpl. lia.
Qed.

(** The store is written by a refresh only with a complete batch, stamped
    with the moment of the write. *)
Lemma cache_written_on_success_only seen during h w :
  (forall c, ~ In (OtherWriter c) during) ->
  cacheSlot (snd (refresh seen during (h, w))) = cacheSlot w
  \/ exists response w1 btcData ethData goldData,
      request w = (Return response, w1)
      /\ byId (data response) "bitcoin" = Some btcData
      /\ byId (data response) "ethereum" = Some ethData
      /\ goldOf (byId (data response)) = Some goldData
      /\ cacheSlot (snd (refresh seen during (h, w))) =
         Parsed (Cached.mk
                   (map json_item
                      (updatedItems goldPricePerOz btcData ethData goldData))
                   (clock w1)).
Proof.
  intros Hquiet.
  destruct (isMounted h) eqn:Hm;
    [|left; now rewrite fetchBtcPrice_unmounted].
  destruct seen; [left; now rewrite fetchBtcPrice_loading|].
  destruct (skips FRESH_WINDOW (cached w) (clock w)) eqn:Hskip.
  - left. unfold skips in Hskip.
    destruct (cached w) as [c|] eqn:Hc; [|discriminate].
    apply Z.ltb_lt in Hskip.
    now rewrite (fetchBtcPrice_skips _ _ _ _ _ during h w c Hm Hc Hskip).
  - pose proof (request_steady w) as Hext.
    destruct (request w) as [[response|e|] w1] eqn:Hreq; cbn [snd] in Hext.
    + destruct (byId (data response) "bitcoin") as [btcData|] eqn:Hb;
        [destruct (byId (data response) "ethereum") as [ethData|] eqn:He;
         [destruct (goldOf (byId (data response))) as [goldData|] eqn:Hg|]|].
      * right. exists response, w1, btcData, ethData, goldData.
        repeat (split; [assumption|]).
        rewrite (fetchBtcPrice_success _ _ _ _ _ during h w response w1
                   btcData ethData goldData Hm Hskip Hreq Hb He Hg).
        cbn [snd]. unfold saveToCache. simpl.
        destruct (meanwhile_world during (atAwait (cached w) h, w1))
          as (Hclock & _).
        cbn [snd] in Hclock. now rewrite Hclock.
      * left.
        rewrite (fetchBtcPrice_failure _ _ _ _ _ during h w IncompleteData w1
                   Hm Hskip).
        -- cbn [snd]. rewrite meanwhile_cache by exact Hquiet.
           cbn [snd]. apply (ext_cache _ _ Hext).
        -- unfold bind, on_settle. rewrite Hreq. unfold derive.
           now rewrite Hb, He, Hg.
      * left.
        rewrite (fetchBtcPrice_failure _ _ _ _ _ during h w IncompleteData w1
                   Hm Hskip).
        -- cbn [snd]. rewrite meanwhile_cache by exact Hquiet.
           cbn [snd]. apply (ext_cache _ _ Hext).
        -- unfold bind, on_settle. rewrite Hreq. unfold derive.
           now rewrite Hb, He.
      * left.
        rewrite (fetchBtcPrice_failure _ _ _ _ _ during h w IncompleteData w1
                   Hm Hskip).
        -- cbn [snd]. rewrite meanwhile_cache by exact Hquiet.
           cbn [snd]. apply (ext_cache _ _ Hext).
        -- unfold bind, on_settle. rewrite Hreq. unfold derive.
           now rewrite Hb.
    + left.
      rewrite (fetchBtcPrice_failure _ _ _ _ _ during h w e w1 Hm Hskip).
      * cbn [snd]. rewrite meanwhile_cache by exact Hquiet.
        cbn [snd]. apply (ext_cache _ _ Hext).
      * unfold bind, on_settle. now rewrite Hreq.
    + left. rewrite (fetchBtcPrice_proceeds _ _ _ _ _ during h w Hm Hskip).
      unfold bind, on_settle. rewrite Hreq.
      rewrite meanwhile_cache by exact Hquiet.
      cbn [snd]. apply (ext_cache _ _ Hext).
Qed.

(** Once the cleanup has run, no cycle does anything. *)
Lemma cycles_after_cleanup cs :
  forall h w,
    isMounted h = false ->
    fst (run cs (h, w)) = h
    /\ calls (snd (run cs (h, w))) = calls w
    /\ trace (snd (run cs (h, w))) = trace w
    /\ cacheSlot (snd (run cs (h, w))) = cacheSlot w
    /\ rateLimitSlot (snd (run cs (h, w))) = rateLimitSlot w.
Proof.
  unfold cycles.
  induction cs as [|c rest IH]; intros h w Hm; simpl; [tauto|].
  change (cycle CACHE_DURATION FRESH_WINDOW goldOf goldPricePerOz request
            (h, w) c)
    with (refresh (isLoading_seen c) (during c) (h, pass (idle c) w)).
  rewrite fetchBtcPrice_unmounted by exact Hm.
  destruct (IH h (pass (idle c) w) Hm) as (H1 & H2 & H3 & H4 & H5).
  rewrite H1, H2, H3, H4, H5. tauto.
Qed.

End RefreshSequences.

Lemma window_within_duration_current :
  Current.CACHE_DURATION <= Current.CACHE_DURATION.
Proof. apply Z.le_refl. Qed.

Lemma window_within_duration_earlier :
  Earlier.FRESH_WINDOW <= Earlier.CACHE_DURATION.
Proof. vm_compute. discriminate. Qed.

(** X4: when the numbers of the batch of a successful refresh are all
    finite and not the negative zero, so that the stored record holds them
    as published, a refresh that comes less than the fresh-skip window after
    it (and no cleanup in between) issues no request and leaves the
    published state and the store exactly as they are; in both revisions. *)
Theorem refresh_again_is_noop :
  (forall during during' h w response w1 btcData ethData goldData idle,
      isMounted h = true ->
      Current.getCachedData w = None ->
      Current.request w = (Return response, w1) ->
      byId (data response) "bitcoin" = Some btcData ->
      byId (data response) "ethereum" = Some ethData ->
      Current.goldOf (byId (data response)) = Some goldData ->
      allWritable (updatedItems Current.goldPricePerOz btcData ethData
                     goldData) ->
      ~ In Cleanup during ->
      0 <= idle < Current.CACHE_DURATION ->
      let first := Current.fetchBtcPrice false during (h, w) in
      Current.fetchBtcPrice false during' (fst first, pass idle (snd first)) =
      (fst first, pass idle (snd first)))
  /\ (forall fuel during during' h w response w1 btcData ethData goldData idle,
        isMounted h = true ->
        skips Earlier.FRESH_WINDOW (Earlier.getCachedData w) (clock w) = false ->
        Earlier.request fuel w = (Return response, w1) ->
        byId (data response) "bitcoin" = Some btcData ->
        byId (data response) "ethereum" = Some ethData ->
        Earlier.goldOf (byId (data response)) = Some goldData ->
        allWritable (updatedItems Earlier.goldPricePerOz btcData ethData
                       goldData) ->
        ~ In Cleanup during ->
        0 <= idle < Earlier.FRESH_WINDOW ->
        let first := Earlier.fetchBtcPrice fuel false during (h, w) in
        Earlier.fetchBtcPrice fuel false during'
          (fst first, pass idle (snd first)) =
        (fst first, pass idle (snd first))).
Proof.
  split.
  - intros during during' h w response w1 btcData ethData goldData idle
           Hm Hnone.
    apply (refresh_again_same Current.CACHE_DURATION Current.CACHE_DURATION
             Current.goldOf Current.goldPricePerOz Current.request
             window_within_duration_current); [exact Hm|].
    now apply current_proceeds_uncached.
  - intros fuel during during' h w response w1 btcData ethData goldData idle.
    apply (refresh_again_same Earlier.CACHE_DURATION Earlier.FRESH_WINDOW
             Earlier.goldOf Earlier.goldPricePerOz (Earlier.request fuel)
             window_within_duration_earlier).
Qed.

Lemma refresh_again_is_noop_witness :
  let first :=
    Current.fetchBtcPrice false []
      (Scenario.mounted Current.initialItems, Scenario.fresh) in
  Current.fetchBtcPrice false [] (fst first, pass 299999 (snd first)) =
  (fst first, pass 299999 (snd first)).
Proof.
  assert (Hreq : Current.request Scenario.fresh =
                 (Return (mkResponse 200 None
                            [Scenario.bitcoin; Scenario.ethereum;
                             Scenario.paxGold]),
                  snd (Current.request Scenario.fresh)))
    by (vm_compute; reflexivity).
  apply (proj1 refresh_again_is_noop [] []
           (Scenario.mounted Current.initialItems) Scenario.fresh _ _
           Scenario.bitcoin Scenario.ethereum Scenario.paxGold 299999
           eq_refl eq_refl Hreq eq_refl eq_refl eq_refl).
  - exact storedItems_writable.
  - intros [].
  - split; [discriminate | reflexivity].
Defined.

(** Without that the second refresh is no no-op: ether has lost exactly 100
    percent, the first refresh publishes the change [Infinity] and stores
    [null], and the second one, served from the store, publishes [null]. *)
Example refresh_again_after_infinity :
  let w := Scenario.world (fun _ => Scenario.quotesWiped) Absent Absent in
  let first :=
    Current.fetchBtcPrice false [] (Scenario.mounted Current.initialItems, w) in
  let second :=
    Current.fetchBtcPrice false [] (fst first, pass 1000 (snd first)) in
  option_map priceChange24h (itemOf "btc-eth" (tickerItems (fst first))) =
  Some (Some infinity)
  /\ option_map priceChange24h (itemOf "btc-eth" (tickerItems (fst second))) =
     Some None
  /\ calls (snd second) = calls (snd first).
Proof. intros w first second. repeat split; vm_compute; reflexivity. Qed.

(** X5: unless another instance writes it, the stored record changes during
    a refresh only when the response was complete, and then to the derived
    batch as JSON writes it ([NaN] and the infinities as [null]), stamped
    with the time of the write: a failed request or a response that lacks an
    instrument writes nothing; in both revisions. *)
Theorem cache_written_only_on_success :
  (forall seen during h w,
      (forall c, ~ In (OtherWriter c) during) ->
      cacheSlot (snd (Current.fetchBtcPrice seen during (h, w))) = cacheSlot w
      \/ exists response w1 btcData ethData goldData,
          Current.request w = (Return response, w1)
          /\ byId (data response) "bitcoin" = Some btcData
          /\ byId (data response) "ethereum" = Some ethData
          /\ Current.goldOf (byId (data response)) = Some goldData
          /\ cacheSlot (snd (Current.fetchBtcPrice seen during (h, w))) =
             Parsed (Cached.mk
                       (map json_item
                          (updatedItems Current.goldPricePerOz btcData ethData
                             goldData))
                       (clock w1)))
  /\ (forall fuel seen during h w,
        (forall c, ~ In (OtherWriter c) during) ->
        cacheSlot (snd (Earlier.fetchBtcPrice fuel seen during (h, w))) =
        cacheSlot w
        \/ exists response w1 btcData ethData goldData,
            Earlier.request fuel w = (Return response, w1)
            /\ byId (data response) "bitcoin" = Some btcData
            /\ byId (data response) "ethereum" = Some ethData
            /\ Earlier.goldOf (byId (data response)) = Some goldData
            /\ cacheSlot (snd (Earlier.fetchBtcPrice fuel seen during (h, w))) =
               Parsed (Cached.mk
                         (map json_item
                            (updatedItems Earlier.goldPricePerOz btcData
                               ethData goldData))
                         (clock w1))).
Proof.
  split.
  - intros seen during h w.
    apply (cache_written_on_success_only Current.CACHE_DURATION
             Current.CACHE_DURATION Current.goldOf Current.goldPricePerOz
             Current.request Steady_request).
  - intros fuel seen during h w.
    apply (cache_written_on_success_only Earlier.CACHE_DURATION
             Earlier.FRESH_WINDOW Earlier.goldOf Earlier.goldPricePerOz
             (Earlier.request fuel)).
    unfold Earlier.request. apply Steady_fetchWithRetry_earlier.
Qed.

(** A response without ether: nothing is stored. *)
Lemma cache_written_only_on_success_witness :
  let w :=
    Scenario.withCache 600000
      (fun _ => mkReply 120
                  (Resolved (mkResponse 200 None
                               [Scenario.bitcoin; Scenario.paxGold]))) in
  let result :=
    Current.fetchBtcPrice false [Cleanup]
      (Scenario.mounted Current.initialItems, w) in
  cacheSlot (snd result) = cacheSlot w.
Proof.
  intros w result.
  destruct (proj1 cache_written_only_on_success false [Cleanup]
              (Scenario.mounted Current.initialItems) w) as [Hsame|Hwritten].
  - intros c [Hc|[]]. discriminate Hc.
  - exact Hsame.
  - destruct Hwritten as (response & w1 & b & e & g & Hreq & _ & He & _).
    exfalso.
    assert (Hr : fst (Current.request w) =
                 Return (mkResponse 200 None
                           [Scenario.bitcoin; Scenario.paxGold]))
      by (vm_compute; reflexivity).
    rewrite Hreq in Hr. injection Hr as ->. discriminate He.
Defined.

(** X6: after the cleanup has run no refresh cycle does anything: the
    published state stays, no request is issued, nothing waits, and neither
    the stored record nor the rate-limit counter is touched; in both
    revisions. *)
Theorem nothing_after_cleanup :
  (forall cs h w,
      isMounted h = false ->
      fst (Current.cycles cs (h, w)) = h
      /\ calls (snd (Current.cycles cs (h, w))) = calls w
      /\ trace (snd (Current.cycles cs (h, w))) = trace w
      /\ cacheSlot (snd (Current.cycles cs (h, w))) = cacheSlot w
      /\ rateLimitSlot (snd (Current.cycles cs (h, w))) = rateLimitSlot w)
  /\ (forall fuel cs h w,
        isMounted h = false ->
        fst (Earlier.cycles fuel cs (h, w)) = h
        /\ calls (snd (Earlier.cycles fuel cs (h, w))) = calls w
        /\ trace (snd (Earlier.cycles fuel cs (h, w))) = trace w
        /\ cacheSlot (snd (Earlier.cycles fuel cs (h, w))) = cacheSlot w
        /\ rateLimitSlot (snd (Earlier.cycles fuel cs (h, w))) =
           rateLimitSlot w).
Proof.
  split.
  - intros cs h w. apply cycles_after_cleanup.
  - intros fuel cs h w. apply cycles_after_cleanup.
Qed.

Lemma nothing_after_cleanup_witness :
  let h := cleanup (Scenario.mounted Current.initialItems) in
  let cs := [mkCycle 0 false []; mkCycle 300000 false [];
             mkCycle 300000 false []] in
  fst (Current.cycles cs (h, Scenario.fresh)) = h
  /\ calls (snd (Current.cycles cs (h, Scenario.fresh))) = 0%nat
  /\ trace (snd (Current.cycles cs (h, Scenario.fresh))) = []
  /\ cacheSlot (snd (Current.cycles cs (h, Scenario.fresh))) = Absent
  /\ rateLimitSlot (snd (Current.cycles cs (h, Scenario.fresh))) = Absent.
Proof.
  intros h cs.
  apply (proj1 nothing_after_cleanup cs h Scenario.fresh). reflexivity.
Defined.

(** ** The loading flag and the error string *)

Lemma derived_request_settles w :
  fst ((response <- Current.request ;;
        derive Current.goldOf Current.goldPricePerOz response) w) <> Pending.
Proof.
  unfold bind, on_settle.
  pose proof (request_settles w) as H.
  destruct (Current.request w) as [[response|e|] w1]; simpl in H;
    try contradiction; try discriminate.
  rewrite derive_pure. unfold derive.
  destruct (byId (data response) "bitcoin"), (byId (data response) "ethereum"),
    (Current.goldOf (byId (data response))); discriminate.
Qed.

(** X7: in the current revision every refresh that passes its two guards and
    is not overtaken by the cleanup ends with the loading flag off. If it
    was served from a fresh record the error string is left as it was; if it
    went to the network the error string is cleared by a success and is the
    failure message after a failure. *)
Theorem refresh_ends_loading during h w :
  isMounted h = true ->
  ~ In Cleanup during ->
  let result := Current.fetchBtcPrice false during (h, w) in
  isLoading (fst result) = false
  /\ (forall c, Current.getCachedData w = Some c -> error (fst result) = error h)
  /\ (Current.getCachedData w = None ->
      match fst ((response <- Current.request ;;
                  derive Current.goldOf Current.goldPricePerOz response) w)
      with
      | Return _ => error (fst result) = None
      | Throw _ => error (fst result) = Some FETCH_FAILED
      | Pending => False
      end).
Proof.
  intros Hm Hmounted result. unfold result, Current.fetchBtcPrice.
  destruct (Current.getCachedData w) as [c|] eqn:Hc.
  - assert (Hfresh : clock w - Cached.lastUpdated c < Current.CACHE_DURATION).
    { unfold Current.getCachedData, getCachedData in Hc.
      destruct (cacheSlot w) as [| |parsed]; try discriminate.
      destruct (Z.ltb_spec (clock w - Cached.lastUpdated parsed)
                  Current.CACHE_DURATION); [|discriminate].
      now injection Hc as <-. }
    rewrite (fetchBtcPrice_skips _ _ _ _ _ during h w c Hm Hc Hfresh).
    split; [reflexivity|]. split; [reflexivity | discriminate].
  - assert (Hskip : skips Current.CACHE_DURATION (Current.getCachedData w)
                      (clock w) = false)
      by now apply current_proceeds_uncached.
    rewrite (fetchBtcPrice_proceeds _ _ _ _ _ during h w Hm Hskip).
    pose proof (derived_request_settles w) as Hsettles.
    destruct ((response <- Current.request ;;
               derive Current.goldOf Current.goldPricePerOz response) w)
      as [settled w1].
    cbv zeta. fold (Current.getCachedData w). rewrite Hc.
    set (s3 := meanwhile during (atAwait None h, w1)).
    pose proof (meanwhile_mounted during (atAwait None h, w1) Hmounted) as Hm3.
    destruct (meanwhile_hook during (atAwait None h, w1))
      as (_ & _ & Herr & _).
    fold s3 in Hm3, Herr. cbn [fst snd] in Hm3, Herr.
    change (isMounted (atAwait None h)) with (isMounted h) in Hm3.
    rewrite Hm in Hm3.
    change (error (atAwait None h)) with (@None string) in Herr.
    split; [|split; [discriminate | intros _]];
      destruct settled as [items|e|]; cbn [fst snd] in *;
      try (now elim Hsettles).
    + unfold finally, onSuccess. hook_simpl. now rewrite Hm3.
    + unfold finally.
      assert (Hmf : isMounted (onFailure Current.CACHE_DURATION s3) = true).
      { unfold onFailure.
        destruct (getCachedData Current.CACHE_DURATION (snd s3)); hook_simpl;
          exact Hm3. }
      now rewrite Hmf.
    + destruct (finally_keeps (fst (onSuccess items s3))) as (_ & He & _).
      rewrite He. unfold onSuccess. hook_simpl. exact Herr.
    + destruct (finally_keeps (onFailure Current.CACHE_DURATION s3))
        as (_ & He & _).
      rewrite He. apply onFailure_cases.
Qed.

Lemma refresh_ends_loading_witness :
  let h := mkHook Current.initialItems true (Some FETCH_FAILED) None true in
  isLoading (fst (Current.fetchBtcPrice false [] (h, Scenario.fresh))) = false
  /\ error (fst (Current.fetchBtcPrice false [] (h, Scenario.fresh))) = None.
Proof.
  intros h.
  destruct (refresh_ends_loading [] h Scenario.fresh eq_refl
              ltac:(intros []))
    as (Hload & _ & Herr).
  split; [exact Hload|].
  specialize (Herr eq_refl).
  assert (Hfst : fst ((response <- Current.request ;;
                       derive Current.goldOf Current.goldPricePerOz response)
                        Scenario.fresh) = Return Scenario.storedItems)
    by (vm_compute; reflexivity).
  rewrite Hfst in Herr. exact Herr.
Defined.

Lemma unmounted_completion_keeps_loading_witness :
  isLoading
    (fst (Current.fetchBtcPrice false [Cleanup]
            (Scenario.mounted Current.initialItems, Scenario.fresh))) = true.
Proof.
  apply (unmounted_completion_keeps_loading [Cleanup]
           (Scenario.mounted Current.initialItems) Scenario.fresh).
  - reflexivity.
  - reflexivity.
  - now left.
Defined.

(** ** The counter of the rate-limit check *)

(** Below the ceiling inside the window: the count goes up by one, the start
    of the window stays, nothing waits. *)
Lemma rateLimitCheck_below_ceiling ceiling buffer w rl :
  rateLimitSlot w = Parsed rl ->
  clock w - timestamp rl <= RATE_LIMIT_WINDOW ->
  count rl < ceiling ->
  rateLimitCheck ceiling buffer w =
  (Return tt, set_rateLimit (mkRateLimit (timestamp rl) (count rl + 1)) w).
Proof.
  intros Hslot Hopen Hcount. unfold rateLimitCheck. rewrite Hslot.
  destruct (Z.gtb_spec (clock w - timestamp rl) RATE_LIMIT_WINDOW); [lia|].
  destruct (Z.geb_spec (count rl) ceiling); [lia | reflexivity].
Qed.

(** X8: whenever the rate-limit check finds a readable or no counter it
    returns, and the count it leaves in the store is at most the ceiling.
    It returns without waiting and without moving the clock unless the count
    has reached the ceiling inside an open window. *)
Theorem counter_stays_under_ceiling ceiling buffer w :
  1 <= ceiling ->
  rateLimitSlot w <> Unparsable ->
  let w' := snd (rateLimitCheck ceiling buffer w) in
  fst (rateLimitCheck ceiling buffer w) = Return tt
  /\ (exists rl', rateLimitSlot w' = Parsed rl' /\ count rl' <= ceiling)
  /\ (rateLimitSlot w = Absent
      \/ (exists rl, rateLimitSlot w = Parsed rl
                     /\ (RATE_LIMIT_WINDOW < clock w - timestamp rl
                         \/ count rl < ceiling)) ->
      trace w' = trace w /\ clock w' = clock w).
Proof.
  intros Hceiling Hslot w'. unfold w', rateLimitCheck.
  destruct (rateLimitSlot w) as [| |rl] eqn:Hrl; [|contradiction|].
  - split; [reflexivity|]. split; [|intros _; now split].
    eexists. split; [reflexivity|]. simpl. lia.
  - destruct (Z.gtb_spec (clock w - timestamp rl) RATE_LIMIT_WINDOW) as [Hold|Hopen].
    + split; [reflexivity|]. split; [|intros _; now split].
      eexists. split; [reflexivity|]. simpl. lia.
    + destruct (Z.geb_spec (count rl) ceiling) as [Hfull|Hroom].
      * split; [reflexivity|]. split.
        -- eexists. split; [reflexivity|]. simpl. lia.
        -- intros [Habs|(rl0 & [= <-] & [Hold|Hroom])];
             [discriminate | lia | lia].
      * split; [reflexivity|]. split; [|intros _; now split].
        eexists. split; [reflexivity|]. simpl. lia.
Qed.

Lemma counter_stays_under_ceiling_witness :
  let w := Scenario.world (fun _ => Scenario.quotes)
             (Parsed (mkRateLimit (Scenario.t0 - 20000) 4)) Absent in
  let w' := snd (rateLimitCheck 5 1000 w) in
  fst (rateLimitCheck 5 1000 w) = Return tt
  /\ (exists rl', rateLimitSlot w' = Parsed rl' /\ count rl' <= 5)
  /\ (rateLimitSlot w = Absent
      \/ (exists rl, rateLimitSlot w = Parsed rl
                     /\ (RATE_LIMIT_WINDOW < clock w - timestamp rl
                         \/ count rl < 5)) ->
      trace w' = trace w /\ clock w' = clock w).
Proof.
  intros w.
  apply (counter_stays_under_ceiling 5 1000 w).
  - discriminate.
  - discriminate.
Defined.

Lemma checksAfter_inside_window ceiling buffer gaps :
  forall w t k,
    rateLimitSlot w = Parsed (mkRateLimit t k) ->
    Forall (fun gap => 0 <= gap) gaps ->
    clock w - t + total gaps <= RATE_LIMIT_WINDOW ->
    k + Z.of_nat (length gaps) <= ceiling ->
    let w' := checksAfter ceiling buffer gaps w in
    rateLimitSlot w' = Parsed (mkRateLimit t (k + Z.of_nat (length gaps)))
    /\ trace w' = trace w
    /\ clock w' = clock w + total gaps.
Proof.
  induction gaps as [|gap rest IH]; intros w t k Hslot Hgaps Hwindow Hroom.
  - unfold total. cbn [checksAfter length fold_right Z.of_nat].
    rewrite !Z.add_0_r. now repeat split.
  - inversion Hgaps as [|? ? Hgap Hrest]; subst.
    assert (Hrest_pos : 0 <= total rest).
    { clear -Hrest. induction Hrest; simpl; unfold total in *; simpl; lia. }
    cbn [checksAfter]. cbv zeta.
    change (total (gap :: rest)) with (gap + total rest) in *.
    rewrite (rateLimitCheck_below_ceiling ceiling buffer (pass gap w)
               (mkRateLimit t k)).
    + cbn [snd timestamp count].
      destruct (IH (set_rateLimit (mkRateLimit t (k + 1)) (pass gap w))
                  t (k + 1) eq_refl Hrest) as (H1 & H2 & H3).
      * simpl. lia.
      * cbn [length] in Hroom. lia.
      * rewrite H1, H2, H3. cbn [length]. simpl.
        repeat split; try lia. f_equal. f_equal. lia.
    + exact Hslot.
    + simpl. lia.
    + cbn [length] in Hroom. simpl. lia.
Qed.

(** X9: from an empty store the first call of the rate-limit check opens a
    window with count 1, and the calls that follow inside that window pass
    without waiting as long as the count stays within the ceiling, each
    adding one to the count; the call after that waits for what is left of
    the window plus the buffer. *)
Theorem window_admits_ceiling_calls ceiling buffer gaps w :
  rateLimitSlot w = Absent ->
  0 <= buffer ->
  Forall (fun gap => 0 <= gap) gaps ->
  total gaps <= RATE_LIMIT_WINDOW ->
  1 + Z.of_nat (length gaps) = ceiling ->
  let opened := snd (rateLimitCheck ceiling buffer w) in
  let w' := checksAfter ceiling buffer gaps opened in
  rateLimitSlot w' = Parsed (mkRateLimit (clock w) ceiling)
  /\ trace w' = trace w
  /\ clock w' = clock w + total gaps
  /\ trace (snd (rateLimitCheck ceiling buffer w')) =
     (trace w
      ++ [Sleep Admission (RATE_LIMIT_WINDOW - total gaps + buffer)])%list.
Proof.
  intros Habsent Hbuffer Hgaps Hwindow Hceiling opened w'.
  assert (Hopened : opened = set_rateLimit (mkRateLimit (clock w) 1) w).
  { unfold opened, rateLimitCheck. now rewrite Habsent. }
  assert (H1 : rateLimitSlot opened = Parsed (mkRateLimit (clock w) 1))
    by now rewrite Hopened.
  assert (H2 : clock opened - clock w + total gaps <= RATE_LIMIT_WINDOW)
    by (rewrite Hopened; simpl; lia).
  assert (H3 : 1 + Z.of_nat (length gaps) <= ceiling) by lia.
  destruct (checksAfter_inside_window ceiling buffer gaps opened (clock w) 1
              H1 Hgaps H2 H3) as (Hslot & Htrace & Hclock).
  fold w' in Hslot, Htrace, Hclock.
  rewrite Hceiling in Hslot.
  rewrite Hopened in Htrace, Hclock. simpl in Htrace, Hclock.
  repeat split; auto.
  destruct (rateLimitCheck_at_ceiling ceiling buffer Hbuffer w'
              (mkRateLimit (clock w) ceiling) Hslot) as [Hrun _].
  - simpl. lia.
  - simpl. rewrite Hclock. lia.
  - rewrite Hrun. cbn [snd]. unfold set_rateLimit, elapse.
    cbn [trace timestamp]. rewrite Htrace, Hclock.
    do 3 f_equal. lia.
Qed.

Lemma window_admits_ceiling_calls_witness :
  let gaps := [700; 700; 700; 700] in
  let opened := snd (rateLimitCheck 5 1000 Scenario.fresh) in
  let w' := checksAfter 5 1000 gaps opened in
  rateLimitSlot w' = Parsed (mkRateLimit Scenario.t0 5)
  /\ trace w' = []
  /\ clock w' = Scenario.t0 + 2800
  /\ trace (snd (rateLimitCheck 5 1000 w')) =
     [Sleep Admission (RATE_LIMIT_WINDOW - 2800 + 1000)].
Proof.
  intros gaps.
  apply (window_admits_ceiling_calls 5 1000 gaps Scenario.fresh).
  - reflexivity.
  - discriminate.
  - repeat constructor; discriminate.
  - discriminate.
  - reflexivity.
Defined.

(** ** Requests in the trace *)

Lemma requests_app a b : requests (a ++ b) = (requests a ++ requests b)%list.
Proof. apply flat_map_app. Qed.

Lemma Silent_ret {A} (a : A) : Silent (ret a).
Proof. intros w. now split. Qed.

Lemma Silent_throw {A} e : Silent (@throw A e).
Proof. intros w. now split. Qed.

Lemma Silent_on_settle {A B} (m : Eff A) (ok : A -> Eff B) ko :
  Silent m -> (forall a, Silent (ok a)) -> (forall e, Silent (ko e)) ->
  Silent (on_settle m ok ko).
Proof.
  intros Hm Hok Hko w. unfold on_settle.
  specialize (Hm w). destruct (m w) as [[a|e|] w1]; simpl in Hm.
  - destruct (Hok a w1) as [H1 H2]. destruct Hm as [H3 H4]. split; congruence.
  - destruct (Hko e w1) as [H1 H2]. destruct Hm as [H3 H4]. split; congruence.
  - exact Hm.
Qed.

Lemma Silent_bind {A B} (m : Eff A) (k : A -> Eff B) :
  Silent m -> (forall a, Silent (k a)) -> Silent (bind m k).
Proof. intros Hm Hk. apply Silent_on_settle; auto using @Silent_throw. Qed.

Lemma Silent_sleep site ms : Silent (sleep site ms).
Proof.
  intros w. simpl. rewrite requests_app. simpl. now rewrite app_nil_r.
Qed.

Lemma Silent_sleepFrac site ms : Silent (sleepFrac site ms).
Proof.
  intros w. simpl. rewrite requests_app. simpl. now rewrite app_nil_r.
Qed.

Lemma Silent_random : Silent Math_random.
Proof. intros w. now split. Qed.

Lemma Silent_setRateLimit_now c : Silent (fun w => setRateLimit (clock w) c w).
Proof. intros w. now split. Qed.

Lemma Silent_rateLimitCheck ceiling buffer :
  Silent (rateLimitCheck ceiling buffer).
Proof.
  intros w. unfold rateLimitCheck.
  destruct (rateLimitSlot w) as [| |rl]; [now split | now split |].
  destruct (clock w - timestamp rl >? RATE_LIMIT_WINDOW); [now split|].
  destruct (count rl >=? ceiling); [|now split].
  apply (Silent_bind (sleep Admission _)
           (fun _ w1 => setRateLimit (clock w1) 1 w1)).
  - apply Silent_sleep.
  - intros _. apply Silent_setRateLimit_now.
Qed.

Lemma Silent_on429 error : Silent (Current.on429 error).
Proof.
  unfold Current.on429. destruct (is429 error); [|apply Silent_ret].
  apply Silent_bind; [apply Silent_sleep | intros _].
  apply Silent_setRateLimit_now.
Qed.

Lemma Silent_backoffWait backoff : Silent (Current.backoffWait backoff).
Proof.
  unfold Current.backoffWait.
  apply Silent_bind; [apply Silent_random | intros r; apply Silent_sleep].
Qed.

Lemma Silent_backoffWait_earlier backoff :
  Silent (Earlier.backoffWait backoff).
Proof.
  unfold Earlier.backoffWait.
  apply Silent_bind; [apply Silent_random | intros r; apply Silent_sleepFrac].
Qed.

Lemma axios_exact ids w :
  axios ids w = (settle (net w (calls w)), snd (axios ids w))
  /\ calls (snd (axios ids w)) = S (calls w)
  /\ requests (trace (snd (axios ids w))) = (requests (trace w) ++ [ids])%list
  /\ rateLimitSlot (snd (axios ids w)) = rateLimitSlot w.
Proof.
  unfold axios, settle. destruct (outcome (net w (calls w))); simpl;
    rewrite requests_app; auto.
Qed.

(** An attempt of the current revision with a readable counter: one request,
    answered by the next reply. *)
Lemma attempt_exact ids w :
  rateLimitSlot w <> Unparsable ->
  fst (Current.attempt ids w) = settle (net w (calls w))
  /\ calls (snd (Current.attempt ids w)) = S (calls w)
  /\ requests (trace (snd (Current.attempt ids w))) =
     (requests (trace w) ++ [ids])%list
  /\ rateLimitSlot (snd (Current.attempt ids w)) <> Unparsable.
Proof.
  intros Hslot.
  pose proof (rateLimitCheck_returns 5 1000 w Hslot) as Hret.
  pose proof (Steady_rateLimitCheck 5 1000 w) as Hext.
  destruct (Silent_rateLimitCheck 5 1000 w) as [Hcalls Hreqs].
  assert (Hattempt :
            Current.attempt ids w =
            axios ids (elapse 500 (Sleep Pacing 500)
                         (snd (rateLimitCheck 5 1000 w)))).
  { unfold Current.attempt, bind, on_settle at 1.
    destruct (rateLimitCheck 5 1000 w) as [c w0]. simpl in Hret. subst c.
    unfold on_settle, sleep. cbn [snd].
    now destruct (axios ids (elapse 500 (Sleep Pacing 500) w0)) as [[r|e|] w2]. }
  rewrite Hattempt.
  set (w0 := snd (rateLimitCheck 5 1000 w)) in *.
  destruct (axios_exact ids (elapse 500 (Sleep Pacing 500) w0))
    as (Hax & Hc & Hr & Hs).
  rewrite Hc, Hr, Hs, Hax. cbn [fst elapse net calls trace rateLimitSlot].
  rewrite requests_app, Hcalls, Hreqs, (ext_net _ _ Hext).
  cbn [requests flat_map requestOf app]. rewrite app_nil_r.
  repeat split; auto. exact (ext_parsable _ _ Hext Hslot).
Qed.

Lemma attempt_unparsable ids w :
  rateLimitSlot w = Unparsable ->
  Current.attempt ids w = (Throw SyntaxError, w).
Proof.
  intros Hslot. unfold Current.attempt, bind, on_settle at 1, rateLimitCheck.
  now rewrite Hslot.
Qed.

(** What one failed attempt, the head of the [catch] block and the backoff
    wait leave behind: one more request, one more backoff wait, the same
    provider, a readable counter. *)
Lemma failed_attempt_then_wait ids backoff w error w1 :
  rateLimitSlot w <> Unparsable ->
  Current.attempt ids w = (Throw error, w1) ->
  let w3 := snd (Current.backoffWait backoff (snd (Current.on429 error w1))) in
  calls w3 = S (calls w)
  /\ net w3 = net w
  /\ rateLimitSlot w3 <> Unparsable
  /\ requests (trace w3) = (requests (trace w) ++ [ids])%list
  /\ length (backoffWaits (trace w3)) = S (length (backoffWaits (trace w))).
Proof.
  intros Hslot Hattempt w3.
  destruct (attempt_exact ids w Hslot) as (_ & Hcalls & Hreqs & Hslot1).
  pose proof (Steady_attempt ids w) as Hext1.
  destruct (Quiet_attempt ids w) as [Hq1 _].
  rewrite Hattempt in Hcalls, Hreqs, Hslot1, Hext1, Hq1. cbn [snd] in *.
  pose proof (Steady_on429 error w1) as Hext2.
  destruct (Silent_on429 error w1) as [Hc2 Hr2].
  destruct (Quiet_on429 error w1) as [Hq2 _].
  set (w2 := snd (Current.on429 error w1)) in *.
  pose proof (Steady_backoffWait backoff w2) as Hext3.
  destruct (Silent_backoffWait backoff w2) as [Hc3 Hr3].
  fold w3 in Hext3, Hc3, Hr3.
  repeat split.
  - congruence.
  - rewrite (ext_net _ _ Hext3), (ext_net _ _ Hext2). apply (ext_net _ _ Hext1).
  - apply (ext_parsable _ _ Hext3), (ext_parsable _ _ Hext2), Hslot1.
  - congruence.
  - subst w3. unfold Current.backoffWait. simpl.
    rewrite backoffWaits_app, length_app. simpl.
    rewrite Nat.add_1_r. f_equal.
    change (length (backoffWaits (trace w2)) = length (backoffWaits (trace w))).
    congruence.
Qed.

(** After [k] rejected requests the fetcher is where a call with [k] retries
    fewer would start, [k] requests and [k] backoff waits later. *)
Lemma fetchWithRetry_after_failures ids k :
  forall retries backoff w,
    rateLimitSlot w <> Unparsable ->
    rejectedFor k w ->
    exists backoff' w',
      Current.fetchWithRetry ids (k + retries) backoff w =
      Current.fetchWithRetry ids retries backoff' w'
      /\ calls w' = (calls w + k)%nat
      /\ net w' = net w
      /\ rateLimitSlot w' <> Unparsable
      /\ requests (trace w') = (requests (trace w) ++ repeat ids k)%list
      /\ length (backoffWaits (trace w')) =
         (length (backoffWaits (trace w)) + k)%nat.
Proof.
  induction k as [|k IH]; intros retries backoff w Hslot Hrej.
  - exists backoff, w. cbn [repeat Nat.add]. rewrite app_nil_r, !Nat.add_0_r.
    now repeat split.
  - destruct (Hrej O ltac:(lia)) as (s & m & Hfirst).
    rewrite Nat.add_0_r in Hfirst.
    destruct (attempt_exact ids w Hslot) as (Hfst & _).
    unfold settle in Hfst. rewrite Hfirst in Hfst.
    destruct (Current.attempt ids w) as [c w1] eqn:Hattempt.
    cbn [fst] in Hfst. subst c.
    destruct (failed_attempt_then_wait ids backoff w _ w1 Hslot Hattempt)
      as (Hc & Hn & Hs & Hr & Hb).
    set (w3 := snd (Current.backoffWait backoff
                      (snd (Current.on429 (AxiosError s m) w1)))) in *.
    destruct (IH retries (Z.min (backoff * 2) 30000) w3 Hs)
      as (backoff' & w' & Heq & Hc' & Hn' & Hs' & Hr' & Hb').
    { intros i Hi. rewrite Hn, Hc.
      replace (S (calls w) + i)%nat with (calls w + S i)%nat by lia.
      apply Hrej. lia. }
    exists backoff', w'. split; [|repeat split].
    + rewrite <- Heq. cbn [Nat.add].
      rewrite (fetchWithRetry_step ids (S (k + retries)) backoff w), Hattempt.
      reflexivity.
    + lia.
    + congruence.
    + exact Hs'.
    + rewrite Hr', Hr, <- app_assoc. reflexivity.
    + lia.
Qed.

(** [k] rejections, then a response. *)
Lemma fetchWithRetry_returns_after ids retries backoff w k response :
  rateLimitSlot w <> Unparsable ->
  (k <= retries)%nat ->
  rejectedFor k w ->
  outcome (net w (calls w + k)) = Resolved response ->
  let r := Current.fetchWithRetry ids retries backoff w in
  fst r = Return response
  /\ calls (snd r) = (calls w + S k)%nat
  /\ requests (trace (snd r)) = (requests (trace w) ++ repeat ids (S k))%list
  /\ length (backoffWaits (trace (snd r))) =
     (length (backoffWaits (trace w)) + k)%nat.
Proof.
  intros Hslot Hk Hrej Hres r. subst r.
  replace retries with (k + (retries - k))%nat by lia.
  destruct (fetchWithRetry_after_failures ids k (retries - k) backoff w
              Hslot Hrej)
    as (backoff' & w' & Heq & Hc & Hn & Hs & Hr & Hb).
  rewrite Heq, fetchWithRetry_step.
  destruct (attempt_exact ids w' Hs) as (Hfst & Hc1 & Hr1 & _).
  destruct (Quiet_attempt ids w') as [Hq _].
  unfold settle in Hfst. rewrite Hn, Hc, Hres in Hfst.
  destruct (Current.attempt ids w') as [c w1]. cbn [fst snd] in *. subst c.
  cbn [fst snd]. repeat split.
  - lia.
  - rewrite Hr1, Hr, <- app_assoc. f_equal.
    change [ids] with (repeat ids 1). rewrite <- repeat_app.
    f_equal. lia.
  - congruence.
Qed.

(** X10: a request that fails [k] times and then resolves, with [k] within
    the retries the call was given, makes [fetchWithRetry] of the current
    revision return that response after exactly [k + 1] requests for the same
    instruments and [k] backoff waits. *)
Theorem retry_until_success ids retries backoff w k response :
  rateLimitSlot w <> Unparsable ->
  (k <= retries)%nat ->
  rejectedFor k w ->
  outcome (net w (calls w + k)) = Resolved response ->
  let r := Current.fetchWithRetry ids retries backoff w in
  fst r = Return response
  /\ calls (snd r) = (calls w + S k)%nat
  /\ requests (trace (snd r)) = (requests (trace w) ++ repeat ids (S k))%list
  /\ length (backoffWaits (trace (snd r))) =
     (length (backoffWaits (trace w)) + k)%nat.
Proof. exact (fetchWithRetry_returns_after ids retries backoff w k response). Qed.

Lemma retry_until_success_witness :
  let w := Scenario.world Scenario.offlineOnce Absent Absent in
  let r := Current.fetchWithRetry Current.PAX_GOLD 1 3000 w in
  fst r = Return (mkResponse 200 None
                    [Scenario.bitcoin; Scenario.ethereum; Scenario.paxGold])
  /\ calls (snd r) = 2%nat
  /\ requests (trace (snd r)) = [Current.PAX_GOLD; Current.PAX_GOLD]
  /\ length (backoffWaits (trace (snd r))) = 1%nat.
Proof.
  apply (retry_until_success Current.PAX_GOLD 1 3000
           (Scenario.world Scenario.offlineOnce Absent Absent) 1).
  - discriminate.
  - lia.
  - intros i Hi. assert (i = O) by lia. subst i. now eexists _, _.
  - reflexivity.
Defined.

(** One rejection more than there are retries. *)
Lemma fetchWithRetry_throws_after ids retries backoff w :
  rateLimitSlot w <> Unparsable ->
  rejectedFor (S retries) w ->
  let r := Current.fetchWithRetry ids retries backoff w in
  (exists s m,
      outcome (net w (calls w + retries)) = Rejected s m
      /\ fst r = Throw (AxiosError s m))
  /\ calls (snd r) = (calls w + S retries)%nat
  /\ requests (trace (snd r)) =
     (requests (trace w) ++ repeat ids (S retries))%list
  /\ length (backoffWaits (trace (snd r))) =
     (length (backoffWaits (trace w)) + retries)%nat.
Proof.
  intros Hslot Hrej r. subst r.
  destruct (Hrej retries ltac:(lia)) as (s & m & Hlast).
  destruct (fetchWithRetry_after_failures ids retries 0 backoff w Hslot)
    as (backoff' & w' & Heq & Hc & Hn & Hs & Hr & Hb).
  { intros i Hi. apply Hrej. lia. }
  rewrite Nat.add_0_r in Heq. rewrite Heq, fetchWithRetry_step.
  destruct (attempt_exact ids w' Hs) as (Hfst & Hc1 & Hr1 & _).
  destruct (Quiet_attempt ids w') as [Hq _].
  unfold settle in Hfst. rewrite Hn, Hc, Hlast in Hfst.
  destruct (Current.attempt ids w') as [c w1]. cbn [fst snd] in *. subst c.
  destruct (Silent_on429 (AxiosError s m) w1) as [Hc2 Hr2].
  destruct (Quiet_on429 (AxiosError s m) w1) as [Hq2 _].
  cbv zeta. cbn [fst snd]. split; [|repeat split].
  - exists s, m. now split.
  - lia.
  - rewrite Hr2, Hr1, Hr, <- app_assoc. f_equal.
    change [ids] with (repeat ids 1). rewrite <- repeat_app.
    f_equal. lia.
  - congruence.
Qed.

(** X11: when the request is rejected [retries + 1] times in a row,
    [fetchWithRetry] of the current revision throws the error of the last
    attempt, after exactly [retries + 1] requests and [retries] backoff
    waits. *)
Theorem gives_up_with_last_error ids retries backoff w :
  rateLimitSlot w <> Unparsable ->
  rejectedFor (S retries) w ->
  let r := Current.fetchWithRetry ids retries backoff w in
  (exists s m,
      outcome (net w (calls w + retries)) = Rejected s m
      /\ fst r = Throw (AxiosError s m))
  /\ calls (snd r) = (calls w + S retries)%nat
  /\ requests (trace (snd r)) =
     (requests (trace w) ++ repeat ids (S retries))%list
  /\ length (backoffWaits (trace (snd r))) =
     (length (backoffWaits (trace w)) + retries)%nat.
Proof. exact (fetchWithRetry_throws_after ids retries backoff w). Qed.

Lemma gives_up_with_last_error_witness :
  let w := Scenario.world Scenario.throttledOnce Absent Absent in
  let r := Current.fetchWithRetry Current.PAX_GOLD 1 3000 w in
  (exists s m,
      outcome (net w (calls w + 1)) = Rejected s m
      /\ fst r = Throw (AxiosError s m))
  /\ calls (snd r) = 2%nat
  /\ requests (trace (snd r)) = [Current.PAX_GOLD; Current.PAX_GOLD]
  /\ length (backoffWaits (trace (snd r))) = 1%nat.
Proof.
  apply (gives_up_with_last_error Current.PAX_GOLD 1 3000
           (Scenario.world Scenario.throttledOnce Absent Absent)).
  - discriminate.
  - intros i Hi. destruct i as [|i]; now eexists _, _.
Defined.

(** ** The fallback to the id [gold] *)

(** The second call of [fetchWithRetry] is made only when the first one
    throws. *)
Lemma request_first_returns w response :
  fst (Current.fetchWithRetry Current.PAX_GOLD Current.MAX_RETRIES
         Current.BASE_BACKOFF w) = Return response ->
  Current.request w =
  Current.fetchWithRetry Current.PAX_GOLD Current.MAX_RETRIES
    Current.BASE_BACKOFF w.
Proof.
  intros Hfst. unfold Current.request, try_catch, on_settle.
  destruct (Current.fetchWithRetry Current.PAX_GOLD Current.MAX_RETRIES
              Current.BASE_BACKOFF w) as [c w1].
  cbn [fst] in Hfst. now subst c.
Qed.

Lemma request_first_throws w e :
  fst (Current.fetchWithRetry Current.PAX_GOLD Current.MAX_RETRIES
         Current.BASE_BACKOFF w) = Throw e ->
  Current.request w =
  Current.fetchWithRetry Current.GOLD Current.MAX_RETRIES Current.BASE_BACKOFF
    (snd (Current.fetchWithRetry Current.PAX_GOLD Current.MAX_RETRIES
            Current.BASE_BACKOFF w)).
Proof.
  intros Hfst. unfold Current.request, try_catch, on_settle.
  destruct (Current.fetchWithRetry Current.PAX_GOLD Current.MAX_RETRIES
              Current.BASE_BACKOFF w) as [c w1].
  cbn [fst] in Hfst. now subst c.
Qed.

Lemma rejectedFor_later n k w w' :
  rejectedFor (n + k) w ->
  net w' = net w -> calls w' = (calls w + n)%nat ->
  rejectedFor k w'.
Proof.
  intros Hrej Hnet Hcalls i Hi. rewrite Hnet, Hcalls, <- Nat.add_assoc.
  apply Hrej. lia.
Qed.

Lemma rejectedFor_fewer n k w :
  rejectedFor n w -> (k <= n)%nat -> rejectedFor k w.
Proof. intros Hrej Hk i Hi. apply Hrej. lia. Qed.

(** X12: when both attempts for [pax-gold] are rejected and the provider
    then answers after [k] more rejections, [k] within the retries, the
    request of the current revision returns that answer: two requests naming
    [pax-gold], then [k + 1] naming [gold], and [1 + k] backoff waits. *)
Theorem gold_fallback w k response :
  rateLimitSlot w <> Unparsable ->
  (k <= Current.MAX_RETRIES)%nat ->
  rejectedFor (2 + k) w ->
  outcome (net w (calls w + (2 + k))) = Resolved response ->
  let r := Current.request w in
  fst r = Return response
  /\ calls (snd r) = (calls w + (3 + k))%nat
  /\ requests (trace (snd r)) =
     (requests (trace w)
      ++ [Current.PAX_GOLD; Current.PAX_GOLD] ++ repeat Current.GOLD (S k))%list
  /\ length (backoffWaits (trace (snd r))) =
     (length (backoffWaits (trace w)) + (1 + k))%nat.
Proof.
  intros Hslot Hk Hrej Hres r. subst r.
  destruct (fetchWithRetry_throws_after Current.PAX_GOLD Current.MAX_RETRIES
              Current.BASE_BACKOFF w Hslot)
    as ((s & m & _ & Hfst) & Hc & Hr & Hb).
  { apply (rejectedFor_fewer (2 + k)); [exact Hrej | unfold Current.MAX_RETRIES; lia]. }
  rewrite (request_first_throws w _ Hfst).
  pose proof (Steady_fetchWithRetry Current.PAX_GOLD Current.MAX_RETRIES
                Current.BASE_BACKOFF w) as Hext.
  set (w1 := snd (Current.fetchWithRetry Current.PAX_GOLD Current.MAX_RETRIES
                    Current.BASE_BACKOFF w)) in *.
  unfold Current.MAX_RETRIES in Hc, Hr, Hb.
  destruct (fetchWithRetry_returns_after Current.GOLD Current.MAX_RETRIES
              Current.BASE_BACKOFF w1 k response)
    as (Hfst' & Hc' & Hr' & Hb').
  - exact (ext_parsable _ _ Hext Hslot).
  - exact Hk.
  - apply (rejectedFor_later 2 k w w1 Hrej (ext_net _ _ Hext) Hc).
  - rewrite (ext_net _ _ Hext), Hc, <- Nat.add_assoc. exact Hres.
  - repeat split.
    + exact Hfst'.
    + lia.
    + rewrite Hr', Hr, <- app_assoc. reflexivity.
    + lia.
Qed.

Lemma gold_fallback_witness :
  let w := Scenario.world Scenario.paxGoldDown Absent Absent in
  let r := Current.request w in
  fst r = Return (mkResponse 200 None
                    [Scenario.bitcoin; Scenario.ethereum; Scenario.gold])
  /\ calls (snd r) = 3%nat
  /\ requests (trace (snd r)) =
     [Current.PAX_GOLD; Current.PAX_GOLD; Current.GOLD]
  /\ length (backoffWaits (trace (snd r))) = 1%nat.
Proof.
  apply (gold_fallback (Scenario.world Scenario.paxGoldDown Absent Absent) 0).
  - discriminate.
  - unfold Current.MAX_RETRIES. lia.
  - intros i Hi. destruct i as [|[|i]]; [now eexists _, _ ..|lia].
  - reflexivity.
Defined.

(** A response that resolves is not asked for again, complete or not. *)
Lemma derive_incomplete goldOf goldPricePerOz response w :
  byId (data response) "bitcoin" = None
  \/ byId (data response) "ethereum" = None
  \/ goldOf (byId (data response)) = None ->
  derive goldOf goldPricePerOz response w = (Throw IncompleteData, w).
Proof.
  unfold derive. intros [H|[H|H]]; rewrite H.
  - reflexivity.
  - now destruct (byId (data response) "bitcoin").
  - now destruct (byId (data response) "bitcoin"),
      (byId (data response) "ethereum").
Qed.

(** X13: when the first request of a refresh of the current revision
    resolves with a response that lacks bitcoin, ether or both gold ids, the
    refresh fails on that response: the error message is published and the
    request naming [pax-gold] is the only one made; the fallback naming
    [gold] is not tried. *)
Theorem incomplete_response_no_fallback during h w response :
  isMounted h = true ->
  Current.getCachedData w = None ->
  rateLimitSlot w <> Unparsable ->
  outcome (net w (calls w)) = Resolved response ->
  byId (data response) "bitcoin" = None
  \/ byId (data response) "ethereum" = None
  \/ Current.goldOf (byId (data response)) = None ->
  let result := Current.fetchBtcPrice false during (h, w) in
  requests (trace (snd result)) = (requests (trace w) ++ [Current.PAX_GOLD])%list
  /\ calls (snd result) = S (calls w)
  /\ error (fst result) = Some FETCH_FAILED.
Proof.
  intros Hm Hnone Hslot Hres Hlack result.
  assert (Hskip : skips Current.CACHE_DURATION (Current.getCachedData w)
                    (clock w) = false)
    by now apply current_proceeds_uncached.
  destruct (fetchWithRetry_returns_after Current.PAX_GOLD Current.MAX_RETRIES
              Current.BASE_BACKOFF w 0 response Hslot)
    as (Hfst & Hc & Hr & _).
  { lia. }
  { intros i Hi. lia. }
  { now rewrite Nat.add_0_r. }
  pose proof (request_first_returns w response Hfst) as Hsame.
  rewrite <- Hsame in Hfst, Hc, Hr. clear Hsame.
  destruct (Current.request w) as [c w1] eqn:Hreq. cbn [fst snd] in *. subst c.
  assert (Hfail : (response <- Current.request ;;
                   derive Current.goldOf Current.goldPricePerOz response) w =
                  (Throw IncompleteData, w1)).
  { unfold bind, on_settle. rewrite Hreq. now apply derive_incomplete. }
  unfold result, Current.fetchBtcPrice.
  rewrite (fetchBtcPrice_failure _ _ _ _ _ during h w _ w1 Hm Hskip Hfail).
  cbn [fst snd].
  destruct (meanwhile_world during
              (atAwait (Current.getCachedData w) h, w1))
    as (_ & Hcalls & Htrace & _).
  unfold Current.getCachedData in *.
  rewrite Htrace, Hcalls. cbn [snd]. split; [|split].
  - exact Hr.
  - lia.
  - destruct (finally_keeps
                (onFailure Current.CACHE_DURATION
                   (meanwhile during
                      (atAwait (getCachedData Current.CACHE_DURATION w) h, w1))))
      as (_ & He & _).
    rewrite He. apply onFailure_cases.
Qed.

Lemma incomplete_response_no_fallback_witness :
  let w := Scenario.world (fun _ => Scenario.noEther) Absent Absent in
  let result :=
    Current.fetchBtcPrice false [] (Scenario.mounted Current.initialItems, w) in
  requests (trace (snd result)) = [Current.PAX_GOLD]
  /\ calls (snd result) = 1%nat
  /\ error (fst result) = Some FETCH_FAILED.
Proof.
  apply (incomplete_response_no_fallback []
           (Scenario.mounted Current.initialItems)
           (Scenario.world (fun _ => Scenario.noEther) Absent Absent)
           (mkResponse 200 None [Scenario.bitcoin; Scenario.paxGold])).
  - reflexivity.
  - reflexivity.
  - discriminate.
  - reflexivity.
  - right. left. reflexivity.
Defined.

(** ** How many requests a refresh can make *)

Lemma attempt_calls_le ids w :
  (calls (snd (Current.attempt ids w)) <= S (calls w))%nat.
Proof.
  destruct (rateLimitSlot w) as [| |rl] eqn:Hslot.
  - destruct (attempt_exact ids w) as (_ & Hc & _); [congruence | lia].
  - rewrite (attempt_unparsable ids w Hslot). cbn [snd]. lia.
  - destruct (attempt_exact ids w) as (_ & Hc & _); [congruence | lia].
Qed.

Lemma fetchWithRetry_calls_le ids retries :
  forall backoff w,
    (calls (snd (Current.fetchWithRetry ids retries backoff w))
     <= calls w + S retries)%nat.
Proof.
  induction retries as [|retries IH]; intros backoff w;
    rewrite fetchWithRetry_step;
    pose proof (attempt_calls_le ids w) as Hattempt;
    destruct (Current.attempt ids w) as [[response|error|] w1];
    cbn [snd] in *; try lia;
    destruct (Silent_on429 error w1) as [Hc2 _].
  - cbv zeta. cbn [snd]. lia.
  - cbv zeta.
    destruct (Silent_backoffWait backoff (snd (Current.on429 error w1)))
      as [Hc3 _].
    specialize (IH (Z.min (backoff * 2) 30000)
                  (snd (Current.backoffWait backoff
                          (snd (Current.on429 error w1))))).
    lia.
Qed.

Lemma request_calls_le w :
  (calls (snd (Current.request w)) <= calls w + 4)%nat.
Proof.
  unfold Current.request, try_catch, on_settle.
  pose proof (fetchWithRetry_calls_le Current.PAX_GOLD Current.MAX_RETRIES
                Current.BASE_BACKOFF w) as H1.
  destruct (Current.fetchWithRetry Current.PAX_GOLD Current.MAX_RETRIES
              Current.BASE_BACKOFF w) as [[response|error|] w1];
    unfold Current.MAX_RETRIES, ret in *; cbn [snd] in *; try lia.
  pose proof (fetchWithRetry_calls_le Current.GOLD 1 Current.BASE_BACKOFF w1).
  lia.
Qed.

(** X14: whatever the provider, the store and the other tasks do, one call
    of [fetchBtcPrice] of the current revision makes at most four
    requests. *)
Theorem refresh_makes_at_most_four_requests seen during h w :
  (calls (snd (Current.fetchBtcPrice seen during (h, w))) <= calls w + 4)%nat.
Proof.
  unfold Current.fetchBtcPrice.
  destruct (isMounted h) eqn:Hm;
    [|rewrite fetchBtcPrice_unmounted by exact Hm; cbn [snd]; lia].
  destruct seen; [rewrite fetchBtcPrice_loading; cbn [snd]; lia|].
  destruct (skips Current.CACHE_DURATION
              (getCachedData Current.CACHE_DURATION w) (clock w)) eqn:Hskip.
  - unfold skips in Hskip.
    destruct (getCachedData Current.CACHE_DURATION w) as [c|] eqn:Hc;
      [|discriminate].
    apply Z.ltb_lt in Hskip.
    rewrite (fetchBtcPrice_skips _ _ _ _ _ during h w c Hm Hc Hskip).
    cbn [snd]. lia.
  - rewrite (proceeding_calls _ _ _ _ _ during h w Hm Hskip).
    apply request_calls_le.
Qed.

(** ** A rate-limit entry that does not parse *)

Section WorldAfterRefresh.
Variable CACHE_DURATION : Z.
Variable FRESH_WINDOW : Z.
Variable goldOf : (string -> option Coin.t) -> option Coin.t.
Variable goldPricePerOz : float -> float.
Variable request : Eff Response.

Abbreviation refresh :=
  (fetchBtcPrice CACHE_DURATION FRESH_WINDOW goldOf goldPricePerOz request).
Abbreviation run :=
  (cycles CACHE_DURATION FRESH_WINDOW goldOf goldPricePerOz request).

(** Outside the store, a refresh leaves the world as it found it or as its
    request left it. *)
Lemma refresh_world seen during h w :
  let w' := snd (refresh seen during (h, w)) in
  (calls w' = calls w /\ trace w' = trace w
   /\ rateLimitSlot w' = rateLimitSlot w)
  \/ (calls w' = calls (snd (request w))
      /\ trace w' = trace (snd (request w))
      /\ rateLimitSlot w' = rateLimitSlot (snd (request w))).
Proof.
  intros w'. subst w'.
  destruct (isMounted h) eqn:Hm;
    [|rewrite fetchBtcPrice_unmounted by exact Hm; now left].
  destruct seen; [rewrite fetchBtcPrice_loading; now left|].
  destruct (skips FRESH_WINDOW (getCachedData CACHE_DURATION w) (clock w))
    eqn:Hskip.
  - unfold skips in Hskip.
    destruct (getCachedData CACHE_DURATION w) as [c|] eqn:Hc; [|discriminate].
    apply Z.ltb_lt in Hskip.
    rewrite (fetchBtcPrice_skips _ _ _ _ _ during h w c Hm Hc Hskip).
    now left.
  - right.
    rewrite (fetchBtcPrice_proceeds _ _ _ _ _ during h w Hm Hskip).
    unfold bind, on_settle.
    destruct (request w) as [[response|e|] w1]; cbn [snd];
      [rewrite (derive_pure goldOf goldPricePerOz response w1);
       destruct (fst (derive goldOf goldPricePerOz response w1))
      |unfold throw|];
      destruct (meanwhile_world during
                  (atAwait (getCachedData CACHE_DURATION w) h, w1))
        as (_ & Hcalls & Htrace & Hslot);
      cbn [fst snd]; unfold onSuccess, saveToCache, set_cache;
      cbn [fst snd calls trace rateLimitSlot]; auto.
Qed.

(** The entry stays unread by the request, which then makes no request. *)
Hypothesis request_blocked :
  forall w,
    rateLimitSlot w = Unparsable ->
    calls (snd (request w)) = calls w
    /\ requests (trace (snd (request w))) = requests (trace w)
    /\ rateLimitSlot (snd (request w)) = Unparsable.

Lemma cycles_blocked cs :
  forall h w,
    rateLimitSlot w = Unparsable ->
    calls (snd (run cs (h, w))) = calls w
    /\ requests (trace (snd (run cs (h, w)))) = requests (trace w)
    /\ rateLimitSlot (snd (run cs (h, w))) = Unparsable.
Proof.
  unfold cycles.
  induction cs as [|c rest IH]; intros h w Hslot; simpl; [tauto|].
  change (cycle CACHE_DURATION FRESH_WINDOW goldOf goldPricePerOz request
            (h, w) c)
    with (refresh (isLoading_seen c) (during c) (h, pass (idle c) w)).
  assert (Hpass : rateLimitSlot (pass (idle c) w) = Unparsable) by exact Hslot.
  destruct (request_blocked _ Hpass) as (Hb1 & Hb2 & Hb3).
  pose proof (refresh_world (isLoading_seen c) (during c) h (pass (idle c) w))
    as Hworld. cbv zeta in Hworld.
  destruct (refresh (isLoading_seen c) (during c) (h, pass (idle c) w))
    as [h' w'].
  cbn [snd] in Hworld.
  assert (H : calls w' = calls w /\ requests (trace w') = requests (trace w)
              /\ rateLimitSlot w' = Unparsable).
  { destruct Hworld as [(H1 & H2 & H3)|(H1 & H2 & H3)];
      rewrite H1, H2, H3; [now repeat split | now rewrite Hb1, Hb2]. }
  destruct H as (H1 & H2 & H3).
  destruct (IH h' w' H3) as (I1 & I2 & I3).
  rewrite I1, I2, I3. tauto.
Qed.

End WorldAfterRefresh.

(** The fetcher of the current revision catches the parse error like any
    other: it retries, each time after a backoff wait, and throws it in the
    end, without a request. *)
Lemma fetchWithRetry_unparsable ids retries :
  forall backoff w,
    rateLimitSlot w = Unparsable ->
    let r := Current.fetchWithRetry ids retries backoff w in
    fst r = Throw SyntaxError
    /\ calls (snd r) = calls w
    /\ requests (trace (snd r)) = requests (trace w)
    /\ rateLimitSlot (snd r) = Unparsable
    /\ length (backoffWaits (trace (snd r))) =
       (length (backoffWaits (trace w)) + retries)%nat.
Proof.
  induction retries as [|retries IH]; intros backoff w Hslot r; subst r;
    rewrite fetchWithRetry_step, (attempt_unparsable ids w Hslot);
    rewrite (on429_other SyntaxError w eq_refl); cbv zeta; cbn [fst snd].
  - rewrite Nat.add_0_r. now repeat split.
  - destruct (Silent_backoffWait backoff w) as [Hc Hr].
    set (w1 := snd (Current.backoffWait backoff w)) in *.
    assert (Hslot1 : rateLimitSlot w1 = Unparsable) by exact Hslot.
    assert (Hb : length (backoffWaits (trace w1)) =
                 S (length (backoffWaits (trace w)))).
    { subst w1. unfold Current.backoffWait. simpl.
      rewrite backoffWaits_app, length_app. simpl. lia. }
    destruct (IH (Z.min (backoff * 2) 30000) w1 Hslot1)
      as (I1 & I2 & I3 & I4 & I5).
    repeat split; try congruence. lia.
Qed.

Lemma request_unparsable w :
  rateLimitSlot w = Unparsable ->
  fst (Current.request w) = Throw SyntaxError
  /\ calls (snd (Current.request w)) = calls w
  /\ requests (trace (snd (Current.request w))) = requests (trace w)
  /\ rateLimitSlot (snd (Current.request w)) = Unparsable
  /\ length (backoffWaits (trace (snd (Current.request w)))) =
     (length (backoffWaits (trace w)) + 2)%nat.
Proof.
  intros Hslot.
  destruct (fetchWithRetry_unparsable Current.PAX_GOLD Current.MAX_RETRIES
              Current.BASE_BACKOFF w Hslot) as (H1 & H2 & H3 & H4 & H5).
  rewrite (request_first_throws w _ H1).
  destruct (fetchWithRetry_unparsable Current.GOLD Current.MAX_RETRIES
              Current.BASE_BACKOFF _ H4) as (G1 & G2 & G3 & G4 & G5).
  unfold Current.MAX_RETRIES in *.
  repeat split; try congruence. lia.
Qed.

Lemma fetchWithRetry_earlier_unparsable fuel ids retries backoff w :
  rateLimitSlot w = Unparsable ->
  Earlier.fetchWithRetry (S fuel) ids retries backoff w = (Throw SyntaxError, w).
Proof.
  intros Hslot. cbn [Earlier.fetchWithRetry].
  unfold bind at 1, on_settle at 1, rateLimitCheck. now rewrite Hslot.
Qed.

Lemma request_blocked_current w :
  rateLimitSlot w = Unparsable ->
  calls (snd (Current.request w)) = calls w
  /\ requests (trace (snd (Current.request w))) = requests (trace w)
  /\ rateLimitSlot (snd (Current.request w)) = Unparsable.
Proof. intros Hslot. destruct (request_unparsable w Hslot); tauto. Qed.

Lemma request_blocked_earlier fuel w :
  rateLimitSlot w = Unparsable ->
  calls (snd (Earlier.request fuel w)) = calls w
  /\ requests (trace (snd (Earlier.request fuel w))) = requests (trace w)
  /\ rateLimitSlot (snd (Earlier.request fuel w)) = Unparsable.
Proof.
  intros Hslot. unfold Earlier.request. destruct fuel as [|fuel].
  - now repeat split.
  - rewrite fetchWithRetry_earlier_unparsable by exact Hslot. now repeat split.
Qed.

(** X15: with a rate-limit entry in the store that does not parse, a refresh
    of the current revision that reaches its request fails without making
    one: both calls of [fetchWithRetry] retry the parse error, which costs
    two backoff waits, the error message is published, and the entry is
    left as it is. *)
Theorem corrupt_counter_fails_refresh during h w :
  isMounted h = true ->
  Current.getCachedData w = None ->
  rateLimitSlot w = Unparsable ->
  let result := Current.fetchBtcPrice false during (h, w) in
  error (fst result) = Some FETCH_FAILED
  /\ calls (snd result) = calls w
  /\ requests (trace (snd result)) = requests (trace w)
  /\ length (backoffWaits (trace (snd result))) =
     (length (backoffWaits (trace w)) + 2)%nat
  /\ rateLimitSlot (snd result) = Unparsable.
Proof.
  intros Hm Hnone Hslot result.
  assert (Hskip : skips Current.CACHE_DURATION (Current.getCachedData w)
                    (clock w) = false)
    by now apply current_proceeds_uncached.
  destruct (request_unparsable w Hslot) as (H1 & H2 & H3 & H4 & H5).
  destruct (Current.request w) as [c w1] eqn:Hreq. cbn [fst snd] in *. subst c.
  assert (Hfail : (response <- Current.request ;;
                   derive Current.goldOf Current.goldPricePerOz response) w =
                  (Throw SyntaxError, w1)).
  { unfold bind, on_settle. now rewrite Hreq. }
  unfold result, Current.fetchBtcPrice.
  rewrite (fetchBtcPrice_failure _ _ _ _ _ during h w _ w1 Hm Hskip Hfail).
  cbn [fst snd].
  destruct (meanwhile_world during
              (atAwait (Current.getCachedData w) h, w1))
    as (_ & Hcalls & Htrace & Hrl).
  unfold Current.getCachedData in *.
  rewrite Htrace, Hcalls, Hrl. cbn [snd]. split; [|now repeat split].
  destruct (finally_keeps
              (onFailure Current.CACHE_DURATION
                 (meanwhile during
                    (atAwait (getCachedData Current.CACHE_DURATION w) h, w1))))
    as (_ & He & _).
  rewrite He. apply onFailure_cases.
Qed.

Lemma corrupt_counter_fails_refresh_witness :
  let w := Scenario.world (fun _ => Scenario.quotes) Unparsable Absent in
  let result :=
    Current.fetchBtcPrice false [] (Scenario.mounted Current.initialItems, w) in
  error (fst result) = Some FETCH_FAILED
  /\ calls (snd result) = 0%nat
  /\ requests (trace (snd result)) = []
  /\ length (backoffWaits (trace (snd result))) = 2%nat
  /\ rateLimitSlot (snd result) = Unparsable.
Proof.
  apply (corrupt_counter_fails_refresh []
           (Scenario.mounted Current.initialItems)
           (Scenario.world (fun _ => Scenario.quotes) Unparsable Absent));
    reflexivity.
Defined.

(** X16: a rate-limit entry that does not parse is never rewritten by a
    refresh of either revision, so from then on no sequence of refreshes
    makes a request, whatever the closures see, the store holds and the
    other tasks do. *)
Theorem corrupt_counter_stops_requests :
  (forall cs h w,
      rateLimitSlot w = Unparsable ->
      calls (snd (Current.cycles cs (h, w))) = calls w
      /\ requests (trace (snd (Current.cycles cs (h, w)))) = requests (trace w)
      /\ rateLimitSlot (snd (Current.cycles cs (h, w))) = Unparsable)
  /\ (forall fuel cs h w,
        rateLimitSlot w = Unparsable ->
        calls (snd (Earlier.cycles fuel cs (h, w))) = calls w
        /\ requests (trace (snd (Earlier.cycles fuel cs (h, w)))) =
           requests (trace w)
        /\ rateLimitSlot (snd (Earlier.cycles fuel cs (h, w))) = Unparsable).
Proof.
  split.
  - intros cs h w. apply cycles_blocked. exact request_blocked_current.
  - intros fuel cs h w. apply cycles_blocked.
    exact (request_blocked_earlier fuel).
Qed.

Lemma corrupt_counter_stops_requests_witness :
  let w := Scenario.world (fun _ => Scenario.quotes) Unparsable Absent in
  let cs := [mkCycle 0 false []; mkCycle 300000 false []] in
  let s := Current.cycles cs (Scenario.mounted Current.initialItems, w) in
  calls (snd s) = 0%nat /\ requests (trace (snd s)) = []
  /\ rateLimitSlot (snd s) = Unparsable.
Proof.
  destruct corrupt_counter_stops_requests as [Hcurrent _].
  apply (Hcurrent [mkCycle 0 false []; mkCycle 300000 false []]
           (Scenario.mounted Current.initialItems)
           (Scenario.world (fun _ => Scenario.quotes) Unparsable Absent)).
  reflexivity.
Defined.

(** X17: in the earlier revision the rate-limit entry is parsed outside the
    [try] block: an entry that does not parse makes [fetchWithRetry] throw
    at once, with no request, no wait and no retry, and the refresh that
    called it publishes the error message at the time it started. *)
Theorem corrupt_counter_throws_at_once fuel during h w :
  isMounted h = true ->
  skips Earlier.FRESH_WINDOW (Earlier.getCachedData w) (clock w) = false ->
  rateLimitSlot w = Unparsable ->
  let result := Earlier.fetchBtcPrice (S fuel) false during (h, w) in
  (forall ids retries backoff,
      Earlier.fetchWithRetry (S fuel) ids retries backoff w =
      (Throw SyntaxError, w))
  /\ error (fst result) = Some FETCH_FAILED
  /\ trace (snd result) = trace w
  /\ clock (snd result) = clock w.
Proof.
  intros Hm Hskip Hslot result. split.
  { intros ids retries backoff.
    now apply fetchWithRetry_earlier_unparsable. }
  assert (Hfail : (response <- Earlier.request (S fuel) ;;
                   derive Earlier.goldOf Earlier.goldPricePerOz response) w =
                  (Throw SyntaxError, w)).
  { unfold bind, on_settle, Earlier.request.
    now rewrite fetchWithRetry_earlier_unparsable. }
  unfold result, Earlier.fetchBtcPrice.
  rewrite (fetchBtcPrice_failure _ _ _ _ _ during h w _ w Hm Hskip Hfail).
  cbn [fst snd].
  destruct (meanwhile_world during
              (atAwait (Earlier.getCachedData w) h, w))
    as (Hclock & _ & Htrace & _).
  unfold Earlier.getCachedData in *.
  rewrite Htrace, Hclock. cbn [snd]. split; [|now split].
  destruct (finally_keeps
              (onFailure Earlier.CACHE_DURATION
                 (meanwhile during
                    (atAwait (getCachedData Earlier.CACHE_DURATION w) h, w))))
    as (_ & He & _).
  rewrite He. apply onFailure_cases.
Qed.

Lemma corrupt_counter_throws_at_once_witness :
  let w := Scenario.world (fun _ => Scenario.quotes) Unparsable Absent in
  let result :=
    Earlier.fetchBtcPrice 3 false [] (Scenario.mounted Earlier.initialItems, w) in
  (forall ids retries backoff,
      Earlier.fetchWithRetry 3 ids retries backoff w = (Throw SyntaxError, w))
  /\ error (fst result) = Some FETCH_FAILED
  /\ trace (snd result) = trace w
  /\ clock (snd result) = clock w.
Proof.
  apply (corrupt_counter_throws_at_once 2 []
           (Scenario.mounted Earlier.initialItems)
           (Scenario.world (fun _ => Scenario.quotes) Unparsable Absent));
    reflexivity.
Defined.

(** ** A response of status 429 in the earlier revision *)

Lemma fetchWithRetry_earlier_429 fuel ids retries backoff w response :
  rateLimitSlot w <> Unparsable ->
  outcome (net w (calls w)) = Resolved response ->
  status response = 429 ->
  exists w',
    Earlier.fetchWithRetry (S fuel) ids retries backoff w =
    Earlier.fetchWithRetry fuel ids retries (backoff * 2) w'
    /\ calls w' = S (calls w)
    /\ net w' = net w
    /\ rateLimitSlot w' <> Unparsable
    /\ requests (trace w') = (requests (trace w) ++ [ids])%list.
Proof.
  intros Hslot Hres Hstatus.
  pose proof (rateLimitCheck_returns 10 0 w Hslot) as Hret.
  pose proof (Steady_rateLimitCheck 10 0 w) as Hext.
  destruct (Silent_rateLimitCheck 10 0 w) as [Hcalls Hreqs].
  destruct (rateLimitCheck 10 0 w) as [c w0] eqn:Hcheck.
  cbn [fst snd] in *. subst c.
  destruct (axios_exact ids w0) as (Hax & Hc & Hr & Hs).
  unfold settle in Hax.
  rewrite (ext_net _ _ Hext), Hcalls, Hres in Hax.
  exists (elapse (Earlier.retryAfter response)
            (Sleep Cooldown (Earlier.retryAfter response))
            (snd (axios ids w0))).
  split; [|repeat split].
  - cbn [Earlier.fetchWithRetry]. unfold bind at 1, on_settle at 1.
    rewrite Hcheck. unfold on_settle at 1. rewrite Hax.
    apply Z.eqb_eq in Hstatus. rewrite Hstatus.
    unfold bind, on_settle, sleep. reflexivity.
  - cbn [elapse calls]. congruence.
  - cbn [elapse net]. pose proof (Steady_axios ids w0) as Hext1.
    rewrite (ext_net _ _ Hext1). apply (ext_net _ _ Hext).
  - cbn [elapse rateLimitSlot]. rewrite Hs.
    apply (ext_parsable _ _ Hext Hslot).
  - cbn [elapse trace]. rewrite requests_app, Hr, Hreqs. cbn.
    now rewrite app_nil_r.
Qed.

(** X18: in the earlier revision a response that resolves with status 429
    calls [fetchWithRetry] again with [retries] as it was; if the provider
    keeps resolving with 429 the fetcher makes a request after each wait and
    never settles, whatever number of retries it was given: after any number
    [fuel] of requests it is still pending. *)
Theorem resolved_429_never_settles fuel ids :
  forall retries backoff w,
    rateLimitSlot w <> Unparsable ->
    always429 w ->
    let r := Earlier.fetchWithRetry fuel ids retries backoff w in
    fst r = Pending
    /\ calls (snd r) = (calls w + fuel)%nat
    /\ requests (trace (snd r)) = (requests (trace w) ++ repeat ids fuel)%list.
Proof.
  induction fuel as [|fuel IH]; intros retries backoff w Hslot Hall r; subst r.
  - cbn [Earlier.fetchWithRetry pending fst snd repeat].
    rewrite app_nil_r, Nat.add_0_r. now repeat split.
  - destruct (Hall (calls w)) as (response & Hres & Hstatus).
    destruct (fetchWithRetry_earlier_429 fuel ids retries backoff w response
                Hslot Hres Hstatus)
      as (w' & Heq & Hc & Hn & Hs & Hr).
    rewrite Heq.
    destruct (IH retries (backoff * 2) w' Hs) as (I1 & I2 & I3).
    { intros n. rewrite Hn. apply Hall. }
    repeat split.
    + exact I1.
    + lia.
    + rewrite I3, Hr, <- app_assoc. reflexivity.
Qed.

Lemma resolved_429_never_settles_witness :
  let w := Scenario.world (fun _ => Scenario.resolved429) Absent Absent in
  let r := Earlier.fetchWithRetry 20 Earlier.PAX_GOLD 0 2000 w in
  fst r = Pending
  /\ calls (snd r) = 20%nat
  /\ requests (trace (snd r)) = repeat Earlier.PAX_GOLD 20.
Proof.
  apply (resolved_429_never_settles 20 Earlier.PAX_GOLD 0 2000
           (Scenario.world (fun _ => Scenario.resolved429) Absent Absent)).
  - discriminate.
  - intros n. now eexists.
Defined.

(** ** Indexing the response by id *)

Lemma byId_snoc data coin key :
  byId (data ++ [coin]) key =
  if String.eqb key (Coin.id coin) then Some coin else byId data key.
Proof. unfold byId. now rewrite fold_left_app. Qed.

(** The entry an id is looked up to is the last one of that id. *)
Lemma byId_find data key :
  byId data key = find (fun coin => String.eqb key (Coin.id coin)) (rev data).
Proof.
  induction data as [|coin rest IH] using rev_ind; [reflexivity|].
  rewrite byId_snoc, rev_app_distr. cbn [rev app find].
  now rewrite IH.
Qed.

Lemma byId_carries response key :
  carries key response = true <->
  exists coin, byId (data response) key = Some coin.
Proof.
  unfold carries. rewrite byId_find. split.
  - intros H. apply existsb_exists in H. destruct H as (coin & Hin & Heq).
    destruct (find (fun coin => String.eqb key (Coin.id coin))
                (rev (data response))) as [c|] eqn:Hfind; [now exists c|].
    apply in_rev in Hin.
    pose proof (find_none _ _ Hfind coin Hin) as Hno. cbv beta in Hno.
    congruence.
  - intros (coin & Hfind). apply find_some in Hfind.
    apply existsb_exists. exists coin. split; [|tauto].
    apply in_rev. tauto.
Qed.

Lemma byId_carries_not response key :
  carries key response = false <-> byId (data response) key = None.
Proof.
  pose proof (byId_carries response key) as H.
  destruct (carries key response), (byId (data response) key) as [c|];
    split; intros E; try discriminate; try reflexivity.
  - destruct H as [H _]. destruct (H eq_refl). discriminate.
  - destruct H as [_ H]. assert (false = true) by (apply H; now exists c).
    discriminate.
Qed.

(** X19: the items are derived exactly when the response lists bitcoin,
    ether and gold (under [pax-gold] or [gold] in the current revision, under
    [pax-gold] only in the earlier one), wherever and however often; then
    they are the four items [btc-usd], [btc-eur], [btc-eth], [gold-usd];
    otherwise the refresh throws, and a response with [gold] alone is enough
    for the current revision but not for the earlier one. An instrument
    listed twice counts with its last entry. *)
Theorem derive_needs_three_instruments response w :
  let both := carries "bitcoin" response && carries "ethereum" response in
  let current :=
    both && (carries "pax-gold" response || carries "gold" response) in
  let earlier := both && carries "pax-gold" response in
  (current = true ->
   exists items,
     derive Current.goldOf Current.goldPricePerOz response w = (Return items, w)
     /\ map id items = ["btc-usd"; "btc-eur"; "btc-eth"; "gold-usd"])
  /\ (current = false ->
      derive Current.goldOf Current.goldPricePerOz response w =
      (Throw IncompleteData, w))
  /\ (earlier = true ->
      exists items,
        derive Earlier.goldOf Earlier.goldPricePerOz response w =
        (Return items, w)
        /\ map id items = ["btc-usd"; "btc-eur"; "btc-eth"; "gold-usd"])
  /\ (earlier = false ->
      derive Earlier.goldOf Earlier.goldPricePerOz response w =
      (Throw IncompleteData, w))
  /\ (forall before coin,
        data response = (before ++ [coin])%list ->
        byId (data response) (Coin.id coin) = Some coin).
Proof.
  intros both current earlier. subst both current earlier.
  pose proof (byId_carries response "bitcoin") as Hb.
  pose proof (byId_carries response "ethereum") as He.
  pose proof (byId_carries response "pax-gold") as Hp.
  pose proof (byId_carries response "gold") as Hg.
  pose proof (byId_carries_not response "bitcoin") as Nb.
  pose proof (byId_carries_not response "ethereum") as Ne.
  pose proof (byId_carries_not response "pax-gold") as Np.
  pose proof (byId_carries_not response "gold") as Ng.
  unfold derive, Current.goldOf, Earlier.goldOf.
  destruct (carries "bitcoin" response);
    [destruct Hb as [Hb _]; destruct (Hb eq_refl) as (b & Eb)
    |destruct Nb as [Nb _]; specialize (Nb eq_refl)];
    (destruct (carries "ethereum" response);
     [destruct He as [He _]; destruct (He eq_refl) as (e & Ee)
     |destruct Ne as [Ne _]; specialize (Ne eq_refl)]);
    (destruct (carries "pax-gold" response);
     [destruct Hp as [Hp _]; destruct (Hp eq_refl) as (p & Ep)
     |destruct Np as [Np _]; specialize (Np eq_refl)]);
    (destruct (carries "gold" response);
     [destruct Hg as [Hg _]; destruct (Hg eq_refl) as (g & Eg)
     |destruct Ng as [Ng _]; specialize (Ng eq_refl)]);
    cbn [andb orb];
    repeat match goal with
           | H : byId (data response) _ = _ |- _ => rewrite H
           end;
    (split; [|split; [|split; [|split]]]);
    try discriminate; try (intros _; reflexivity);
    try (intros _; eexists; split; reflexivity);
    intros before coin Hdata; rewrite Hdata, byId_snoc;
    now rewrite String.eqb_refl.
Qed.

Lemma derive_needs_three_instruments_witness :
  (exists items,
      derive Current.goldOf Current.goldPricePerOz Scenario.repeated
        Scenario.fresh = (Return items, Scenario.fresh)
      /\ map id items = ["btc-usd"; "btc-eur"; "btc-eth"; "gold-usd"])
  /\ byId (data Scenario.repeated) "bitcoin" = Some Scenario.bitcoinLater.
Proof.
  destruct (derive_needs_three_instruments Scenario.repeated Scenario.fresh)
    as (Hcurrent & _ & _ & _ & Hlast).
  split.
  - apply Hcurrent. reflexivity.
  - apply (Hlast [Scenario.bitcoin; Scenario.gold; Scenario.ethereum;
                  Scenario.paxGold] Scenario.bitcoinLater).
    reflexivity.
Defined.

(** ** The closure of [fetchBtcPrice] *)

(** Every render hands out the callbacks of the first one. *)
Lemma renders_first n :
  renders n =
  (O, mkMemo (Some (O, [])) (Some (O, [])) (Some (O, [O; O]))).
Proof. induction n as [|n IH]; [reflexivity|]. simpl. now rewrite IH. Qed.

(** X20: [fetchBtcPrice] is made by [useCallback] with the dependencies
    [saveToCache] and [updateTickerItems], themselves made with none, so
    every render hands out the function of the first render, inside which
    [isLoading] is the initial [true]; whatever the state has become since,
    a call of it returns at the test of [isLoading]: no state is set, the
    store is not read, no request is made. This holds for both revisions. *)
Theorem refresh_never_proceeds later n during s :
  fst (renders n) = O
  /\ Current.fetchBtcPrice (isLoading_inside Current.initialHook later n)
       during s = s
  /\ (forall fuel,
        Earlier.fetchBtcPrice fuel
          (isLoading_inside Earlier.initialHook later n) during s = s).
Proof.
  unfold isLoading_inside. rewrite renders_first. cbn [fst stateAt nth].
  destruct s as [h w]. split; [reflexivity|split].
  - apply fetchBtcPrice_loading.
  - intros fuel. apply fetchBtcPrice_loading.
Qed.

(** ** The price calculator *)

(** A number minus itself is a zero, or [NaN]: never above zero. *)
Lemma sub_self_not_positive (v : float) : (0 <? v - v)%float = false.
Proof.
  rewrite ltb_spec, sub_spec.
  change (Prim2SF 0) with (S754_zero false).
  destruct (Prim2SF v) as [s|s| |s m e].
  - now destruct s.
  - now destruct s.
  - reflexivity.
  - unfold SF64sub, SFsub. cbv zeta. rewrite Z.sub_diag. reflexivity.
Qed.

(** X21: when the two prices entered are the same number, the investment
    difference of the calculator is not above zero, so it names price 2 the
    better deal. *)
Theorem equal_prices_favour_second p investment currency r :
  Calculator.calculations p p investment currency = Some r ->
  (0 <? Calculator.investmentDiff r)%float = false
  /\ Calculator.betterDeal r = 2.
Proof.
  unfold Calculator.calculations.
  destruct (negb (truthy p) || negb (truthy p) || negb (truthy investment));
    [discriminate|].
  intros H. injection H as <-. cbn [Calculator.investmentDiff Calculator.betterDeal].
  now rewrite sub_self_not_positive.
Qed.

Lemma equal_prices_favour_second_witness :
  match Calculator.calculations 98500 98500 1000 Calculator.EUR with
  | Some r => Calculator.betterDeal r = 2
  | None => False
  end.
Proof.
  destruct (Calculator.calculations 98500 98500 1000 Calculator.EUR)
    as [r|] eqn:E.
  - apply (equal_prices_favour_second 98500 1000 Calculator.EUR r E).
  - vm_compute in E. discriminate E.
Defined.

(** * Binary64 arithmetic of the jitter *)

(** ** Shifting a mantissa to the right *)

Lemma iter_pos_nat {A} (f : A -> A) p :
  forall x, iter_pos f p x = Nat.iter (Pos.to_nat p) f x.
Proof.
  induction p as [p IH|p IH|]; intros x; cbn [iter_pos].
  - rewrite !IH, Pos2Nat.inj_xI, <- Nat.iter_succ_r.
    replace (S (2 * Pos.to_nat p))%nat
      with (Pos.to_nat p + S (Pos.to_nat p))%nat by lia.
    now rewrite Nat.iter_add.
  - rewrite !IH, Pos2Nat.inj_xO.
    replace (2 * Pos.to_nat p)%nat with (Pos.to_nat p + Pos.to_nat p)%nat by lia.
    now rewrite Nat.iter_add.
  - reflexivity.
Qed.

Lemma shr_1_step mrs :
  0 <= shr_m mrs ->
  shr_m (shr_1 mrs) = shr_m mrs / 2
  /\ shr_r (shr_1 mrs) = Z.odd (shr_m mrs).
Proof.
  destruct mrs as [m r s]. cbn [shr_m]. intros Hm.
  destruct m as [|[p|p|]|p]; try lia; cbn [shr_1 shr_m shr_r].
  - now split.
  - split; [|reflexivity]. rewrite Pos2Z.inj_xI.
    apply (Z.div_unique _ _ _ 1); lia.
  - split; [|reflexivity]. rewrite Pos2Z.inj_xO.
    apply (Z.div_unique _ _ _ 0); lia.
  - now split.
Qed.

(** After [k] shifts the mantissa is the quotient by [2^k], and the round bit
    is set only when the part shifted out is at least half of [2^k]. *)
Lemma shr_iter P (k : nat) :
  0 <= P ->
  shr_m (Nat.iter k shr_1 (Build_shr_record P false false)) = P / 2 ^ Z.of_nat k
  /\ (shr_r (Nat.iter k shr_1 (Build_shr_record P false false)) = true ->
      (1 <= k)%nat /\ 2 ^ (Z.of_nat k - 1) <= P mod 2 ^ Z.of_nat k).
Proof.
  intros HP. induction k as [|k IH].
  - cbn. split; [now rewrite Z.div_1_r | discriminate].
  - rewrite !Nat.iter_succ. destruct IH as [IHm _].
    set (mrs := Nat.iter k shr_1 (Build_shr_record P false false)) in *.
    assert (Ha : 0 < 2 ^ Z.of_nat k) by (apply Z.pow_pos_nonneg; lia).
    assert (H0 : 0 <= shr_m mrs).
    { rewrite IHm. apply Z.div_pos; [exact HP | exact Ha]. }
    destruct (shr_1_step mrs H0) as [Hm Hr].
    assert (Hpow : 2 ^ Z.of_nat (S k) = 2 ^ Z.of_nat k * 2).
    { rewrite Nat2Z.inj_succ, Z.pow_succ_r by lia. lia. }
    split.
    + rewrite Hm, IHm, Hpow, Z.div_div by lia. reflexivity.
    + rewrite Hr, IHm. intros Hodd. split; [lia|].
      replace (Z.of_nat (S k) - 1) with (Z.of_nat k) by lia.
      rewrite Hpow.
      set (a := 2 ^ Z.of_nat k) in *.
      pose proof (Z.div_mod P a ltac:(lia)) as Hdm.
      pose proof (Z.mod_pos_bound P a Ha) as Hs.
      apply Zodd_bool_iff in Hodd. apply Zodd_ex in Hodd.
      destruct Hodd as [q Hq].
      rewrite <- (Z.mod_unique_pos P (a * 2) q (a + P mod a)); nia.
Qed.

Lemma shr_spec P e n mrs e' :
  0 <= P ->
  shr (Build_shr_record P false false) e n = (mrs, e') ->
  e' = e + Z.max n 0
  /\ shr_m mrs = P / 2 ^ Z.max n 0
  /\ (shr_r mrs = true -> 0 < n /\ 2 ^ (n - 1) <= P mod 2 ^ n).
Proof.
  intros HP. destruct n as [|p|p]; cbn [shr]; intros H; injection H as <- <-.
  - cbn. rewrite Z.div_1_r. repeat split; try lia; discriminate.
  - rewrite iter_pos_nat.
    destruct (shr_iter P (Pos.to_nat p) HP) as [Hm Hr].
    rewrite positive_nat_Z in Hm, Hr.
    rewrite Z.max_l by lia.
    split; [reflexivity|split; [exact Hm|]]. intros H. split; [lia|now apply Hr].
  - cbn. rewrite Z.div_1_r. repeat split; try lia; discriminate.
Qed.

(** Rounding to nearest goes up only from the upper half. *)
Lemma round_nearest_even_bound mrs :
  let m' := round_nearest_even (shr_m mrs) (loc_of_shr_record mrs) in
  shr_m mrs <= m' <= shr_m mrs + 1 /\ (m' = shr_m mrs + 1 -> shr_r mrs = true).
Proof.
  destruct mrs as [m [|] [|]]; cbn; try destruct (Z.even m); split; try lia;
    try reflexivity; intros; lia.
Qed.

(** ** Number of digits *)

Lemma digits2_size p : digits2_pos p = Pos.size p.
Proof. induction p; cbn; congruence. Qed.

Lemma digits2_bounds p :
  2 ^ (Zpos (digits2_pos p) - 1) <= Zpos p < 2 ^ Zpos (digits2_pos p).
Proof.
  rewrite digits2_size.
  pose proof (Pos.size_gt p) as Hgt. pose proof (Pos.size_le p) as Hle.
  apply Pos2Z.pos_lt_pos in Hgt. apply Pos2Z.pos_le_pos in Hle.
  rewrite Pos2Z.inj_pow in Hgt, Hle.
  change (Z.pos p~0) with (2 * Z.pos p) in Hle.
  split; [|exact Hgt].
  assert (Hs : 2 ^ Zpos (Pos.size p) = 2 * 2 ^ (Zpos (Pos.size p) - 1)).
  { rewrite <- Z.pow_succ_r by lia. f_equal. lia. }
  lia.
Qed.

Lemma digits2_le p k : 0 <= k -> Zpos p < 2 ^ k -> Zpos (digits2_pos p) <= k.
Proof.
  intros Hk Hp. destruct (digits2_bounds p) as [Hlo _].
  destruct (Z_le_gt_dec (Zpos (digits2_pos p)) k) as [|Hgt]; [assumption|].
  assert (2 ^ k <= 2 ^ (Zpos (digits2_pos p) - 1))
    by (apply Z.pow_le_mono_r; lia).
  lia.
Qed.

(** ** A product rounded to nearest stays below a bound it keeps clear of *)

Lemma round_aux_below (P : positive) (Ex B : Z) :
  Zpos P < 2 ^ 106 -> -1117 <= Ex <= -96 ->
  Zpos P + 2 ^ 52 < B * 2 ^ (- Ex) ->
  match binary_round_aux prec emax false (Zpos P) Ex loc_Exact with
  | S754_zero s => s = false
  | S754_finite s m e => s = false /\ e < 0 /\ Zpos m < B * 2 ^ (- e)
  | _ => False
  end.
Proof.
  intros HP HEx HB. unfold binary_round_aux, shr_fexp.
  cbn [shr_record_of_loc Zdigits2].
  set (d := Zpos (digits2_pos P)).
  assert (Hd : d <= 106) by (apply digits2_le; [lia | exact HP]).
  destruct (digits2_bounds P) as [_ Hdhi]. fold d in Hdhi.
  set (n := fexp prec emax (d + Ex) - Ex).
  assert (Hn : n = Z.max (d - 53) (-1074 - Ex)).
  { unfold n, fexp, SpecFloat.emin, prec, emax. lia. }
  destruct (shr (Build_shr_record (Zpos P) false false) Ex n) as [mrs e1] eqn:E1.
  destruct (shr_spec _ _ _ _ _ (Pos2Z.is_nonneg P) E1) as (He1 & Hm1 & Hr1).
  destruct (round_nearest_even_bound mrs) as [Hmr Hup].
  set (mr := round_nearest_even (shr_m mrs) (loc_of_shr_record mrs)) in *.
  set (a := 2 ^ Z.max n 0) in *.
  assert (Ha : 0 < a) by (apply Z.pow_pos_nonneg; lia).
  assert (Hm1lo : 0 <= shr_m mrs) by (rewrite Hm1; apply Z.div_pos; lia).
  (* the mantissa after rounding, scaled back, is within half a unit *)
  assert (Hscaled : mr * a <= Zpos P + 2 ^ 52).
  { pose proof (Z.div_mod (Zpos P) a ltac:(lia)) as Hdm.
    pose proof (Z.mod_pos_bound (Zpos P) a Ha) as Hrem.
    rewrite <- Hm1 in Hdm.
    destruct (Z.eq_dec mr (shr_m mrs + 1)) as [Hone|Hsame].
    - destruct (Hr1 (Hup Hone)) as [Hnpos Hhalf].
      unfold a in *. rewrite Z.max_l in * by lia.
      assert (H2 : 2 ^ n = 2 * 2 ^ (n - 1)).
      { rewrite <- Z.pow_succ_r by lia. f_equal. lia. }
      assert (2 ^ (n - 1) <= 2 ^ 52) by (apply Z.pow_le_mono_r; lia).
      nia.
    - assert (mr = shr_m mrs) by lia.
      assert (0 < 2 ^ 52) by (apply Z.pow_pos_nonneg; lia). nia. }
  assert (Hmrhi : mr <= 2 ^ 53).
  { assert (shr_m mrs < 2 ^ 53); [|lia]. rewrite Hm1.
    apply Z.div_lt_upper_bound; [exact Ha|].
    apply Z.lt_le_trans with (2 ^ d); [exact Hdhi|].
    unfold a. rewrite <- Z.pow_add_r by lia. apply Z.pow_le_mono_r; lia. }
  assert (He1hi : e1 <= -43) by lia.
  assert (He1lo : -1074 <= e1) by lia.
  assert (Hd2 : Zdigits2 mr <= 54).
  { destruct mr as [|p|p]; cbn [Zdigits2]; try lia.
    apply digits2_le; [lia|]. apply Z.le_lt_trans with (2 ^ 53); [exact Hmrhi|].
    apply Z.pow_lt_mono_r; lia. }
  set (n2 := fexp prec emax (Zdigits2 mr + e1) - e1).
  assert (Hn2 : n2 <= 1).
  { unfold n2, fexp, SpecFloat.emin, prec, emax. lia. }
  destruct (shr (Build_shr_record mr false false) e1 n2) as [mrs2 e2] eqn:E2.
  assert (Hmrlo : 0 <= mr) by lia.
  destruct (shr_spec _ _ _ _ _ Hmrlo E2) as (He2 & Hm2 & _).
  set (b := 2 ^ Z.max n2 0) in *.
  assert (Hb : 0 < b) by (apply Z.pow_pos_nonneg; lia).
  assert (Hm2b : shr_m mrs2 * b <= mr).
  { rewrite Hm2. pose proof (Z.mul_div_le mr b Hb). lia. }
  assert (Hm2lo : 0 <= shr_m mrs2) by (rewrite Hm2; apply Z.div_pos; lia).
  destruct (shr_m mrs2) as [|m|m] eqn:Em; [reflexivity| |lia].
  assert (He2neg : e2 < 0) by lia.
  replace (e2 <=? emax - prec) with true
    by (symmetry; apply Z.leb_le; unfold emax, prec; lia).
  split; [reflexivity|split; [exact He2neg|]].
  set (c := 2 ^ (- e2)).
  assert (Hc : 0 < c) by (apply Z.pow_pos_nonneg; lia).
  assert (Hsplit : 2 ^ (- Ex) = c * a * b).
  { unfold c, a, b. rewrite <- !Z.pow_add_r by lia. f_equal. lia. }
  rewrite Hsplit in HB.
  destruct (Z_lt_le_dec (Zpos m) (B * c)) as [Hlt|Hge]; [exact Hlt|exfalso].
  assert (H1 : B * c * b <= mr).
  { apply Z.le_trans with (Zpos m * b); [|exact Hm2b].
    apply Z.mul_le_mono_nonneg_r; lia. }
  assert (H2 : B * c * b * a <= mr * a)
    by (apply Z.mul_le_mono_nonneg_r; lia).
  replace (B * (c * a * b)) with (B * c * b * a) in HB by ring.
  lia.
Qed.

(** ** [Math.random() * 1000] *)

Lemma valid_finite m e :
  valid_binary (S754_finite false m e) = true ->
  Zpos (digits2_pos m) <= 53 /\ -1074 <= e
  /\ (-1074 < e -> Zpos (digits2_pos m) = 53).
Proof.
  cbn [valid_binary]. unfold bounded, canonical_mantissa.
  intros H. apply andb_prop in H. destruct H as [H _].
  apply Z.eqb_eq in H. unfold fexp, SpecFloat.emin, prec, emax in H. lia.
Qed.

Lemma SF_1000 : Prim2SF 1000 = S754_finite false 8796093022208000 (-43).
Proof. vm_compute. reflexivity. Qed.

Lemma SF_1 : Prim2SF 1 = S754_finite false 4503599627370496 (-52).
Proof. vm_compute. reflexivity. Qed.

Lemma SF_0 : Prim2SF 0 = S754_zero false.
Proof. vm_compute. reflexivity. Qed.

Lemma pow2_values :
  2 ^ 42 = 4398046511104 /\ 2 ^ 43 = 8796093022208
  /\ 2 ^ 52 = 4503599627370496 /\ 2 ^ 53 = 9007199254740992
  /\ 2 ^ 96 = 79228162514264337593543950336
  /\ 2 ^ 106 = 81129638414606681695789005144064.
Proof. repeat split; vm_compute; reflexivity. Qed.

Lemma compare_cont_lt m c :
  PosDef.Pos.compare_cont Eq m c = Lt <-> Zpos m < Zpos c.
Proof.
  rewrite Pos.compare_cont_spec. cbn [Pos.switch_Eq].
  destruct (Pos.compare_spec m c) as [E|E|E].
  - subst c. split; [intros H; discriminate H | lia].
  - apply Pos2Z.pos_lt_pos in E. tauto.
  - apply Pos2Z.pos_lt_pos in E. split; [intros H; discriminate H | lia].
Qed.

Lemma below_one m e :
  valid_binary (S754_finite false m e) = true ->
  SFltb (S754_finite false m e) (Prim2SF 1) = true ->
  e <= -53 /\ Zpos m < 2 ^ 53.
Proof.
  intros Hvalid Hlt. destruct (valid_finite m e Hvalid) as (Hd & Hlo & Hnormal).
  destruct (digits2_bounds m) as [Hmlo Hmhi].
  destruct pow2_values as (_ & _ & E52 & _).
  split.
  - rewrite SF_1 in Hlt.
    unfold SFltb, SFcompare in Hlt.
    destruct (Z.compare_spec e (-52)) as [He|He|He];
      [|lia|discriminate Hlt].
    subst e. rewrite Hnormal in Hmlo by lia.
    replace (53 - 1) with 52 in Hmlo by lia. rewrite E52 in Hmlo.
    destruct (PosDef.Pos.compare_cont Eq m 4503599627370496) eqn:Ecmp;
      try discriminate Hlt.
    pose proof (proj1 (compare_cont_lt _ _) Ecmp). lia.
  - apply Z.lt_le_trans with (2 ^ Zpos (digits2_pos m)); [exact Hmhi|].
    apply Z.pow_le_mono_r; lia.
Qed.

(** A draw of [Math.random()] times 1000, in binary64: at least 0 and below
    1000, and so is its integer part. *)
Lemma random_times_1000 (r : float) :
  (0 <=? r)%float = true -> (r <? 1)%float = true ->
  0 <= floorZ (r * 1000) <= 999
  /\ (0 <=? r * 1000)%float = true
  /\ (r * 1000 <? 1000)%float = true.
Proof.
  intros H0 H1. rewrite leb_spec in H0. rewrite ltb_spec in H1.
  pose proof (Prim2SF_valid r) as Hvalid.
  pose proof (Prim2SF_valid (r * 1000)) as Hvalid'.
  unfold floorZ. rewrite leb_spec, ltb_spec.
  rewrite mul_spec in Hvalid' |- *.
  rewrite SF_0 in H0 |- *. rewrite SF_1000 in Hvalid' |- *.
  destruct pow2_values as (E42 & E43 & E52 & E53 & E96 & E106).
  destruct (Prim2SF r) as [s|s| |s m e].
  - destruct s; cbn; repeat split; lia.
  - destruct s; discriminate.
  - discriminate H0.
  - destruct s; [discriminate H0|].
    destruct (below_one m e Hvalid H1) as [He Hm].
    destruct (valid_finite m e Hvalid) as (_ & Hlo & _).
    unfold SF64mul in Hvalid' |- *. cbn [SFmul xorb] in Hvalid' |- *.
    assert (H96 : 2 ^ 96 <= 2 ^ (- (e + -43))) by (apply Z.pow_le_mono_r; lia).
    rewrite E96 in H96. rewrite E53 in Hm.
    assert (Hround := round_aux_below (m * 8796093022208000) (e + -43) 1000).
    assert (HP : Z.pos (m * 8796093022208000) < 2 ^ 106)
      by (rewrite Pos2Z.inj_mul, E106; lia).
    assert (HB : Z.pos (m * 8796093022208000) + 2 ^ 52
                 < 1000 * 2 ^ (- (e + -43)))
      by (rewrite Pos2Z.inj_mul, E52; lia).
    specialize (Hround HP ltac:(lia) HB). clear HP HB.
    destruct (binary_round_aux prec emax false
                (Z.pos (m * 8796093022208000)) (e + -43) loc_Exact)
      as [s'|s'| |s' m' e']; try contradiction.
    + subst s'. cbn. repeat split; lia.
    + destruct Hround as (-> & He' & Hm').
      assert (Hpow : 0 < 2 ^ (- e')) by (apply Z.pow_pos_nonneg; lia).
      replace (0 <=? e') with false by (symmetry; apply Z.leb_gt; lia).
      cbn [cond_Zopp]. split; [|split].
      * split; [apply Z.div_pos; lia|].
        assert (Z.pos m' / 2 ^ (- e') < 1000); [|lia].
        apply Z.div_lt_upper_bound; lia.
      * reflexivity.
      * destruct (valid_finite m' e' Hvalid') as (Hd' & Hlo' & Hnormal').
        unfold SFltb, SFcompare.
        destruct (Z.compare_spec e' (-43)) as [He43|He43|He43].
        -- subst e'. replace (- -43) with 43 in Hm' by lia. rewrite E43 in Hm'.
           assert (Hlt : PosDef.Pos.compare_cont Eq m' 8796093022208000 = Lt)
             by (apply compare_cont_lt; lia).
           now rewrite Hlt.
        -- reflexivity.
        -- exfalso. destruct (digits2_bounds m') as [Hm'lo _].
           rewrite Hnormal' in Hm'lo by lia.
           assert (H42 : 2 ^ (- e') <= 2 ^ 42) by (apply Z.pow_le_mono_r; lia).
           replace (53 - 1) with 52 in Hm'lo by lia.
           rewrite E52 in Hm'lo. rewrite E42 in H42. nia.
Qed.

(** * The backoff schedule *)

Lemma jitters_in_range random n k :
  (forall i, (0 <=? random i)%float = true /\ (random i <? 1)%float = true) ->
  Forall inJitterRange (map floorZ (jittersFrom random n k))
  /\ Forall inJitterRangeF (jittersFrom random n k).
Proof.
  intros Hunit. revert n.
  induction k as [|k IH]; intros n; cbn [jittersFrom map];
    [split; constructor|].
  destruct (Hunit n) as [H0 H1].
  destruct (random_times_1000 (random n) H0 H1) as (Hfloor & Hlo & Hhi).
  destruct (IH (S n)) as [IHz IHf].
  split; constructor; auto.
  - unfold inJitterRange. lia.
  - now split.
Qed.

Lemma length_jittersFrom random n k : length (jittersFrom random n k) = k.
Proof. revert n. induction k as [|k IH]; intros n; cbn; [|rewrite IH]; reflexivity. Qed.

(** ** What does not draw a random number *)

Lemma draws_on_settle {A B} (m : Eff A) (ok : A -> Eff B) ko :
  (forall w, draws (snd (m w)) = draws w) ->
  (forall a w, draws (snd (ok a w)) = draws w) ->
  (forall e w, draws (snd (ko e w)) = draws w) ->
  forall w, draws (snd (on_settle m ok ko w)) = draws w.
Proof.
  intros Hm Hok Hko w. unfold on_settle. specialize (Hm w).
  destruct (m w) as [[a|e|] w1]; cbn [snd] in *.
  - now rewrite Hok.
  - now rewrite Hko.
  - exact Hm.
Qed.

Lemma draws_rateLimitCheck ceiling buffer w :
  draws (snd (rateLimitCheck ceiling buffer w)) = draws w.
Proof.
  unfold rateLimitCheck.
  destruct (rateLimitSlot w) as [| |rl]; try reflexivity.
  destruct (clock w - timestamp rl >? RATE_LIMIT_WINDOW); [reflexivity|].
  destruct (count rl >=? ceiling); reflexivity.
Qed.

Lemma draws_axios ids w : draws (snd (axios ids w)) = draws w.
Proof. unfold axios. now destruct (outcome _). Qed.

Lemma draws_attempt ids w : draws (snd (Current.attempt ids w)) = draws w.
Proof.
  unfold Current.attempt, bind.
  apply draws_on_settle; [apply draws_rateLimitCheck | | reflexivity].
  intros _. apply draws_on_settle; [reflexivity | | reflexivity].
  intros _. apply draws_axios.
Qed.

Lemma draws_on429 error w : draws (snd (Current.on429 error w)) = draws w.
Proof. unfold Current.on429. now destruct (is429 error). Qed.

(** ** What neither asks nor backs off *)

Lemma steps_app a b : steps (a ++ b) = (steps a ++ steps b)%list.
Proof. apply flat_map_app. Qed.

Lemma Still_ret {A} (a : A) : Still (ret a).
Proof. intros w. reflexivity. Qed.

Lemma Still_throw {A} e : Still (@throw A e).
Proof. intros w. reflexivity. Qed.

Lemma Still_on_settle {A B} (m : Eff A) (ok : A -> Eff B) ko :
  Still m -> (forall a, Still (ok a)) -> (forall e, Still (ko e)) ->
  Still (on_settle m ok ko).
Proof.
  intros Hm Hok Hko w. unfold on_settle. specialize (Hm w).
  destruct (m w) as [[a|e|] w1]; cbn [snd] in *.
  - now rewrite Hok.
  - now rewrite Hko.
  - exact Hm.
Qed.

Lemma Still_bind {A B} (m : Eff A) (k : A -> Eff B) :
  Still m -> (forall a, Still (k a)) -> Still (bind m k).
Proof. intros Hm Hk. apply Still_on_settle; auto using @Still_throw. Qed.

Lemma Still_sleep site ms : site <> Backoff -> Still (sleep site ms).
Proof.
  intros Hsite w. unfold sleep. cbn [snd trace elapse].
  rewrite steps_app. destruct site; try contradiction; apply app_nil_r.
Qed.

Lemma Still_setRateLimit_now c : Still (fun w => setRateLimit (clock w) c w).
Proof. intros w. reflexivity. Qed.

Lemma Still_rateLimitCheck ceiling buffer :
  Still (rateLimitCheck ceiling buffer).
Proof.
  intros w. unfold rateLimitCheck.
  destruct (rateLimitSlot w) as [| |rl]; try reflexivity.
  destruct (clock w - timestamp rl >? RATE_LIMIT_WINDOW); [reflexivity|].
  destruct (count rl >=? ceiling); [|reflexivity].
  apply (Still_bind (sleep Admission _)
           (fun _ w1 => setRateLimit (clock w1) 1 w1)).
  - now apply Still_sleep.
  - intros _. apply Still_setRateLimit_now.
Qed.

Lemma Still_on429 error : Still (Current.on429 error).
Proof.
  unfold Current.on429. destruct (is429 error); [|apply Still_ret].
  apply Still_bind; [now apply Still_sleep | intros _].
  apply Still_setRateLimit_now.
Qed.

Lemma steps_axios ids w :
  steps (trace (snd (axios ids w))) = (steps (trace w) ++ [Asked ids])%list.
Proof.
  unfold axios. destruct (outcome (net w (calls w))); cbn [snd trace elapse];
    now rewrite steps_app.
Qed.

(** ** The current revision *)

(** With a readable counter an attempt is the request, half a second after
    the rate-limit check. *)
Lemma attempt_is_axios ids w :
  rateLimitSlot w <> Unparsable ->
  Current.attempt ids w =
  axios ids (elapse 500 (Sleep Pacing 500) (snd (rateLimitCheck 5 1000 w))).
Proof.
  intros Hslot. pose proof (rateLimitCheck_returns 5 1000 w Hslot) as Hret.
  unfold Current.attempt, bind, on_settle at 1.
  destruct (rateLimitCheck 5 1000 w) as [c w0]. simpl in Hret. subst c.
  unfold on_settle, sleep. cbn [snd].
  now destruct (axios ids (elapse 500 (Sleep Pacing 500) w0)) as [[r|e|] w2].
Qed.

Lemma attempt_ends_with_request ids w :
  rateLimitSlot w <> Unparsable ->
  exists tr, trace (snd (Current.attempt ids w)) = (tr ++ [Request ids])%list.
Proof.
  intros Hslot. rewrite (attempt_is_axios ids w Hslot). unfold axios.
  eexists. destruct (outcome _); cbn [snd trace elapse]; reflexivity.
Qed.

Lemma steps_attempt ids w :
  rateLimitSlot w <> Unparsable ->
  steps (trace (snd (Current.attempt ids w))) =
  (steps (trace w) ++ [Asked ids])%list.
Proof.
  intros Hslot. rewrite (attempt_is_axios ids w Hslot), steps_axios.
  cbn [trace elapse]. rewrite steps_app, (Still_rateLimitCheck 5 1000 w).
  cbn. now rewrite app_nil_r.
Qed.

Lemma backoffWait_exact backoff w :
  let w' := snd (Current.backoffWait backoff w) in
  steps (trace w') =
  (steps (trace w)
   ++ [Waited (backoff + floorZ (random w (draws w) * 1000)%float)])%list
  /\ draws w' = S (draws w)
  /\ random w' = random w.
Proof.
  unfold Current.backoffWait, bind, on_settle, Math_random, sleep.
  cbn [fst snd trace draws random elapse]. rewrite steps_app.
  repeat split.
Qed.

(** One failed attempt with a retry left: the head of the [catch] block,
    then the backoff wait. *)
Lemma failed_attempt_waits ids backoff w error w1 :
  rateLimitSlot w <> Unparsable ->
  Current.attempt ids w = (Throw error, w1) ->
  let w3 := snd (Current.backoffWait backoff (snd (Current.on429 error w1))) in
  steps (trace w3) =
  (steps (trace w)
   ++ [Asked ids;
       Waited (backoff + floorZ (random w (draws w) * 1000)%float)])%list
  /\ draws w3 = S (draws w)
  /\ random w3 = random w.
Proof.
  intros Hslot Hattempt w3.
  pose proof (Steady_attempt ids w) as Hext1.
  pose proof (steps_attempt ids w Hslot) as Hq1.
  pose proof (draws_attempt ids w) as Hd1.
  rewrite Hattempt in Hext1, Hq1, Hd1. cbn [snd] in *.
  pose proof (Steady_on429 error w1) as Hext2.
  pose proof (Still_on429 error w1) as Hq2.
  pose proof (draws_on429 error w1) as Hd2.
  set (w2 := snd (Current.on429 error w1)) in *.
  destruct (backoffWait_exact backoff w2) as (Hb & Hd & Hr).
  fold w3 in Hb, Hd, Hr.
  rewrite Hb, Hd, Hr, Hq2, Hq1, Hd2, Hd1.
  rewrite (ext_random _ _ Hext2), (ext_random _ _ Hext1), <- app_assoc.
  repeat split.
Qed.

(** After [k] rejected requests: [k] backoff waits, as the code computes
    them from the draws. *)
Lemma fetchWithRetry_failures_waits ids k :
  forall retries backoff w,
    rateLimitSlot w <> Unparsable ->
    rejectedFor k w ->
    exists backoff' w',
      Current.fetchWithRetry ids (k + retries) backoff w =
      Current.fetchWithRetry ids retries backoff' w'
      /\ calls w' = (calls w + k)%nat
      /\ net w' = net w
      /\ rateLimitSlot w' <> Unparsable
      /\ steps (trace w') =
         (steps (trace w)
          ++ retried ids
               (map Waited
                  (codeWaits backoff
                     (map floorZ (jittersFrom (random w) (draws w) k)))))%list.
Proof.
  induction k as [|k IH]; intros retries backoff w Hslot Hrej.
  - exists backoff, w. cbn [jittersFrom map codeWaits retried Nat.add].
    rewrite app_nil_r, Nat.add_0_r. now repeat split.
  - destruct (Hrej O ltac:(lia)) as (s & m & Hfirst).
    rewrite Nat.add_0_r in Hfirst.
    destruct (attempt_exact ids w Hslot) as (Hfst & _).
    unfold settle in Hfst. rewrite Hfirst in Hfst.
    destruct (Current.attempt ids w) as [c w1] eqn:Hattempt.
    cbn [fst] in Hfst. subst c.
    destruct (failed_attempt_then_wait ids backoff w _ w1 Hslot Hattempt)
      as (Hc & Hn & Hs & _).
    destruct (failed_attempt_waits ids backoff w _ w1 Hslot Hattempt)
      as (Hb & Hd & Hr).
    set (w3 := snd (Current.backoffWait backoff
                      (snd (Current.on429 (AxiosError s m) w1)))) in *.
    destruct (IH retries (Z.min (backoff * 2) 30000) w3 Hs)
      as (backoff' & w' & Heq & Hc' & Hn' & Hs' & Hb').
    { intros i Hi. rewrite Hn, Hc.
      replace (S (calls w) + i)%nat with (calls w + S i)%nat by lia.
      apply Hrej. lia. }
    exists backoff', w'. split; [|repeat split].
    + rewrite <- Heq. cbn [Nat.add].
      rewrite (fetchWithRetry_step ids (S (k + retries)) backoff w), Hattempt.
      reflexivity.
    + lia.
    + congruence.
    + exact Hs'.
    + rewrite Hb', Hb, Hd, Hr, <- !app_assoc. reflexivity.
Qed.

(** ** The earlier revision *)

Lemma backoffWait_earlier_exact backoff w :
  let w' := snd (Earlier.backoffWait backoff w) in
  steps (trace w') =
  (steps (trace w)
   ++ [WaitedFrac (Number_of backoff + random w (draws w) * 1000)%float])%list
  /\ draws w' = S (draws w)
  /\ random w' = random w
  /\ calls w' = calls w
  /\ net w' = net w
  /\ rateLimitSlot w' = rateLimitSlot w.
Proof.
  unfold Earlier.backoffWait, bind, on_settle, Math_random, sleepFrac.
  cbn [fst snd trace draws random elapse calls net rateLimitSlot].
  rewrite steps_app. repeat split.
Qed.

(** An attempt of the earlier revision that is rejected, from a readable
    counter: the world after the request. *)
Lemma rejected_attempt_earlier ids w s m :
  rateLimitSlot w <> Unparsable ->
  outcome (net w (calls w)) = Rejected s m ->
  let w1 := snd (axios ids (snd (rateLimitCheck 10 0 w))) in
  axios ids (snd (rateLimitCheck 10 0 w)) = (Throw (AxiosError s m), w1)
  /\ calls w1 = S (calls w)
  /\ net w1 = net w
  /\ rateLimitSlot w1 <> Unparsable
  /\ steps (trace w1) = (steps (trace w) ++ [Asked ids])%list
  /\ draws w1 = draws w
  /\ random w1 = random w
  /\ exists tr, trace w1 = (tr ++ [Request ids])%list.
Proof.
  intros Hslot Hrej w1.
  pose proof (Steady_rateLimitCheck 10 0 w) as Hext.
  destruct (Silent_rateLimitCheck 10 0 w) as [Hcalls _].
  pose proof (Still_rateLimitCheck 10 0 w) as Hquiet.
  pose proof (draws_rateLimitCheck 10 0 w) as Hdraws.
  set (w0 := snd (rateLimitCheck 10 0 w)) in *.
  destruct (axios_exact ids w0) as (Hax & Hc & _ & Hs).
  pose proof (Steady_axios ids w0) as Hext1.
  pose proof (steps_axios ids w0) as Hquiet1.
  pose proof (draws_axios ids w0) as Hdraws1.
  fold w1 in Hax, Hc, Hs, Hext1, Hquiet1, Hdraws1.
  unfold settle in Hax. rewrite (ext_net _ _ Hext), Hcalls, Hrej in Hax.
  split; [exact Hax|]. repeat split; try congruence.
  - rewrite (ext_net _ _ Hext1). apply (ext_net _ _ Hext).
  - rewrite Hs. apply (ext_parsable _ _ Hext Hslot).
  - rewrite (ext_random _ _ Hext1). apply (ext_random _ _ Hext).
  - unfold w1, axios. exists (trace w0).
    destruct (outcome (net w0 (calls w0))); reflexivity.
Qed.

Lemma fetchWithRetry_earlier_rejected fuel ids retries backoff w s m :
  rateLimitSlot w <> Unparsable ->
  outcome (net w (calls w)) = Rejected s m ->
  let w1 := snd (axios ids (snd (rateLimitCheck 10 0 w))) in
  Earlier.fetchWithRetry (S fuel) ids retries backoff w =
  match retries with
  | S retries_1 =>
      Earlier.fetchWithRetry fuel ids retries_1 (Z.min (backoff * 2) 30000)
        (snd (Earlier.backoffWait backoff w1))
  | O => (Throw (AxiosError s m), w1)
  end.
Proof.
  intros Hslot Hrej w1.
  destruct (rejected_attempt_earlier ids w s m Hslot Hrej) as (Hax & _).
  fold w1 in Hax.
  pose proof (rateLimitCheck_returns 10 0 w Hslot) as Hret.
  cbn [Earlier.fetchWithRetry]. unfold bind at 1, on_settle at 1.
  destruct (rateLimitCheck 10 0 w) as [c w0]. cbn [fst snd] in *. subst c.
  unfold on_settle at 1. rewrite Hax.
  destruct retries as [|retries_1]; reflexivity.
Qed.

Lemma fetchWithRetry_earlier_resolved fuel ids retries backoff w response :
  rateLimitSlot w <> Unparsable ->
  outcome (net w (calls w)) = Resolved response ->
  status response <> 429 ->
  let w1 := snd (axios ids (snd (rateLimitCheck 10 0 w))) in
  Earlier.fetchWithRetry (S fuel) ids retries backoff w = (Return response, w1)
  /\ steps (trace w1) = (steps (trace w) ++ [Asked ids])%list.
Proof.
  intros Hslot Hres Hstatus w1.
  pose proof (Steady_rateLimitCheck 10 0 w) as Hext.
  destruct (Silent_rateLimitCheck 10 0 w) as [Hcalls _].
  pose proof (Still_rateLimitCheck 10 0 w) as Hquiet.
  pose proof (rateLimitCheck_returns 10 0 w Hslot) as Hret.
  cbn [Earlier.fetchWithRetry]. unfold bind at 1, on_settle at 1.
  unfold w1. destruct (rateLimitCheck 10 0 w) as [c w0].
  cbn [fst snd] in *. subst c.
  destruct (axios_exact ids w0) as (Hax & _).
  pose proof (steps_axios ids w0) as Hquiet1.
  unfold settle in Hax. rewrite (ext_net _ _ Hext), Hcalls, Hres in Hax.
  unfold on_settle at 1. rewrite Hax.
  apply Z.eqb_neq in Hstatus. rewrite Hstatus.
  split; [reflexivity | congruence].
Qed.

Lemma fetchWithRetry_earlier_failures_waits ids k :
  forall fuel retries backoff w,
    rateLimitSlot w <> Unparsable ->
    rejectedFor k w ->
    exists backoff' w',
      Earlier.fetchWithRetry (k + fuel) ids (k + retries) backoff w =
      Earlier.fetchWithRetry fuel ids retries backoff' w'
      /\ calls w' = (calls w + k)%nat
      /\ net w' = net w
      /\ rateLimitSlot w' <> Unparsable
      /\ steps (trace w') =
         (steps (trace w)
          ++ retried ids
               (map WaitedFrac
                  (codeFracWaits backoff
                     (jittersFrom (random w) (draws w) k))))%list.
Proof.
  induction k as [|k IH]; intros fuel retries backoff w Hslot Hrej.
  - exists backoff, w. cbn [jittersFrom codeFracWaits map retried Nat.add].
    rewrite app_nil_r, Nat.add_0_r. now repeat split.
  - destruct (Hrej O ltac:(lia)) as (s & m & Hfirst).
    rewrite Nat.add_0_r in Hfirst.
    destruct (rejected_attempt_earlier ids w s m Hslot Hfirst)
      as (_ & Hc & Hn & Hs & Hq & Hd & Hr & _).
    pose proof (fetchWithRetry_earlier_rejected (k + fuel) ids
                  (S (k + retries)) backoff w s m Hslot Hfirst) as Hstep.
    cbv zeta in Hstep.
    set (w1 := snd (axios ids (snd (rateLimitCheck 10 0 w)))) in *.
    destruct (backoffWait_earlier_exact backoff w1)
      as (Hb2 & Hd2 & Hr2 & Hc2 & Hn2 & Hs2).
    set (w2 := snd (Earlier.backoffWait backoff w1)) in *.
    destruct (IH fuel retries (Z.min (backoff * 2) 30000) w2)
      as (backoff' & w' & Heq & Hc' & Hn' & Hs' & Hb').
    { now rewrite Hs2. }
    { intros i Hi. rewrite Hn2, Hn, Hc2, Hc.
      replace (S (calls w) + i)%nat with (calls w + S i)%nat by lia.
      apply Hrej. lia. }
    exists backoff', w'. split; [|repeat split].
    + rewrite <- Heq. cbn [Nat.add]. exact Hstep.
    + lia.
    + congruence.
    + exact Hs'.
    + rewrite Hb', Hb2, Hd2, Hr2, Hq, Hd, Hr, <- !app_assoc. reflexivity.
Qed.

(** ** The whole call *)

Lemma fetchWithRetry_schedule_returns ids retries backoff w k response :
  rateLimitSlot w <> Unparsable ->
  (k <= retries)%nat ->
  rejectedFor k w ->
  outcome (net w (calls w + k)) = Resolved response ->
  let result := Current.fetchWithRetry ids retries backoff w in
  fst result = Return response
  /\ steps (trace (snd result)) =
     (steps (trace w)
      ++ retried ids
           (map Waited
              (codeWaits backoff
                 (map floorZ (jittersFrom (random w) (draws w) k))))
      ++ [Asked ids])%list.
Proof.
  intros Hslot Hk Hrej Hres result. subst result.
  replace retries with (k + (retries - k))%nat by lia.
  destruct (fetchWithRetry_failures_waits ids k (retries - k) backoff w
              Hslot Hrej) as (backoff' & w' & Heq & Hc & Hn & Hs & Hsteps).
  rewrite Heq, fetchWithRetry_step.
  destruct (attempt_exact ids w' Hs) as (Hfst & _).
  pose proof (steps_attempt ids w' Hs) as Hlast.
  unfold settle in Hfst. rewrite Hn, Hc, Hres in Hfst.
  destruct (Current.attempt ids w') as [c w1]. cbn [fst snd] in *. subst c.
  cbn [fst snd]. split; [reflexivity|].
  now rewrite Hlast, Hsteps, <- app_assoc.
Qed.

Lemma fetchWithRetry_schedule_throws ids retries backoff w :
  rateLimitSlot w <> Unparsable ->
  rejectedFor (S retries) w ->
  let result := Current.fetchWithRetry ids retries backoff w in
  exists s m,
    outcome (net w (calls w + retries)) = Rejected s m
    /\ fst result = Throw (AxiosError s m)
    /\ steps (trace (snd result)) =
       (steps (trace w)
        ++ retried ids
             (map Waited
                (codeWaits backoff
                   (map floorZ (jittersFrom (random w) (draws w) retries))))
        ++ [Asked ids])%list
    /\ (is429 (AxiosError s m) = false ->
        exists tr, trace (snd result) = (tr ++ [Request ids])%list).
Proof.
  intros Hslot Hrej result. subst result.
  destruct (Hrej retries ltac:(lia)) as (s & m & Hlast).
  exists s, m. split; [exact Hlast|].
  assert (Hrej' : rejectedFor retries w).
  { intros i Hi. apply Hrej. lia. }
  destruct (fetchWithRetry_failures_waits ids retries 0 backoff w
              Hslot Hrej') as (backoff' & w' & Heq & Hc & Hn & Hs & Hsteps).
  rewrite Nat.add_0_r in Heq. rewrite Heq, fetchWithRetry_step.
  destruct (attempt_exact ids w' Hs) as (Hfst & _).
  pose proof (steps_attempt ids w' Hs) as Hasked.
  destruct (attempt_ends_with_request ids w' Hs) as (tr & Htr).
  unfold settle in Hfst. rewrite Hn, Hc, Hlast in Hfst.
  destruct (Current.attempt ids w') as [c w1]. cbn [fst snd] in *. subst c.
  cbv zeta. cbn [fst snd]. split; [reflexivity|]. split.
  - now rewrite (Still_on429 (AxiosError s m) w1), Hasked, Hsteps,
      <- app_assoc.
  - intros Hother. rewrite (on429_other _ w1 Hother). cbn [snd].
    now exists tr.
Qed.

(** With an unreadable counter every attempt of the current revision
    fails before its request; the retry loop waits all the same. *)
Lemma fetchWithRetry_schedule_unparsable ids retries :
  forall backoff w,
    rateLimitSlot w = Unparsable ->
    let result := Current.fetchWithRetry ids retries backoff w in
    fst result = Throw SyntaxError
    /\ steps (trace (snd result)) =
       (steps (trace w)
        ++ map Waited
             (codeWaits backoff
                (map floorZ (jittersFrom (random w) (draws w) retries))))%list.
Proof.
  induction retries as [|retries IH]; intros backoff w Hslot result;
    subst result;
    rewrite fetchWithRetry_step, (attempt_unparsable ids w Hslot);
    rewrite (on429_other SyntaxError w eq_refl); cbv zeta; cbn [fst snd].
  - cbn [jittersFrom map codeWaits]. now rewrite app_nil_r.
  - destruct (backoffWait_exact backoff w) as (Hb & Hd & Hr).
    set (w1 := snd (Current.backoffWait backoff w)) in *.
    assert (Hslot1 : rateLimitSlot w1 = Unparsable) by exact Hslot.
    destruct (IH (Z.min (backoff * 2) 30000) w1 Hslot1) as (I1 & I2).
    split; [exact I1|].
    rewrite I2, Hb, Hd, Hr, <- app_assoc. reflexivity.
Qed.

Lemma fetchWithRetry_earlier_schedule_returns
  fuel ids retries backoff w k response :
  rateLimitSlot w <> Unparsable ->
  (k <= retries)%nat ->
  (k < fuel)%nat ->
  rejectedFor k w ->
  outcome (net w (calls w + k)) = Resolved response ->
  status response <> 429 ->
  let result := Earlier.fetchWithRetry fuel ids retries backoff w in
  fst result = Return response
  /\ steps (trace (snd result)) =
     (steps (trace w)
      ++ retried ids
           (map WaitedFrac
              (codeFracWaits backoff (jittersFrom (random w) (draws w) k)))
      ++ [Asked ids])%list.
Proof.
  intros Hslot Hk Hfuel Hrej Hres Hstatus result. subst result.
  replace retries with (k + (retries - k))%nat by lia.
  replace fuel with (k + S (fuel - S k))%nat by lia.
  destruct (fetchWithRetry_earlier_failures_waits ids k (S (fuel - S k))
              (retries - k) backoff w Hslot Hrej)
    as (backoff' & w' & Heq & Hc & Hn & Hs & Hsteps).
  rewrite Heq.
  assert (Hres' : outcome (net w' (calls w')) = Resolved response)
    by now rewrite Hn, Hc.
  destruct (fetchWithRetry_earlier_resolved (fuel - S k) ids (retries - k)
              backoff' w' response Hs Hres' Hstatus) as (Hlast & Hasked).
  rewrite Hlast. cbn [fst snd]. split; [reflexivity|].
  now rewrite Hasked, Hsteps, <- app_assoc.
Qed.

Lemma fetchWithRetry_earlier_schedule_throws fuel ids retries backoff w :
  rateLimitSlot w <> Unparsable ->
  (retries < fuel)%nat ->
  rejectedFor (S retries) w ->
  let result := Earlier.fetchWithRetry fuel ids retries backoff w in
  exists s m,
    outcome (net w (calls w + retries)) = Rejected s m
    /\ fst result = Throw (AxiosError s m)
    /\ steps (trace (snd result)) =
       (steps (trace w)
        ++ retried ids
             (map WaitedFrac
                (codeFracWaits backoff
                   (jittersFrom (random w) (draws w) retries)))
        ++ [Asked ids])%list
    /\ exists tr, trace (snd result) = (tr ++ [Request ids])%list.
Proof.
  intros Hslot Hfuel Hrej result. subst result.
  destruct (Hrej retries ltac:(lia)) as (s & m & Hlast).
  exists s, m. split; [exact Hlast|].
  assert (Hrej' : rejectedFor retries w).
  { intros i Hi. apply Hrej. lia. }
  replace fuel with (retries + S (fuel - S retries))%nat by lia.
  destruct (fetchWithRetry_earlier_failures_waits ids retries
              (S (fuel - S retries)) 0 backoff w Hslot Hrej')
    as (backoff' & w' & Heq & Hc & Hn & Hs & Hsteps).
  rewrite Nat.add_0_r in Heq. rewrite Heq.
  assert (Hlast' : outcome (net w' (calls w')) = Rejected s m)
    by now rewrite Hn, Hc.
  rewrite (fetchWithRetry_earlier_rejected (fuel - S retries) ids 0 backoff'
             w' s m Hs Hlast').
  destruct (rejected_attempt_earlier ids w' s m Hs Hlast')
    as (_ & _ & _ & _ & Hasked & _ & _ & Htr).
  cbn [fst snd]. split; [reflexivity|]. split; [|exact Htr].
  now rewrite Hasked, Hsteps, <- app_assoc.
Qed.

(** ** The claim *)

(** C7 fails on the earlier revision, which adds the jitter to the backoff
    in binary64 without rounding it first. With the provider offline and
    [Math.random()] returning [1 - 2^-53], the jitter term is
    [1000 - 2^-43], below 1000, but its sum with 2000 rounds to 3000: the
    wait before the first retry is exactly [min (2000 * 2^0) 30000 + 1000],
    that before the second exactly [min (2000 * 2^1) 30000 + 1000], so
    neither is the backoff plus an amount below 1000. *)
Lemma backoff_wait_reaches_bound :
  let w := Scenario.offlineNearOne in
  let result :=
    Earlier.fetchWithRetry 3 Earlier.PAX_GOLD Earlier.MAX_RETRIES
      Earlier.BASE_BACKOFF w in
  unitInterval w
  /\ rejectedFor 3 w
  /\ Forall inJitterRangeF (jittersFrom (random w) (draws w) 2)
  /\ fst result = Throw (AxiosError None "timeout of 15000ms exceeded")
  /\ steps (trace (snd result)) =
     [Asked Earlier.PAX_GOLD;
      WaitedFrac
        (Number_of (Z.min (Earlier.BASE_BACKOFF * 2 ^ (1 - 1)) 30000 + 1000));
      Asked Earlier.PAX_GOLD;
      WaitedFrac
        (Number_of (Z.min (Earlier.BASE_BACKOFF * 2 ^ (2 - 1)) 30000 + 1000));
      Asked Earlier.PAX_GOLD]
  /\ ~ inJitterRange
        (floorZ (Number_of (Z.min (Earlier.BASE_BACKOFF * 2 ^ (1 - 1)) 30000
                            + 1000))
         - Z.min (Earlier.BASE_BACKOFF * 2 ^ (1 - 1)) 30000).
Proof.
  cbv zeta. split; [|split; [|split; [|split; [|split]]]].
  - intros n. split; vm_compute; reflexivity.
  - intros i _. now eexists _, _.
  - repeat constructor; vm_compute; reflexivity.
  - vm_compute. reflexivity.
  - vm_compute. reflexivity.
  - vm_compute. intros [_ H]. discriminate H.
Qed.

(** C7: the backoff schedule, for base backoff [BASE_BACKOFF] and cap 30000.
    Current revision: when the provider rejects [k] requests and answers the
    next one, with [k] within the retries, the call returns that answer and
    what it asked and waited for is: a request, then the wait
    [min (B * 2^(i-1)) 30000 + jitter_i] before the [i]-th retry, for
    [i = 1 .. k], then the last request; the jitter is the floor of a draw
    of [Math.random()] times 1000, at least 0 and below 1000. When the
    provider rejects one request more than there are retries, the call
    throws the last rejection after exactly [retries] such waits and no
    backoff wait follows the last request; unless that rejection is a 429 the
    last request is the last thing the call does. With an unreadable
    rate-limit entry every attempt fails before its request and the call
    waits by the same schedule before it throws. Earlier revision, with a
    readable entry: the same two statements with [B = 2000], where each wait
    is the binary64 sum of the backoff and an unrounded jitter that is at
    least 0 and below 1000. *)
Theorem backoff_schedule :
  (forall ids retries w k response,
      unitInterval w ->
      rateLimitSlot w <> Unparsable ->
      (k <= retries)%nat ->
      rejectedFor k w ->
      outcome (net w (calls w + k)) = Resolved response ->
      let result := Current.fetchWithRetry ids retries Current.BASE_BACKOFF w in
      let jitters := map floorZ (jittersFrom (random w) (draws w) k) in
      fst result = Return response
      /\ steps (trace (snd result)) =
         (steps (trace w)
          ++ retried ids
               (map Waited (specWaits Current.BASE_BACKOFF 30000 1 jitters))
          ++ [Asked ids])%list
      /\ length jitters = k
      /\ Forall inJitterRange jitters)
  /\ (forall ids retries w,
        unitInterval w ->
        rateLimitSlot w <> Unparsable ->
        rejectedFor (S retries) w ->
        let result :=
          Current.fetchWithRetry ids retries Current.BASE_BACKOFF w in
        let jitters := map floorZ (jittersFrom (random w) (draws w) retries) in
        (exists s m,
            outcome (net w (calls w + retries)) = Rejected s m
            /\ fst result = Throw (AxiosError s m)
            /\ (is429 (AxiosError s m) = false ->
                exists tr, trace (snd result) = (tr ++ [Request ids])%list))
        /\ steps (trace (snd result)) =
           (steps (trace w)
            ++ retried ids
                 (map Waited (specWaits Current.BASE_BACKOFF 30000 1 jitters))
            ++ [Asked ids])%list
        /\ length jitters = retries
        /\ Forall inJitterRange jitters)
  /\ (forall ids retries w,
        unitInterval w ->
        rateLimitSlot w = Unparsable ->
        let result :=
          Current.fetchWithRetry ids retries Current.BASE_BACKOFF w in
        let jitters := map floorZ (jittersFrom (random w) (draws w) retries) in
        fst result = Throw SyntaxError
        /\ steps (trace (snd result)) =
           (steps (trace w)
            ++ map Waited (specWaits Current.BASE_BACKOFF 30000 1 jitters))%list
        /\ length jitters = retries
        /\ Forall inJitterRange jitters)
  /\ (forall fuel ids retries w k response,
        unitInterval w ->
        rateLimitSlot w <> Unparsable ->
        (k <= retries)%nat ->
        (k < fuel)%nat ->
        rejectedFor k w ->
        outcome (net w (calls w + k)) = Resolved response ->
        status response <> 429 ->
        let result :=
          Earlier.fetchWithRetry fuel ids retries Earlier.BASE_BACKOFF w in
        let jitters := jittersFrom (random w) (draws w) k in
        fst result = Return response
        /\ steps (trace (snd result)) =
           (steps (trace w)
            ++ retried ids
                 (map WaitedFrac
                    (specFracWaits Earlier.BASE_BACKOFF 30000 1 jitters))
            ++ [Asked ids])%list
        /\ length jitters = k
        /\ Forall inJitterRangeF jitters)
  /\ (forall fuel ids retries w,
        unitInterval w ->
        rateLimitSlot w <> Unparsable ->
        (retries < fuel)%nat ->
        rejectedFor (S retries) w ->
        let result :=
          Earlier.fetchWithRetry fuel ids retries Earlier.BASE_BACKOFF w in
        let jitters := jittersFrom (random w) (draws w) retries in
        (exists s m,
            outcome (net w (calls w + retries)) = Rejected s m
            /\ fst result = Throw (AxiosError s m))
        /\ (exists tr, trace (snd result) = (tr ++ [Request ids])%list)
        /\ steps (trace (snd result)) =
           (steps (trace w)
            ++ retried ids
                 (map WaitedFrac
                    (specFracWaits Earlier.BASE_BACKOFF 30000 1 jitters))
            ++ [Asked ids])%list
        /\ length jitters = retries
        /\ Forall inJitterRangeF jitters).
Proof.
  assert (Hcur : Current.BASE_BACKOFF <= 30000) by (vm_compute; discriminate).
  assert (Hear : Earlier.BASE_BACKOFF <= 30000) by (vm_compute; discriminate).
  split; [|split; [|split; [|split]]].
  - intros ids retries w k response Hunit Hslot Hk Hrej Hres result jitters.
    destruct (fetchWithRetry_schedule_returns ids retries Current.BASE_BACKOFF
                w k response Hslot Hk Hrej Hres) as (Hfst & Hsteps).
    rewrite (codeWaits_from_base _ _ Hcur) in Hsteps.
    split; [exact Hfst|]. split; [exact Hsteps|]. split.
    + unfold jitters. now rewrite length_map, length_jittersFrom.
    + apply (jitters_in_range (random w) (draws w) k Hunit).
  - intros ids retries w Hunit Hslot Hrej result jitters.
    destruct (fetchWithRetry_schedule_throws ids retries Current.BASE_BACKOFF
                w Hslot Hrej) as (s & m & Hlast & Hfst & Hsteps & Hend).
    rewrite (codeWaits_from_base _ _ Hcur) in Hsteps.
    split; [now exists s, m|]. split; [exact Hsteps|]. split.
    + unfold jitters. now rewrite length_map, length_jittersFrom.
    + apply (jitters_in_range (random w) (draws w) retries Hunit).
  - intros ids retries w Hunit Hslot result jitters.
    destruct (fetchWithRetry_schedule_unparsable ids retries
                Current.BASE_BACKOFF w Hslot) as (Hfst & Hsteps).
    rewrite (codeWaits_from_base _ _ Hcur) in Hsteps.
    split; [exact Hfst|]. split; [exact Hsteps|]. split.
    + unfold jitters. now rewrite length_map, length_jittersFrom.
    + apply (jitters_in_range (random w) (draws w) retries Hunit).
  - intros fuel ids retries w k response Hunit Hslot Hk Hfuel Hrej Hres
      Hstatus result jitters.
    destruct (fetchWithRetry_earlier_schedule_returns fuel ids retries
                Earlier.BASE_BACKOFF w k response Hslot Hk Hfuel Hrej Hres
                Hstatus) as (Hfst & Hsteps).
    rewrite (codeFracWaits_from_base _ _ Hear) in Hsteps.
    split; [exact Hfst|]. split; [exact Hsteps|]. split.
    + apply length_jittersFrom.
    + apply (jitters_in_range (random w) (draws w) k Hunit).
  - intros fuel ids retries w Hunit Hslot Hfuel Hrej result jitters.
    destruct (fetchWithRetry_earlier_schedule_throws fuel ids retries
                Earlier.BASE_BACKOFF w Hslot Hfuel Hrej)
      as (s & m & Hlast & Hfst & Hsteps & Hend).
    rewrite (codeFracWaits_from_base _ _ Hear) in Hsteps.
    split; [now exists s, m|]. split; [exact Hend|].
    split; [exact Hsteps|]. split.
    + apply length_jittersFrom.
    + apply (jitters_in_range (random w) (draws w) retries Hunit).
Qed.

Lemma backoff_schedule_witness :
  let w := Scenario.world Scenario.offlineOnce Absent Absent in
  let result :=
    Current.fetchWithRetry Current.PAX_GOLD Current.MAX_RETRIES
      Current.BASE_BACKOFF w in
  let jitters := map floorZ (jittersFrom (random w) (draws w) 1) in
  fst result = Return (mkResponse 200 None
                         [Scenario.bitcoin; Scenario.ethereum;
                          Scenario.paxGold])
  /\ steps (trace (snd result)) =
     (steps (trace w)
      ++ retried Current.PAX_GOLD
           (map Waited (specWaits Current.BASE_BACKOFF 30000 1 jitters))
      ++ [Asked Current.PAX_GOLD])%list
  /\ length jitters = 1%nat
  /\ Forall inJitterRange jitters.
Proof.
  apply (proj1 backoff_schedule Current.PAX_GOLD Current.MAX_RETRIES
           (Scenario.world Scenario.offlineOnce Absent Absent) 1%nat).
  - apply unitInterval_half.
  - discriminate.
  - unfold Current.MAX_RETRIES. lia.
  - intros i Hi. assert (i = O) by lia. subst i. now eexists _, _.
  - reflexivity.
Defined.

(** The provider is down: the current revision asks twice and waits
    3000 + 500 ms in between, the earlier one asks three times and waits
    2500 and 4500 ms. *)
Example backoff_waits_offline :
  let w := Scenario.world (fun _ => Scenario.offline) Absent Absent in
  steps (trace (snd (Current.fetchWithRetry Current.PAX_GOLD
                       Current.MAX_RETRIES Current.BASE_BACKOFF w))) =
  [Asked Current.PAX_GOLD; Waited 3500; Asked Current.PAX_GOLD]
  /\ steps (trace (snd (Earlier.fetchWithRetry 3 Earlier.PAX_GOLD
                          Earlier.MAX_RETRIES Earlier.BASE_BACKOFF w))) =
     [Asked Earlier.PAX_GOLD; WaitedFrac 2500; Asked Earlier.PAX_GOLD;
      WaitedFrac 4500; Asked Earlier.PAX_GOLD].
Proof. split; vm_compute; reflexivity. Qed.
